(** * lrmichael: a shallow embedding of the lock-free superblock allocator

    The development follows [src/lrmichael.h] and [src/lrmichael.cpp].
    Every function of the allocator is a function on an explicit [State]:
    the atomics of the program ([AvailDesc], [ProcHeap::active],
    [ProcHeap::partialList], [Descriptor::anchor], ...) are fields of that
    state, a [compare_exchange] really compares, and every retry loop is a
    recursion on a fuel argument.

    Machine integers are [Z] with the wrap-around written out; bit fields are
    truncated where the code assigns to them; user memory is a map from
    byte addresses to bytes. *)

From Stdlib Require Import ZArith Lia List Bool.
From stdpp Require Import base decidable option gmap list.

Local Open Scope Z_scope.

(** ** Machine words *)

Definition u64 (x : Z) : Z := x mod 2 ^ 64.
Definition bits25 (x : Z) : Z := x mod 2 ^ 25.
Definition bits12 (x : Z) : Z := x mod 2 ^ 12.

(** [lrmichael.h]: the number of bits used for credits in an
    [ActiveDescriptor]. *)
Definition CREDITS_MAX : Z := Z.shiftl 1 6.
Definition CREDITS_MASK : Z := Z.shiftl 1 6 - 1.

(** [errno.h] *)
Definition ENOMEM : Z := 12.
Definition EINVAL : Z := 22.

(** ** Data model ([lrmichael.h]) *)

Inductive SuperblockState : Type :=
  | SB_ACTIVE   (* superblock used in ProcHeap *)
  | SB_FULL     (* all blocks allocated or reserved *)
  | SB_PARTIAL  (* not ACTIVE but has unreserved available blocks *)
  | SB_EMPTY.   (* not ACTIVE and all blocks are free *)

#[global] Instance SuperblockState_eq_dec : EqDecision SuperblockState.
Proof. solve_decision. Defined.

(** [struct Anchor]: state:2, avail:25, count:25, tag:12. *)
Record Anchor : Type := mkAnchor {
  state : SuperblockState;
  avail : Z;
  count : Z;
  tag : Z
}.

#[global] Instance Anchor_eq_dec : EqDecision Anchor.
Proof. solve_decision. Defined.

(** [struct DescriptorNode]: a descriptor pointer and an ABA counter. *)
Record DescriptorNode : Type := mkNode {
  desc : Z;
  counter : Z
}.

#[global] Instance DescriptorNode_eq_dec : EqDecision DescriptorNode.
Proof. solve_decision. Defined.

(** A [ProcHeap*] is either null or the address of [Heaps[idx]]. *)
Definition HeapPtr : Type := option Z.

(** [struct Descriptor] *)
Record Descriptor : Type := mkDescriptor {
  nextFree : DescriptorNode;
  nextPartial : DescriptorNode;
  anchor : Anchor;
  superblock : Z;
  heap : HeapPtr;
  blockSize : Z;
  maxcount : Z
}.

(** [struct ProcHeap]; [sizeclass] is the index of the entry of
    [SizeClasses] the heap points to. *)
Record ProcHeap : Type := mkProcHeap {
  active : Z;
  partialList : DescriptorNode;
  sizeclass : Z
}.

(** An entry of the size-class table: the fields and the method
    [GetBlockNum] that [lrmichael.cpp] uses. *)
Record SizeClassData : Type := mkSizeClass {
  sc_blockSize : Z;
  sc_sbSize : Z;
  sc_GetBlockNum : Z
}.

(** What [lrmichael.cpp] takes from [defines.h], [size_classes.h] and
    from the layout of [Descriptor]: constants, the size-class table and
    the address macros.  They are parameters of the development. *)
Record Config : Type := mkConfig {
  PAGE : Z;
  CACHELINE : Z;
  sizeof_Descriptor : Z;
  MAX_SZ_IDX : Z;
  SizeClasses : Z -> SizeClassData;
  GetSizeClass : Z -> Z;
  PAGE_CEILING : Z -> Z;
  ALIGN_ADDR : Z -> Z -> Z
}.

(** Calls of the page provider, in program order. *)
Inductive PageEvent : Type :=
  | EvPageAlloc (size : Z) (ptr : Z)
  | EvPageFree (ptr : Z) (size : Z).

#[global] Instance PageEvent_eq_dec : EqDecision PageEvent.
Proof. solve_decision. Defined.

(** The state of the process: the globals of [lrmichael.cpp], the
    descriptors by address, the page map, user memory by byte address, and
    the page provider (the addresses it will hand out, and its calls). *)
Record State : Type := mkState {
  AvailDesc : DescriptorNode;
  MallocInit : bool;
  Heaps : gmap Z ProcHeap;
  descs : gmap Z Descriptor;
  sPageMap : gmap Z Z;
  mem : gmap Z Z;
  pageOracle : list Z;
  pageLog : list PageEvent
}.

Definition nullNode : DescriptorNode := mkNode 0 0.
Definition zeroAnchor : Anchor := mkAnchor SB_ACTIVE 0 0 0.
Definition zeroDescriptor : Descriptor :=
  mkDescriptor nullNode nullNode zeroAnchor 0 None 0 0.
Definition zeroHeap : ProcHeap := mkProcHeap 0 nullNode 0.

(** Reading an object that was never written gives zeroed storage. *)
Definition desc_at (s : State) (d : Z) : Descriptor :=
  default zeroDescriptor (descs s !! d).
Definition heap_at (s : State) (h : Z) : ProcHeap :=
  default zeroHeap (Heaps s !! h).
Definition byte_at (s : State) (a : Z) : Z :=
  default 0 (mem s !! a).

(** *** Field updates *)

Definition set_AvailDesc (n : DescriptorNode) (s : State) : State :=
  mkState n (MallocInit s) (Heaps s) (descs s) (sPageMap s) (mem s)
          (pageOracle s) (pageLog s).
Definition set_MallocInit (b : bool) (s : State) : State :=
  mkState (AvailDesc s) b (Heaps s) (descs s) (sPageMap s) (mem s)
          (pageOracle s) (pageLog s).
Definition set_Heaps (m : gmap Z ProcHeap) (s : State) : State :=
  mkState (AvailDesc s) (MallocInit s) m (descs s) (sPageMap s) (mem s)
          (pageOracle s) (pageLog s).
Definition set_descs (m : gmap Z Descriptor) (s : State) : State :=
  mkState (AvailDesc s) (MallocInit s) (Heaps s) m (sPageMap s) (mem s)
          (pageOracle s) (pageLog s).
Definition set_sPageMap (m : gmap Z Z) (s : State) : State :=
  mkState (AvailDesc s) (MallocInit s) (Heaps s) (descs s) m (mem s)
          (pageOracle s) (pageLog s).
Definition set_mem (m : gmap Z Z) (s : State) : State :=
  mkState (AvailDesc s) (MallocInit s) (Heaps s) (descs s) (sPageMap s) m
          (pageOracle s) (pageLog s).
Definition set_pages (o : list Z) (l : list PageEvent) (s : State) : State :=
  mkState (AvailDesc s) (MallocInit s) (Heaps s) (descs s) (sPageMap s)
          (mem s) o l.

Definition upd_desc (d : Z) (f : Descriptor -> Descriptor) (s : State) : State :=
  set_descs (<[d := f (desc_at s d)]> (descs s)) s.
Definition upd_heap (h : Z) (f : ProcHeap -> ProcHeap) (s : State) : State :=
  set_Heaps (<[h := f (heap_at s h)]> (Heaps s)) s.

Definition with_nextFree (n : DescriptorNode) (x : Descriptor) : Descriptor :=
  mkDescriptor n (nextPartial x) (anchor x) (superblock x) (heap x)
               (blockSize x) (maxcount x).
Definition with_nextPartial (n : DescriptorNode) (x : Descriptor) : Descriptor :=
  mkDescriptor (nextFree x) n (anchor x) (superblock x) (heap x)
               (blockSize x) (maxcount x).
Definition with_anchor (a : Anchor) (x : Descriptor) : Descriptor :=
  mkDescriptor (nextFree x) (nextPartial x) a (superblock x) (heap x)
               (blockSize x) (maxcount x).
Definition with_superblock (p : Z) (x : Descriptor) : Descriptor :=
  mkDescriptor (nextFree x) (nextPartial x) (anchor x) p (heap x)
               (blockSize x) (maxcount x).
Definition with_heap (h : HeapPtr) (x : Descriptor) : Descriptor :=
  mkDescriptor (nextFree x) (nextPartial x) (anchor x) (superblock x) h
               (blockSize x) (maxcount x).
Definition with_blockSize (n : Z) (x : Descriptor) : Descriptor :=
  mkDescriptor (nextFree x) (nextPartial x) (anchor x) (superblock x) (heap x)
               n (maxcount x).
Definition with_maxcount (n : Z) (x : Descriptor) : Descriptor :=
  mkDescriptor (nextFree x) (nextPartial x) (anchor x) (superblock x) (heap x)
               (blockSize x) n.

Definition with_active (a : Z) (x : ProcHeap) : ProcHeap :=
  mkProcHeap a (partialList x) (sizeclass x).
Definition with_partialList (n : DescriptorNode) (x : ProcHeap) : ProcHeap :=
  mkProcHeap (active x) n (sizeclass x).

Definition with_state (v : SuperblockState) (a : Anchor) : Anchor :=
  mkAnchor v (avail a) (count a) (tag a).
Definition with_avail (v : Z) (a : Anchor) : Anchor :=
  mkAnchor (state a) (bits25 v) (count a) (tag a).
Definition with_count (v : Z) (a : Anchor) : Anchor :=
  mkAnchor (state a) (avail a) (bits25 v) (tag a).
Definition with_tag (v : Z) (a : Anchor) : Anchor :=
  mkAnchor (state a) (avail a) (count a) (bits12 v).

(** ** User memory: little-endian words over a byte map *)

Fixpoint load_bytes (n : nat) (a : Z) (s : State) : Z :=
  match n with
  | O => 0
  | S n' => byte_at s a + 256 * load_bytes n' (a + 1) s
  end.

Fixpoint store_bytes (n : nat) (a v : Z) (m : gmap Z Z) : gmap Z Z :=
  match n with
  | O => m
  | S n' => store_bytes n' (a + 1) (v / 256) (<[a := v mod 256]> m)
  end.

(** [*(uint64_t* )ptr] as an rvalue and as an lvalue. *)
Definition load64 (ptr : Z) (s : State) : Z := load_bytes 8 ptr s.
Definition store64 (ptr v : Z) (s : State) : State :=
  set_mem (store_bytes 8 ptr (u64 v) (mem s)) s.

(** [memcpy(dst, src, n)]: the [n] source bytes are those of the state
    before the call. *)
Definition memcpy (dst src n : Z) (s : State) : State :=
  set_mem (foldr (fun i m => <[dst + i := byte_at s (src + i)]> m)
                 (mem s) (seqZ 0 n)) s.

(** [memset(ptr, 0x0, n)] *)
Definition memset0 (ptr n : Z) (s : State) : State :=
  set_mem (foldr (fun i m => <[ptr + i := 0]> m) (mem s) (seqZ 0 n)) s.

(** [char*] plus an offset, in a flat 64-bit address space. *)
Definition ptr_add (p off : Z) : Z := u64 (p + off).

(** ** Loops *)

(** [for (idx = from; idx < bound; idx += step) body(idx)], run for at most
    [n] iterations. *)
Fixpoint for_loop (n : nat) (idx bound step : Z)
         (body : Z -> State -> State) (s : State) : State :=
  match n with
  | O => s
  | S n' =>
      if decide (idx < bound)
      then for_loop n' (idx + step) bound step body (body idx s)
      else s
  end.

(** [do { body } while (!loc.compare_exchange_weak(old, new))].
    [get] and [put] read and write the atomic [loc]; [body] computes the
    desired value from the expected one, may update locals [l] and the
    state, and may leave the function ([Exit]).  A failed exchange reloads
    the expected value.  The result is the final locals together with the
    expected and the installed value. *)
Inductive LoopStep (L V R : Type) : Type :=
  | Next (l : L) (new : V)
  | Exit (r : R).
Arguments Next {L V R} l new.
Arguments Exit {L V R} r.

Fixpoint cas_loop {L V R : Type} `{EqDecision V} (fuel : nat)
         (get : State -> V) (put : V -> State -> State)
         (body : V -> L -> State -> LoopStep L V R * State)
         (old : V) (l : L) (s : State)
  : option ((L * V * V + R) * State) :=
  match fuel with
  | O => None
  | S fuel' =>
      match body old l s with
      | (Exit r, s1) => Some (inr r, s1)
      | (Next l1 new, s1) =>
          if decide (get s1 = old)
          then Some (inl (l1, old, new), put new s1)
          else cas_loop fuel' get put body (get s1) l1 s1
      end
  end.

(** The same loop when the body never leaves the function. *)
Fixpoint cas_update {L V : Type} `{EqDecision V} (fuel : nat)
         (get : State -> V) (put : V -> State -> State)
         (body : V -> L -> State -> L * V * State)
         (old : V) (l : L) (s : State)
  : option (L * V * V * State) :=
  match fuel with
  | O => None
  | S fuel' =>
      let '(l1, new, s1) := body old l s in
      if decide (get s1 = old)
      then Some (l1, old, new, put new s1)
      else cas_update fuel' get put body (get s1) l1 s1
  end.

(** ** The allocator ([lrmichael.cpp])

    A result [None] stands for a call that does not return: the fuel of a
    retry loop ran out, or a null descriptor or heap pointer was
    dereferenced.  The [ASSERT]s of the source come from [log.h] and are
    not part of the model. *)

Section Allocator.

Variable cfg : Config.

(** [DESCRIPTOR_BLOCK_SZ] *)
Definition DESCRIPTOR_BLOCK_SZ : Z := 16 * PAGE cfg.

(** *** Page provider and page map *)

(** Modelled from the spec: [pages.h] is not part of the sources.
    [PageAlloc(nBytes)] supplies a region, here the next address of
    [pageOracle] (null when there is none left); [PageFree(ptr, nBytes)]
    returns one.  Both calls are recorded in [pageLog]. *)
Definition PageAlloc (size : Z) (s : State) : Z * State :=
  match pageOracle s with
  | [] => (0, set_pages [] (pageLog s ++ [EvPageAlloc size 0]) s)
  | p :: rest => (p, set_pages rest (pageLog s ++ [EvPageAlloc size p]) s)
  end.

Definition PageFree (ptr size : Z) (s : State) : State :=
  set_pages (pageOracle s) (pageLog s ++ [EvPageFree ptr size]) s.

(** Modelled from the spec: [pagemap.h] is not part of the sources.  The
    map is keyed by the page that contains the address; an absent entry
    reads as a null descriptor. *)
Definition page_key (ptr : Z) : Z := ptr / PAGE cfg.

Definition SetPageInfo (ptr : Z) (info : Z) (s : State) : State :=
  set_sPageMap (<[page_key ptr := info]> (sPageMap s)) s.

Definition GetPageInfo (ptr : Z) (s : State) : Z :=
  default 0 (sPageMap s !! page_key ptr).

(** *** Utilities *)

Definition MakeActive (d : Z) (credits : Z) : Z := Z.lor d credits.

Definition GetActive (a : Z) : Z * Z :=
  (Z.land a (u64 (Z.lnot CREDITS_MASK)), Z.land a CREDITS_MASK).

Definition UpdatePageMap (hp : HeapPtr) (ptr : Z) (value : Z) (s : State)
  : State :=
  match hp with
  | None => SetPageInfo ptr value s
  | Some h =>
      let sbSize := sc_sbSize (SizeClasses cfg (sizeclass (heap_at s h))) in
      for_loop (Z.to_nat sbSize) 0 sbSize (PAGE cfg)
               (fun idx => SetPageInfo (ptr_add ptr idx) value) s
  end.

Definition RegisterDesc (d : Z) (s : State) : State :=
  UpdatePageMap (heap (desc_at s d)) (superblock (desc_at s d)) d s.

Definition UnregisterDesc (hp : HeapPtr) (sb : Z) (s : State) : State :=
  UpdatePageMap hp sb 0 s.

Definition GetDescriptorForPtr (ptr : Z) (s : State) : Z :=
  GetPageInfo ptr s.

(** *** Atomic locations *)

Definition get_anchor (d : Z) (s : State) : Anchor := anchor (desc_at s d).
Definition put_anchor (d : Z) (a : Anchor) (s : State) : State :=
  upd_desc d (with_anchor a) s.
Definition get_active (h : Z) (s : State) : Z := active (heap_at s h).
Definition put_active (h : Z) (a : Z) (s : State) : State :=
  upd_heap h (with_active a) s.
Definition get_partialList (h : Z) (s : State) : DescriptorNode :=
  partialList (heap_at s h).
Definition put_partialList (h : Z) (n : DescriptorNode) (s : State) : State :=
  upd_heap h (with_partialList n) s.

(** *** Descriptor pool *)

(** [DescRetire]: push [d] on the recycle list. *)
Definition DescRetire (fuel : nat) (d : Z) (s : State) : option State :=
  match
    cas_update fuel AvailDesc set_AvailDesc
      (fun oldHead (_ : unit) s0 =>
         let s1 := upd_desc d (with_nextFree oldHead) s0 in
         let newHead := mkNode d (u64 (counter oldHead + 1)) in
         (tt, newHead, s1))
      (AvailDesc s) tt s
  with
  | Some (_, _, _, s') => Some s'
  | None => None
  end.

(** The inner [while] of [DescAlloc]: link the descriptors carved out of
    the fresh block [ptr]; the result is the last descriptor. *)
Fixpoint DescAlloc_carve (fuel : nat) (ptr currPtr prev : Z) (s : State)
  : option (Z * State) :=
  match fuel with
  | O => None
  | S fuel' =>
      if decide (currPtr + sizeof_Descriptor cfg < ptr + DESCRIPTOR_BLOCK_SZ)
      then
        let curr := currPtr in
        let s1 := if decide (prev = 0) then s
                  else upd_desc prev (with_nextFree (mkNode curr 0)) s in
        let currPtr1 :=
          ALIGN_ADDR cfg (currPtr + sizeof_Descriptor cfg) (CACHELINE cfg) in
        DescAlloc_carve fuel' ptr currPtr1 curr s1
      else Some (prev, s)
  end.

(** The [else] branch of [DescAlloc]: allocate several pages, return the
    first descriptor and publish the others. *)
Definition DescAlloc_fresh (fuel : nat) (s : State) : option (Z * State) :=
  let '(ptr, s1) := PageAlloc DESCRIPTOR_BLOCK_SZ s in
  let ret := ptr in
  let first := ALIGN_ADDR cfg (ptr + sizeof_Descriptor cfg) (CACHELINE cfg) in
  match DescAlloc_carve fuel ptr first 0 s1 with
  | None => None
  | Some (prev, s2) =>
      if decide (prev = 0) then None
      else
        let s3 := upd_desc prev (with_nextFree (mkNode 0 0)) s2 in
        match
          cas_update fuel AvailDesc set_AvailDesc
            (fun oldHead (_ : unit) s0 =>
               let s4 := upd_desc prev (with_nextFree oldHead) s0 in
               (tt, mkNode first (u64 (counter oldHead + 1)), s4))
            (AvailDesc s3) tt s3
        with
        | Some (_, _, _, s') => Some (ret, s')
        | None => None
        end
  end.

Fixpoint DescAlloc_loop (fuel : nat) (oldHead : DescriptorNode) (s : State)
  : option (Z * State) :=
  match fuel with
  | O => None
  | S fuel' =>
      if decide (desc oldHead = 0)
      then DescAlloc_fresh fuel s
      else
        let newHead :=
          mkNode (desc (nextFree (desc_at s (desc oldHead))))
                 (counter oldHead) in
        if decide (AvailDesc s = oldHead)
        then Some (desc oldHead, set_AvailDesc newHead s)
        else DescAlloc_loop fuel' (AvailDesc s) s
  end.

Definition DescAlloc (fuel : nat) (s : State) : option (Z * State) :=
  DescAlloc_loop fuel (AvailDesc s) s.

(** *** Partial list *)

Definition ListPopPartial (fuel : nat) (h : Z) (s : State)
  : option (Z * State) :=
  match
    cas_loop fuel (get_partialList h) (put_partialList h)
      (fun oldHead (_ : unit) s0 =>
         if decide (desc oldHead = 0) then (Exit 0, s0)
         else
           let newHead :=
             mkNode (desc (nextPartial (desc_at s0 (desc oldHead))))
                    (counter oldHead) in
           (Next tt newHead, s0))
      (get_partialList h s) tt s
  with
  | Some (inl (_, oldHead, _), s') => Some (desc oldHead, s')
  | Some (inr r, s') => Some (r, s')
  | None => None
  end.

Definition ListPushPartial (fuel : nat) (d : Z) (s : State) : option State :=
  match heap (desc_at s d) with
  | None => None
  | Some h =>
      let oldHead := get_partialList h s in
      let newHead := mkNode d (u64 (counter oldHead + 1)) in
      match
        cas_update fuel (get_partialList h) (put_partialList h)
          (fun oldHead (_ : unit) s0 =>
             (tt, newHead, upd_desc (desc newHead) (with_nextPartial oldHead) s0))
          oldHead tt s
      with
      | Some (_, _, _, s') => Some s'
      | None => None
      end
  end.

(** [ListRemoveEmptyDesc] has an empty body. *)
Definition ListRemoveEmptyDesc (hp : HeapPtr) (d : Z) (s : State) : State := s.

Definition HeapPushPartial (fuel : nat) (d : Z) (s : State) : option State :=
  ListPushPartial fuel d s.

Definition HeapPopPartial (fuel : nat) (h : Z) (s : State)
  : option (Z * State) :=
  ListPopPartial fuel h s.

Definition RemoveEmptyDesc (hp : HeapPtr) (d : Z) (s : State) : State :=
  ListRemoveEmptyDesc hp d s.

(** *** Active superblock *)

(** [UpdateActive] after [oldActive = heap->active.load()]: the strong
    exchange compares the heap's active word, as it is now, with the
    loaded one. *)
Definition UpdateActive_exchange (fuel : nat) (h d credits oldActive : Z)
           (s : State) : option State :=
  let newActive := MakeActive d (u64 (credits - 1)) in
  if decide (get_active h s = oldActive)
  then Some (put_active h newActive s) (* all good *)
  else
    (* someone installed another active superblock:
       return credits to superblock, make it SB_PARTIAL *)
    match
      cas_update fuel (get_anchor d) (put_anchor d)
        (fun oldAnchor (_ : unit) s0 =>
           let newAnchor :=
             with_state SB_PARTIAL
               (with_count (count oldAnchor + credits) oldAnchor) in
           (tt, newAnchor, s0))
        (get_anchor d s) tt s
    with
    | Some (_, _, _, s1) => HeapPushPartial fuel d s1
    | None => None
    end.

Definition UpdateActive (fuel : nat) (h d credits : Z) (s : State)
  : option State :=
  let oldActive := get_active h s in
  UpdateActive_exchange fuel h d credits oldActive s.

(** The anchor update of [MallocFromActive]: pop the block at [avail];
    on the last credit either mark the superblock full or take new
    credits out of [count]. *)
Definition MallocFromActive_pop (d oldCredits : Z) (oldAnchor : Anchor)
           (l : Z * Z) (s : State) : (Z * Z) * Anchor * State :=
  let credits0 := snd l in
  let blockSize := blockSize (desc_at s d) in
  let avail := avail oldAnchor in
  let offset := u64 (avail * blockSize) in
  let ptr := ptr_add (superblock (desc_at s d)) offset in
  let next := load64 ptr s in
  let newAnchor := with_tag (tag oldAnchor + 1) (with_avail next oldAnchor) in
  if decide (oldCredits = 0)
  then
    if decide (count oldAnchor = 0)
    then ((ptr, credits0), with_state SB_FULL newAnchor, s)
    else
      let credits := Z.min (count oldAnchor) CREDITS_MAX in
      ((ptr, credits), with_count (count newAnchor - credits) newAnchor, s)
  else ((ptr, credits0), newAnchor, s).

(** [MallocFromActive] up to the second exchange: reserve a block in the
    active word, then pop it from the anchor.  The result is the block,
    the descriptor and the credits to install. *)
Definition MallocFromActive_take (fuel : nat) (h : Z) (s : State)
  : option (Z * Z * Z * State) :=
  (* reserve block *)
  match
    cas_loop fuel (get_active h) (put_active h)
      (fun oldActive (_ : Z) s0 =>
         if decide (oldActive = 0) then (Exit 0, s0)
         else
           let '(oldDesc, oldCredits) := GetActive oldActive in
           let newActive :=
             if decide (oldCredits > 0)
             then MakeActive oldDesc (oldCredits - 1)
             else 0 in
           (Next oldCredits newActive, s0))
      (get_active h s) 0 s
  with
  | None => None
  | Some (inr r, s1) => Some (r, 0, 0, s1)
  | Some (inl (oldCredits, oldActive, _), s1) =>
      let d := Z.land oldActive (u64 (Z.lnot CREDITS_MASK)) in
      (* pop block *)
      match
        cas_update fuel (get_anchor d) (put_anchor d)
          (MallocFromActive_pop d oldCredits) (get_anchor d s1) (0, 0) s1
      with
      | None => None
      | Some ((ptr, credits), _, _, s2) => Some (ptr, d, credits, s2)
      end
  end.

Definition MallocFromActive (fuel : nat) (h : Z) (s : State)
  : option (Z * State) :=
  match MallocFromActive_take fuel h s with
  | None => None
  | Some (ptr, d, credits, s2) =>
      (* credits change, update *)
      if decide (credits > 0)
      then
        match UpdateActive fuel h d credits s2 with
        | Some s3 => Some (ptr, s3)
        | None => None
        end
      else Some (ptr, s2)
  end.

(** *** Partial superblocks *)

(** First anchor update of [MallocFromPartial]: reserve the block being
    allocated and the credits for the active word.  An empty superblock
    leaves the loop. *)
Definition MallocFromPartial_reserve (oldAnchor : Anchor) (l : Z) (s : State)
  : LoopStep Z Anchor unit * State :=
  if decide (state oldAnchor = SB_EMPTY) then (Exit tt, s)
  else
    let credits := Z.min (u64 (count oldAnchor - 1)) CREDITS_MAX in
    let newAnchor := oldAnchor in
    (* block we're allocating right now *)
    let newAnchor := with_count (count newAnchor - 1) newAnchor in
    let newAnchor := with_count (count newAnchor - credits) newAnchor in
    let newAnchor :=
      with_state (if decide (credits > 0) then SB_ACTIVE else SB_FULL)
                 newAnchor in
    (Next credits newAnchor, s).

(** Second anchor update of [MallocFromPartial]: pop the reserved block.
    The block size is read through [desc->heap->sizeclass]. *)
Definition MallocFromPartial_pop (d : Z) (oldAnchor : Anchor) (l : Z)
           (s : State) : LoopStep Z Anchor unit * State :=
  match heap (desc_at s d) with
  | None => (Exit tt, s)
  | Some dh =>
      let idx := avail oldAnchor in
      let blockSize := sc_blockSize (SizeClasses cfg (sizeclass (heap_at s dh))) in
      let ptr := ptr_add (superblock (desc_at s d)) (u64 (idx * blockSize)) in
      let newAnchor :=
        with_tag (tag oldAnchor + 1) (with_avail (load64 ptr s) oldAnchor) in
      (Next ptr newAnchor, s)
  end.

Fixpoint MallocFromPartial (fuel : nat) (h : Z) (s : State)
  : option (Z * State) :=
  match fuel with
  | O => None
  | S fuel' =>
      match HeapPopPartial fuel h s with
      | None => None
      | Some (d, s1) =>
          if decide (d = 0) then Some (0, s1)
          else
            match
              cas_loop fuel (get_anchor d) (put_anchor d)
                MallocFromPartial_reserve (get_anchor d s1) 0 s1
            with
            | None => None
            | Some (inr _, s2) =>
                match DescRetire fuel d s2 with
                | Some s3 => MallocFromPartial fuel' h s3 (* retry *)
                | None => None
                end
            | Some (inl (credits, _, _), s2) =>
                match
                  cas_loop fuel (get_anchor d) (put_anchor d)
                    (MallocFromPartial_pop d) (get_anchor d s2) 0 s2
                with
                | None => None
                | Some (inr _, _) => None
                | Some (inl (ptr, _, _), s3) =>
                    if decide (credits > 0)
                    then
                      match UpdateActive fuel h d credits s3 with
                      | Some s4 => Some (ptr, s4)
                      | None => None
                      end
                    else Some (ptr, s3)
                end
            end
      end
  end.

(** *** New superblocks *)

(** [MallocFromNewSB] up to [RegisterDesc]: get a descriptor, allocate
    and format the superblock, store the anchor, register the pages.  The
    result is the descriptor and the active word to install. *)
Definition MallocFromNewSB_build (fuel : nat) (h : Z) (s : State)
  : option (Z * Z * State) :=
  let sc := SizeClasses cfg (sizeclass (heap_at s h)) in
  match DescAlloc fuel s with
  | None => None
  | Some (d, s1) =>
      if decide (d = 0) then None
      else
        let s2 := upd_desc d (with_heap (Some h)) s1 in
        let s3 := upd_desc d (with_blockSize (sc_blockSize sc)) s2 in
        let s4 := upd_desc d (with_maxcount (sc_GetBlockNum sc)) s3 in
        (* allocate superblock, organize blocks in a linked list *)
        let '(sb, s5) := PageAlloc (sc_sbSize sc) s4 in
        let s6 := upd_desc d (with_superblock sb) s5 in
        let blockSize := sc_blockSize sc in
        let bound := u64 (maxcount (desc_at s6 d) - 1) in
        let s7 :=
          for_loop (Z.to_nat bound) 1 bound 1
            (fun idx s0 =>
               store64 (ptr_add (superblock (desc_at s0 d)) (u64 (idx * blockSize)))
                       (idx + 1) s0)
            s6 in
        let credits := Z.min (u64 (maxcount (desc_at s7 d) - 1)) CREDITS_MAX in
        let newActive := MakeActive d (u64 (credits - 1)) in
        let anchor :=
          with_tag 0
            (with_state SB_ACTIVE
               (with_count (u64 (maxcount (desc_at s7 d) - 1) - credits)
                  (with_avail 1 zeroAnchor))) in
        let s8 := put_anchor d anchor s7 in
        (* register new descriptor *)
        let s9 := RegisterDesc d s8 in
        Some (d, newActive, s9)
  end.

(** [MallocFromNewSB] after [oldActive = heap->active.load()]: try to
    install the new superblock; when there is already an active one, give
    everything back. *)
Definition MallocFromNewSB_install (fuel : nat) (h : Z) (sc : SizeClassData)
           (d newActive oldActive : Z) (s : State) : option (Z * State) :=
  if decide (oldActive <> 0 \/ get_active h s <> oldActive)
  then
    (* CAS fail, there's already an active superblock *)
    let s1 := UnregisterDesc (heap (desc_at s d)) (superblock (desc_at s d)) s in
    let s2 := PageFree (superblock (desc_at s1 d)) (sc_sbSize sc) s1 in
    match DescRetire fuel d s2 with
    | Some s3 => Some (0, s3)
    | None => None
    end
  else
    let s1 := put_active h newActive s in
    Some (superblock (desc_at s1 d), s1).

Definition MallocFromNewSB (fuel : nat) (h : Z) (s : State)
  : option (Z * State) :=
  let sc := SizeClasses cfg (sizeclass (heap_at s h)) in
  match MallocFromNewSB_build fuel h s with
  | None => None
  | Some (d, newActive, s1) =>
      (* try to update active superblock *)
      let oldActive := get_active h s1 in
      MallocFromNewSB_install fuel h sc d newActive oldActive s1
  end.

(** *** Initialisation *)

Definition InitMalloc (s : State) : State :=
  let s1 := set_MallocInit true s in
  (* InitSizeClass(): the table is [SizeClasses cfg] *)
  for_loop (Z.to_nat (MAX_SZ_IDX cfg)) 0 (MAX_SZ_IDX cfg) 1
    (fun idx s0 =>
       set_Heaps (<[idx := mkProcHeap 0 (mkNode 0 0) idx]> (Heaps s0)) s0)
    s1.

Definition GetProcHeap (size : Z) (s : State) : HeapPtr * State :=
  let s1 := if MallocInit s then s else InitMalloc s in
  let scIdx := GetSizeClass cfg size in
  if decide (scIdx <> 0) then (Some scIdx, s1) else (None, s1).

(** *** The malloc interface *)

(** The [while (1)] of [lr_malloc]. *)
Fixpoint lr_malloc_loop (fuel : nat) (h : Z) (s : State)
  : option (Z * State) :=
  match fuel with
  | O => None
  | S fuel' =>
      match MallocFromActive fuel h s with
      | None => None
      | Some (ptr, s1) =>
          if decide (ptr <> 0) then Some (ptr, s1)
          else
            match MallocFromPartial fuel h s1 with
            | None => None
            | Some (ptr, s2) =>
                if decide (ptr <> 0) then Some (ptr, s2)
                else
                  match MallocFromNewSB fuel h s2 with
                  | None => None
                  | Some (ptr, s3) =>
                      if decide (ptr <> 0) then Some (ptr, s3)
                      else lr_malloc_loop fuel' h s3
                  end
            end
      end
  end.

Definition lr_malloc (fuel : nat) (size : Z) (s : State)
  : option (Z * State) :=
  (* size class calculation *)
  let '(hp, s0) := GetProcHeap size s in
  match hp with
  | None =>
      (* large block allocation *)
      let pages := PAGE_CEILING cfg size in
      match DescAlloc fuel s0 with
      | None => None
      | Some (d, s1) =>
          if decide (d = 0) then None
          else
            let s2 := upd_desc d (with_heap None) s1 in
            let s3 := upd_desc d (with_blockSize pages) s2 in
            let s4 := upd_desc d (with_maxcount 1) s3 in
            let '(sb, s5) := PageAlloc pages s4 in
            let s6 := upd_desc d (with_superblock sb) s5 in
            let anchor :=
              with_tag 0
                (with_state SB_FULL (with_count 0 (with_avail 0 zeroAnchor))) in
            let s7 := put_anchor d anchor s6 in
            let s8 := RegisterDesc d s7 in
            Some (superblock (desc_at s8 d), s8)
      end
  | Some h => lr_malloc_loop fuel h s0
  end.

(** The anchor update of [lr_free]: push the block on the free list of
    its superblock; [superblock0] is the superblock read before the loop. *)
Definition lr_free_push (d superblock0 : Z) (oldAnchor : Anchor) (ptr : Z)
           (s : State) : Z * Anchor * State :=
  (* compute index of ptr *)
  let blockSize := blockSize (desc_at s d) in
  let idx := u64 (ptr - superblock0) / blockSize in
  (* recompute ptr *)
  let ptr := ptr_add (superblock (desc_at s d)) (u64 (idx * blockSize)) in
  (* update anchor.avail *)
  let s1 := store64 ptr (avail oldAnchor) s in
  let newAnchor := with_avail idx oldAnchor in
  (* state updates: don't set SB_PARTIAL if state == SB_ACTIVE *)
  let newAnchor :=
    if decide (state oldAnchor = SB_FULL)
    then with_state SB_PARTIAL newAnchor else newAnchor in
  let newAnchor :=
    if decide (count oldAnchor = u64 (maxcount (desc_at s1 d) - 1))
    then with_state SB_EMPTY newAnchor (* can free superblock *)
    else with_count (count newAnchor + 1) newAnchor in
  (ptr, newAnchor, s1).

Definition lr_free (fuel : nat) (ptr : Z) (s : State) : option State :=
  if decide (ptr = 0) then Some s
  else
    let d := GetDescriptorForPtr ptr s in
    if decide (d = 0) then Some s
    else
      let hp := heap (desc_at s d) in
      let superblock := superblock (desc_at s d) in
      match hp with
      | None =>
          (* large allocation case: unregister descriptor *)
          let s1 := UnregisterDesc None superblock s in
          (* aligned large allocation case *)
          let s2 := if decide (ptr <> superblock)
                    then UnregisterDesc None ptr s1 else s1 in
          (* free superblock *)
          let s3 := PageFree superblock (blockSize (desc_at s2 d)) s2 in
          let s4 := RemoveEmptyDesc hp d s3 in
          (* desc cannot be in any partial list, so it can be
             immediately reused *)
          DescRetire fuel d s4
      | Some h =>
          (* normal case *)
          match
            cas_update fuel (get_anchor d) (put_anchor d)
              (lr_free_push d superblock) (get_anchor d s) ptr s
          with
          | None => None
          | Some (_, oldAnchor, newAnchor, s1) =>
              (* CAS success, can free block *)
              if decide (state newAnchor = SB_EMPTY)
              then
                (* unregister descriptor *)
                let s2 := UnregisterDesc hp superblock s1 in
                (* free superblock *)
                let s3 :=
                  PageFree superblock
                    (sc_sbSize (SizeClasses cfg (sizeclass (heap_at s2 h)))) s2 in
                Some (RemoveEmptyDesc hp d s3)
              else if decide (state oldAnchor = SB_FULL)
              then HeapPushPartial fuel d s1
              else Some s1
          end
      end.

Definition lr_calloc (fuel : nat) (n size : Z) (s : State)
  : option (Z * State) :=
  let allocSize := u64 (n * size) in
  (* overflow check *)
  if decide (n = 0 \/ allocSize / n <> size) then Some (0, s)
  else
    match lr_malloc fuel allocSize s with
    | None => None
    | Some (ptr, s1) =>
        (* calloc returns zero-filled memory *)
        if decide (ptr <> 0) then Some (ptr, memset0 ptr allocSize s1)
        else Some (ptr, s1)
    end.

Definition lr_realloc (fuel : nat) (ptr size : Z) (s : State)
  : option (Z * State) :=
  match lr_malloc fuel size s with
  | None => None
  | Some (newPtr, s1) =>
      let copied :=
        if decide (ptr <> 0 /\ newPtr <> 0)
        then
          let d := GetDescriptorForPtr ptr s1 in
          if decide (d = 0) then None
          else
            let blockSize := blockSize (desc_at s1 d) in
            (* prevent invalid memory access if size < blockSize *)
            let blockSize := Z.min size blockSize in
            Some (memcpy newPtr ptr blockSize s1)
        else Some s1 in
      match copied with
      | None => None
      | Some s2 =>
          match lr_free fuel ptr s2 with
          | Some s3 => Some (newPtr, s3)
          | None => None
          end
      end
  end.

Definition lr_malloc_usable_size (ptr : Z) (s : State) : option Z :=
  if decide (ptr = 0) then Some 0
  else
    let d := GetDescriptorForPtr ptr s in
    if decide (d = 0) then None else Some (blockSize (desc_at s d)).

(** [lr_posix_memalign]: the result is the returned error code and the
    value of [*memptr] after the call. *)
Definition lr_posix_memalign (fuel : nat) (memptr alignment size : Z)
           (s : State) : option (Z * Z * State) :=
  let size := u64 (Z.max alignment size * 2) in
  match lr_malloc fuel size s with
  | None => None
  | Some (ptr, s1) =>
      if decide (ptr = 0) then Some (ENOMEM, memptr, s1)
      else
        let d := GetDescriptorForPtr ptr s1 in
        if decide (d = 0) then None
        else
          let ptr := ALIGN_ADDR cfg ptr alignment in
          (* need to update page so that descriptors can be found
             for large allocations aligned to the middle of superblocks *)
          let s2 :=
            match heap (desc_at s1 d) with
            | None => UpdatePageMap None ptr d s1
            | Some _ => s1
            end in
          Some (0, ptr, s2)
  end.

Definition lr_aligned_alloc (fuel : nat) (alignment size : Z) (s : State)
  : option (Z * State) :=
  match lr_posix_memalign fuel 0 alignment size s with
  | None => None
  | Some (ret, ptr, s1) =>
      if decide (ret <> 0) then Some (0, s1) else Some (ptr, s1)
  end.

Definition lr_valloc (fuel : nat) (size : Z) (s : State)
  : option (Z * State) :=
  lr_aligned_alloc fuel (PAGE cfg) size s.

Definition lr_memalign (fuel : nat) (alignment size : Z) (s : State)
  : option (Z * State) :=
  lr_aligned_alloc fuel alignment size s.

Definition lr_pvalloc (fuel : nat) (size : Z) (s : State)
  : option (Z * State) :=
  let size := ALIGN_ADDR cfg size (PAGE cfg) in
  lr_aligned_alloc fuel (PAGE cfg) size s.

End Allocator.

(** ** A small configuration to run the allocator on

    Pages of 4096 bytes, three size classes (16-byte blocks in a
    one-page superblock, 1024-byte blocks in a one-page superblock,
    2048-byte blocks in a two-page superblock); larger requests take the
    large path. *)

Definition test_SizeClasses (idx : Z) : SizeClassData :=
  if decide (idx = 1) then mkSizeClass 16 4096 256
  else if decide (idx = 2) then mkSizeClass 1024 4096 4
  else if decide (idx = 3) then mkSizeClass 2048 8192 4
  else mkSizeClass 0 0 0.

Definition test_GetSizeClass (size : Z) : Z :=
  if decide (size <= 16) then 1
  else if decide (size <= 1024) then 2
  else if decide (size <= 2048) then 3
  else 0.

Definition test_cfg : Config :=
  mkConfig 4096 64 128 4 test_SizeClasses test_GetSizeClass
    (fun n => (n + 4095) / 4096 * 4096)
    (fun a al => Z.land (a + al - 1) (Z.lnot (al - 1))).

(** The process before the first call: zeroed globals, nothing mapped,
    and a page provider that will hand out the addresses of [oracle]. *)
Definition init_state (oracle : list Z) : State :=
  mkState nullNode false ∅ ∅ ∅ ∅ oracle [].

(** Sequencing of calls for the runs below. *)
Definition then_malloc (cfg : Config) (size : Z) (r : option (list Z * State))
  : option (list Z * State) :=
  match r with
  | None => None
  | Some (ps, s) =>
      match lr_malloc cfg 1024 size s with
      | None => None
      | Some (p, s') => Some (ps ++ [p], s')
      end
  end.

Definition then_free (cfg : Config) (ptr : Z) (r : option (list Z * State))
  : option (list Z * State) :=
  match r with
  | None => None
  | Some (ps, s) =>
      match lr_free cfg 1024 ptr s with
      | None => None
      | Some s' => Some (ps, s')
      end
  end.

Definition state_of {A : Type} (r : option (A * State)) : State :=
  match r with
  | Some (_, s) => s
  | None => init_state []
  end.

(** A power of two, as [posix_memalign] requires of its alignment. *)
Definition is_pow2 (a : Z) : Prop := exists k : Z, 0 <= k /\ a = 2 ^ k.


(** ** Runs of the allocator on [test_cfg] *)

Definition test_oracle : list Z := [1048576; 2097152; 3145728; 4194304].

(** Exhaust and drain: four blocks of the 2048-byte class fill one
    superblock; three of them are freed again.  The descriptor is
    1048576, the block still allocated is 2103296. *)
Definition drain_run : option (list Z * State) :=
  then_free test_cfg 2097152
    (then_free test_cfg 2099200
       (then_free test_cfg 2101248
          (then_malloc test_cfg 2000
             (then_malloc test_cfg 2000
                (then_malloc test_cfg 2000
                   (then_malloc test_cfg 2000
                      (Some ([], init_state test_oracle)))))))).

Definition drain_state : State := state_of drain_run.

(** A late [UpdateActive].  Thread A and thread B allocate from the
    1024-byte class.  Three blocks are allocated and two of them freed, so
    that the active word has no credit left while the anchor counts two
    free blocks.  Thread A enters [MallocFromActive], takes the last
    credit (the active word becomes null) and two new credits out of the
    anchor, and is preempted before [UpdateActive].  Thread B runs a
    whole [malloc]: it finds no active superblock and installs a new one,
    descriptor 1048704.  [late_state] is the state in which thread A then
    calls [UpdateActive(heap, 1048576, 2)]. *)
Definition late_setup : State :=
  state_of
    (then_free test_cfg 2098176
       (then_free test_cfg 2097152
          (then_malloc test_cfg 1000
             (then_malloc test_cfg 1000
                (then_malloc test_cfg 1000
                   (Some ([], init_state test_oracle))))))).

Definition late_thread_A : option (Z * Z * Z * State) :=
  MallocFromActive_take 8 2 late_setup.

Definition late_thread_B : option (Z * State) :=
  match late_thread_A with
  | Some (_, _, _, s) => lr_malloc test_cfg 8 1000 s
  | None => None
  end.

Definition late_state : State := state_of late_thread_B.

(** A block of the 1024-byte class to reallocate; the pointer is
    2097152. *)
Definition realloc_setup : State :=
  state_of (then_malloc test_cfg 24 (Some ([], init_state test_oracle))).

Definition realloc_after_malloc : State :=
  state_of (lr_malloc test_cfg 1024 240 realloc_setup).

(** The same block when the page provider has nothing left: a large
    request gets a descriptor from the pool and a null region. *)
Definition starved_setup : State :=
  state_of (then_malloc test_cfg 24 (Some ([], init_state [1048576; 2097152]))).

Definition starved_after_malloc : State :=
  state_of (lr_malloc test_cfg 1024 5000 starved_setup).

(** [posix_memalign(&p, 3, 8)] in a fresh process. *)
Definition memalign3_state : State :=
  state_of (lr_posix_memalign test_cfg 1024 0 3 8 (init_state test_oracle)).

(** Two threads race in [MallocFromNewSB] on the 1024-byte class.
    Thread A builds a superblock (descriptor 1048576, region 2097152),
    loads a null active word and is preempted; thread B runs a whole
    [malloc] and installs its own superblock (descriptor 1048704).
    [race_state] is the state in which thread A attempts its exchange. *)
Definition race_thread_A : option (Z * Z * State) :=
  MallocFromNewSB_build test_cfg 1024 2
    (snd (GetProcHeap test_cfg 1000 (init_state test_oracle))).

Definition race_loaded : Z := get_active 2 (state_of race_thread_A).

Definition race_state : State :=
  state_of (lr_malloc test_cfg 8 1000 (state_of race_thread_A)).

(** A fresh process after [InitMalloc], and after [DescAlloc] has
    filled the descriptor pool. *)
Definition fresh_heap_state : State :=
  snd (GetProcHeap test_cfg 1000 (init_state test_oracle)).

Definition fresh_pool_state : State :=
  state_of (DescAlloc test_cfg 1024 fresh_heap_state).

(** The final state of a call that returns no value. *)
Definition final_of (r : option State) : State := default (init_state []) r.

(** The last block of [drain_state] is freed. *)
Definition drained_state : State :=
  final_of (lr_free test_cfg 8 2103296 drain_state).

(** A block of the 1024-byte class is allocated and freed again; the
    descriptor is 1048576. *)
Definition counted_alloc : State :=
  state_of (lr_malloc test_cfg 1024 24 (init_state test_oracle)).

Definition counted_state : State :=
  final_of (lr_free test_cfg 1024 2097152 counted_alloc).

(** Four blocks of the 2048-byte class fill one superblock: descriptor
    1048576 is [SB_FULL] and the heap has no active superblock. *)
Definition full_state : State :=
  state_of
    (then_malloc test_cfg 2000
       (then_malloc test_cfg 2000
          (then_malloc test_cfg 2000
             (then_malloc test_cfg 2000
                (Some ([], init_state test_oracle)))))).

(** A request without size class in a fresh process: the state after
    [DescAlloc], the state after the whole [malloc] (descriptor 1048576,
    region 2097152), and the state after an aligned request whose pointer
    lies in another page of its region. *)
Definition large_pool_state : State :=
  state_of (DescAlloc test_cfg 1024
              (snd (GetProcHeap test_cfg 5000 (init_state test_oracle)))).

Definition large_state : State :=
  state_of (lr_malloc test_cfg 1024 5000 (init_state test_oracle)).

Definition aligned_inner_state : State :=
  state_of (lr_malloc test_cfg 1024 (u64 (Z.max 4194304 4096 * 2))
              (init_state test_oracle)).

(** Four blocks of the 2048-byte class, call by call, and the first of
    them freed: descriptor 1048576 becomes partial and is pushed on the
    partial list of heap 3. *)
Definition filling_1 : State :=
  state_of (lr_malloc test_cfg 1024 2000 (init_state test_oracle)).
Definition filling_2 : State :=
  state_of (lr_malloc test_cfg 1024 2000 filling_1).
Definition filling_3 : State :=
  state_of (lr_malloc test_cfg 1024 2000 filling_2).
Definition filling_4 : State :=
  state_of (lr_malloc test_cfg 1024 2000 filling_3).
Definition partial_list_state : State :=
  final_of (lr_free test_cfg 1024 2097152 filling_4).

(** The three other blocks are freed too: the superblock is given back
    while descriptor 1048576 is still on the partial list of heap 3. *)
Definition emptied_state : State :=
  final_of
    (lr_free test_cfg 1024 2103296
       (final_of
          (lr_free test_cfg 1024 2101248
             (final_of (lr_free test_cfg 1024 2099200 partial_list_state))))).

(** [DescAlloc] after a block was allocated and freed. *)
Definition recycled_state : State :=
  state_of (DescAlloc test_cfg 8 counted_state).

(** ** Notions used in the statements *)

(** Everything but the page map. *)
Definition same_but_pagemap (s s' : State) : Prop :=
  AvailDesc s' = AvailDesc s /\ MallocInit s' = MallocInit s /\
  Heaps s' = Heaps s /\ descs s' = descs s /\ mem s' = mem s /\
  pageOracle s' = pageOracle s /\ pageLog s' = pageLog s.

(** The body of the formatting loop of [MallocFromNewSB] when no
    address wraps: block [idx] of the superblock at [sb] receives the
    index [idx + 1]. *)
Definition format_block (sb bs : Z) (idx : Z) (s : State) : State :=
  store64 (sb + idx * bs) (idx + 1) s.

(** *** The invariant of sequential runs *)

(** A list of descriptors linked by [next] from [hd] to null. *)
Fixpoint chain (next : Z -> Z) (hd : Z) (l : list Z) : Prop :=
  match l with
  | [] => hd = 0
  | d :: l' => hd = d /\ d <> 0 /\ chain next (next d) l'
  end.

Definition nextF (s : State) (d : Z) : Z := desc (nextFree (desc_at s d)).
Definition nextP (s : State) (d : Z) : Z := desc (nextPartial (desc_at s d)).

(** The descriptor an active word points to. *)
Definition active_desc (s : State) (h : Z) : Z :=
  fst (GetActive (get_active h s)).

(** A descriptor address: non-null, below [2^64], with its six low bits
    clear. *)
Definition wf_ptr (d : Z) : Prop := 0 < d < 2 ^ 64 /\ d mod 64 = 0.

(** The keys the loop of [UpdatePageMap] writes. *)
Fixpoint loop_keys (cfg : Config) (n : nat) (idx bound ptr : Z) : list Z :=
  match n with
  | O => []
  | S n' =>
      if decide (idx < bound)
      then page_key cfg (ptr_add ptr idx)
             :: loop_keys cfg n' (idx + PAGE cfg) bound ptr
      else []
  end.

Definition map_keys (cfg : Config) (s : State) (hp : HeapPtr) (ptr : Z)
  : list Z :=
  match hp with
  | None => [page_key cfg ptr]
  | Some h =>
      let sbSize := sc_sbSize (SizeClasses cfg (sizeclass (heap_at s h))) in
      loop_keys cfg (Z.to_nat sbSize) 0 sbSize ptr
  end.

(** The page-map keys of the superblock of a descriptor. *)
Definition sb_keys (cfg : Config) (s : State) (d : Z) : list Z :=
  map_keys cfg s (heap (desc_at s d)) (superblock (desc_at s d)).

(** What the development asks of the constants, of the size-class table
    and of [ALIGN_ADDR]: pages and descriptors have a size, aligning to a
    cache line rounds up to a multiple of 64, and a small size class has
    its heap in [Heaps] and between 2 and [2^25] blocks. *)
Record cfg_ok (cfg : Config) : Prop := {
  ok_PAGE : 0 < PAGE cfg;
  ok_sizeof : 0 < sizeof_Descriptor cfg;
  ok_align : forall x, 0 <= x ->
      x <= ALIGN_ADDR cfg x (CACHELINE cfg) /\
      ALIGN_ADDR cfg x (CACHELINE cfg) mod 64 = 0;
  ok_classes : forall n, GetSizeClass cfg n <> 0 ->
      0 < GetSizeClass cfg n < MAX_SZ_IDX cfg /\
      2 <= sc_GetBlockNum (SizeClasses cfg (GetSizeClass cfg n)) <= 2 ^ 25
}.

(** What it asks of the page provider: regions at increasing addresses,
    64-byte aligned, at least a descriptor block apart. *)
Fixpoint oracle_ok (cfg : Config) (l : list Z) : Prop :=
  match l with
  | [] => True
  | p :: l' =>
      0 < p /\ p mod 64 = 0 /\ p + DESCRIPTOR_BLOCK_SZ cfg <= 2 ^ 64 /\
      (forall q, q ∈ l' -> p + DESCRIPTOR_BLOCK_SZ cfg <= q) /\
      oracle_ok cfg l'
  end.

(** The invariant after [InitMalloc], for a recycle list [pool] and
    partial lists [pl]: the lists are linked without repetition and
    disjoint; a descriptor on a partial list is partial or empty, and
    counts a free block when partial; the active descriptor of a heap is
    on no list and not full; a small-class descriptor counts at most
    [maxcount - 1] blocks; the page map holds no recycled descriptor and
    no empty one, and a small-class descriptor only at the pages of its
    superblock; the page provider has only addresses above every
    descriptor. *)
Record Inv_with (cfg : Config) (s : State) (pool : list Z)
       (pl : Z -> list Z) : Prop := {
  iw_pool : chain (nextF s) (desc (AvailDesc s)) pool /\ NoDup pool;
  iw_pool_wf : forall d, d ∈ pool -> wf_ptr d /\ is_Some (descs s !! d);
  iw_lists : forall h,
      chain (nextP s) (desc (get_partialList h s)) (pl h) /\ NoDup (pl h);
  iw_member : forall h d, d ∈ pl h ->
      wf_ptr d /\ is_Some (descs s !! d) /\ (d ∉ pool) /\
      heap (desc_at s d) = Some h /\
      (state (get_anchor d s) = SB_PARTIAL \/
       state (get_anchor d s) = SB_EMPTY) /\
      (state (get_anchor d s) = SB_PARTIAL -> 1 <= count (get_anchor d s));
  iw_active : forall h, get_active h s <> 0 ->
      active_desc s h <> 0 /\ is_Some (descs s !! active_desc s h) /\
      (active_desc s h ∉ pool) /\ (active_desc s h ∉ pl h) /\
      heap (desc_at s (active_desc s h)) = Some h /\
      state (get_anchor (active_desc s h) s) <> SB_FULL;
  iw_count : forall d, heap (desc_at s d) <> None ->
      0 <= count (get_anchor d s) <= maxcount (desc_at s d) - 1 /\
      maxcount (desc_at s d) <= 2 ^ 25;
  iw_pagemap : forall k d, sPageMap s !! k = Some d -> d <> 0 ->
      wf_ptr d /\ is_Some (descs s !! d) /\ (d ∉ pool) /\
      (heap (desc_at s d) <> None ->
       state (get_anchor d s) <> SB_EMPTY /\ k ∈ sb_keys cfg s d);
  iw_fresh : forall d p, is_Some (descs s !! d) -> p ∈ pageOracle s -> d < p;
  iw_oracle : oracle_ok cfg (pageOracle s);
  iw_sizeclass : forall i, 0 <= i < MAX_SZ_IDX cfg -> sizeclass (heap_at s i) = i
}.

(** Before the first call nothing is allocated. *)
Definition pristine (cfg : Config) (s : State) : Prop :=
  Heaps s = ∅ /\ descs s = ∅ /\ sPageMap s = ∅ /\ AvailDesc s = nullNode /\
  oracle_ok cfg (pageOracle s).

Definition Inv (cfg : Config) (s : State) : Prop :=
  if MallocInit s then exists pool pl, Inv_with cfg s pool pl
  else pristine cfg s.

(** The descriptors the inner loop of [DescAlloc] links, in order. *)
Fixpoint carve_list (cfg : Config) (fuel : nat) (ptr currPtr : Z) : list Z :=
  match fuel with
  | O => []
  | S fuel' =>
      if decide (currPtr + sizeof_Descriptor cfg < ptr + DESCRIPTOR_BLOCK_SZ cfg)
      then currPtr
             :: carve_list cfg fuel' ptr
                  (ALIGN_ADDR cfg (currPtr + sizeof_Descriptor cfg)
                     (CACHELINE cfg))
      else []
  end.

(** A descriptor that is on no list, active for no heap and absent from
    the page map. *)
Definition private (s : State) (pool : list Z) (pl : Z -> list Z) (d : Z)
  : Prop :=
  (d ∉ pool) /\ (forall h, d ∉ pl h) /\
  (forall h, get_active h s <> 0 -> active_desc s h <> d) /\
  (forall k, sPageMap s !! k <> Some d).

(** [free(p)] of a large allocation is given the pointer the allocator
    returned for it: no page other than the first page of the region and
    the page of [p] maps to its descriptor. *)
Definition free_ok (cfg : Config) (s : State) (p : Z) : Prop :=
  let d := GetDescriptorForPtr cfg p s in
  heap (desc_at s d) = None ->
  forall k, sPageMap s !! k = Some d ->
            k = page_key cfg (superblock (desc_at s d)) \/ k = page_key cfg p.

(** The states one thread reaches from [s0] by calls of the public
    interface, interleaved with its own writes to memory. *)
Inductive reachable (cfg : Config) (s0 : State) : State -> Prop :=
  | reach_start : reachable cfg s0 s0
  | reach_write s m :
      reachable cfg s0 s -> reachable cfg s0 (set_mem m s)
  | reach_malloc s fuel n p s' :
      reachable cfg s0 s ->
      lr_malloc cfg fuel n s = Some (p, s') -> reachable cfg s0 s'
  | reach_free s fuel p s' :
      reachable cfg s0 s -> free_ok cfg s p ->
      lr_free cfg fuel p s = Some s' -> reachable cfg s0 s'
  | reach_calloc s fuel n sz p s' :
      reachable cfg s0 s ->
      lr_calloc cfg fuel n sz s = Some (p, s') -> reachable cfg s0 s'
  | reach_realloc s fuel p n q s' :
      reachable cfg s0 s ->
      (forall r s1, lr_malloc cfg fuel n s = Some (r, s1) -> free_ok cfg s1 p) ->
      lr_realloc cfg fuel p n s = Some (q, s') -> reachable cfg s0 s'
  | reach_posix_memalign s fuel m a n r p s' :
      reachable cfg s0 s ->
      lr_posix_memalign cfg fuel m a n s = Some (r, p, s') ->
      reachable cfg s0 s'
  | reach_aligned_alloc s fuel a n p s' :
      reachable cfg s0 s ->
      lr_aligned_alloc cfg fuel a n s = Some (p, s') -> reachable cfg s0 s'
  | reach_valloc s fuel n p s' :
      reachable cfg s0 s ->
      lr_valloc cfg fuel n s = Some (p, s') -> reachable cfg s0 s'
  | reach_memalign s fuel a n p s' :
      reachable cfg s0 s ->
      lr_memalign cfg fuel a n s = Some (p, s') -> reachable cfg s0 s'
  | reach_pvalloc s fuel n p s' :
      reachable cfg s0 s ->
      lr_pvalloc cfg fuel n s = Some (p, s') -> reachable cfg s0 s'.
(** * Properties *)

(** ** Retry loops without interference *)

Section Loops.

Context {L V R : Type} `{EqDecision V}.
Variables (get : State -> V) (put : V -> State -> State).

Lemma cas_update_once (body : V -> L -> State -> L * V * State)
      fuel old l s l1 new s1 :
  body old l s = (l1, new, s1) ->
  get s1 = old ->
  cas_update (S fuel) get put body old l s = Some (l1, old, new, put new s1).
Proof.
  intros Hb Hg. simpl. rewrite Hb. rewrite decide_True by exact Hg. reflexivity.
Qed.

Lemma cas_loop_next (body : V -> L -> State -> LoopStep L V R * State)
      fuel old l s l1 new s1 :
  body old l s = (Next l1 new, s1) ->
  get s1 = old ->
  cas_loop (S fuel) get put body old l s = Some (inl (l1, old, new), put new s1).
Proof.
  intros Hb Hg. simpl. rewrite Hb. rewrite decide_True by exact Hg. reflexivity.
Qed.

Lemma cas_loop_exit (body : V -> L -> State -> LoopStep L V R * State)
      fuel old l s r s1 :
  body old l s = (Exit r, s1) ->
  cas_loop (S fuel) get put body old l s = Some (inr r, s1).
Proof. intros Hb. simpl. rewrite Hb. reflexivity. Qed.

End Loops.

(** ** Reading back what was written *)

Lemma desc_at_upd_desc_eq d f s : desc_at (upd_desc d f s) d = f (desc_at s d).
Proof. unfold desc_at, upd_desc. simpl. rewrite lookup_insert_eq. reflexivity. Qed.

Lemma desc_at_upd_desc_ne d d' f s :
  d <> d' -> desc_at (upd_desc d f s) d' = desc_at s d'.
Proof.
  intros Hne. unfold desc_at, upd_desc. simpl.
  rewrite lookup_insert_ne by exact Hne. reflexivity.
Qed.

Lemma heap_at_upd_heap_eq h f s : heap_at (upd_heap h f s) h = f (heap_at s h).
Proof. unfold heap_at, upd_heap. simpl. rewrite lookup_insert_eq. reflexivity. Qed.

Lemma heap_at_upd_heap_ne h h' f s :
  h <> h' -> heap_at (upd_heap h f s) h' = heap_at s h'.
Proof.
  intros Hne. unfold heap_at, upd_heap. simpl.
  rewrite lookup_insert_ne by exact Hne. reflexivity.
Qed.

Lemma get_anchor_put_anchor d a s : get_anchor d (put_anchor d a s) = a.
Proof. unfold get_anchor, put_anchor. rewrite desc_at_upd_desc_eq. reflexivity. Qed.

Lemma get_active_put_active h a s : get_active h (put_active h a s) = a.
Proof. unfold get_active, put_active. rewrite heap_at_upd_heap_eq. reflexivity. Qed.

Lemma lr_free_null cfg fuel s : lr_free cfg fuel 0 s = Some s.
Proof. unfold lr_free. rewrite decide_True by reflexivity. reflexivity. Qed.

(** ** The thin wrappers: [calloc], [posix_memalign], [realloc] *)

Section Wrappers.

Variable cfg : Config.

(** C9: [calloc(0, sz)] returns null for every [sz], and leaves the
    state as it was: a zero element count takes the same early return as
    a product that overflows. *)
Theorem lr_calloc_zero_count (fuel : nat) (sz : Z) (s : State) :
  lr_calloc cfg fuel 0 sz s = Some (0, s).
Proof.
  unfold lr_calloc. rewrite decide_True by (left; reflexivity). reflexivity.
Qed.

(** The overflow case of [calloc], for comparison with
    [lr_calloc_zero_count]. *)
Lemma lr_calloc_overflow (fuel : nat) (n sz : Z) (s : State) :
  u64 (n * sz) / n <> sz -> lr_calloc cfg fuel n sz s = Some (0, s).
Proof.
  intros Hov. unfold lr_calloc. rewrite decide_True by (right; exact Hov).
  reflexivity.
Qed.



(** What [memcpy] leaves in memory: the [k] bytes from [dst] on are the
    old bytes from [src] on, every other byte is untouched. *)
Lemma memcpy_bytes (dst src k : Z) (s : State) (a : Z) :
  byte_at (memcpy dst src k s) a =
    if decide (dst <= a < dst + k) then byte_at s (src + (a - dst))
    else byte_at s a.
Proof.
  unfold memcpy, byte_at at 1. simpl.
  destruct (decide (k <= 0)) as [Hk|Hk].
  { rewrite decide_False by lia.
    replace (seqZ 0 k) with (@nil Z); [reflexivity|].
    symmetry. apply seqZ_nil. lia. }
  assert (Hgen : forall (len : nat) (from : Z),
    default 0 (foldr (fun i m => <[dst + i := byte_at s (src + i)]> m)
                     (mem s) (seqZ from (Z.of_nat len)) !! a) =
    if decide (dst + from <= a < dst + from + Z.of_nat len)
    then byte_at s (src + (a - dst)) else byte_at s a).
  { induction len as [|len IH]; intros from.
    - simpl. rewrite decide_False by lia. reflexivity.
    - rewrite Nat2Z.inj_succ, seqZ_cons by lia. simpl.
      replace (Z.pred (Z.succ (Z.of_nat len))) with (Z.of_nat len) by lia.
      destruct (decide (dst + from = a)) as [<-|Hne].
      + rewrite lookup_insert_eq. simpl. rewrite decide_True by lia.
        f_equal. lia.
      + rewrite lookup_insert_ne by exact Hne. rewrite IH.
        destruct (decide (dst + Z.succ from <= a < dst + Z.succ from + Z.of_nat len));
          [rewrite decide_True by lia | rewrite decide_False by lia]; reflexivity. }
  specialize (Hgen (Z.to_nat k) 0). rewrite Z2Nat.id in Hgen by lia.
  rewrite Hgen. replace (dst + 0) with dst by lia. reflexivity.
Qed.

Lemma lr_realloc_null (fuel : nat) (n : Z) (s : State) :
  lr_realloc cfg fuel 0 n s = lr_malloc cfg fuel n s.
Proof.
  unfold lr_realloc.
  destruct (lr_malloc cfg fuel n s) as [[newPtr s1]|]; [|reflexivity].
  rewrite decide_False by (intros [H0 _]; apply H0; reflexivity).
  rewrite lr_free_null. reflexivity.
Qed.


End Wrappers.

(** ** The active word *)

Lemma get_anchor_put_active d h a s :
  get_anchor d (put_active h a s) = get_anchor d s.
Proof. reflexivity. Qed.

Lemma get_active_put_anchor d h a s :
  get_active h (put_anchor d a s) = get_active h s.
Proof. reflexivity. Qed.

Lemma desc_at_put_active d h a s : desc_at (put_active h a s) d = desc_at s d.
Proof. reflexivity. Qed.

Lemma load64_put_active p h a s : load64 p (put_active h a s) = load64 p s.
Proof. reflexivity. Qed.

Lemma u64_small x : 0 <= x < 2 ^ 64 -> u64 x = x.
Proof. intros Hx. unfold u64. apply Z.mod_small. exact Hx. Qed.

Lemma bits25_small x : 0 <= x < 2 ^ 25 -> bits25 x = x.
Proof. intros Hx. unfold bits25. apply Z.mod_small. exact Hx. Qed.

Lemma get_active_put_partialList h hd n s :
  get_active h (put_partialList hd n s) = get_active h s.
Proof.
  unfold get_active, put_partialList.
  destruct (decide (hd = h)) as [->|Hne].
  - rewrite heap_at_upd_heap_eq. reflexivity.
  - rewrite heap_at_upd_heap_ne by exact Hne. reflexivity.
Qed.

(** The strong exchange of [UpdateActive] succeeds whenever the active
    word still has the value that was loaded, whatever that value is. *)
Lemma UpdateActive_exchange_installs fuel h d credits oldActive s :
  get_active h s = oldActive ->
  UpdateActive_exchange fuel h d credits oldActive s =
    Some (put_active h (MakeActive d (u64 (credits - 1))) s).
Proof.
  intros Hl. unfold UpdateActive_exchange.
  rewrite decide_True by exact Hl. reflexivity.
Qed.

(** Without a write between the load and the exchange, [UpdateActive]
    always installs, also over a non-null active word. *)
Lemma UpdateActive_installs fuel h d credits s :
  UpdateActive fuel h d credits s =
    Some (put_active h (MakeActive d (u64 (credits - 1))) s).
Proof. unfold UpdateActive. apply UpdateActive_exchange_installs. reflexivity. Qed.

(** When the exchange fails, the credits go back to the anchor, the
    superblock becomes partial and is pushed on its heap's list. *)
Lemma UpdateActive_exchange_gives_back fuel h d credits oldActive s hd :
  get_active h s <> oldActive ->
  heap (desc_at s d) = Some hd ->
  exists s',
    UpdateActive_exchange (S fuel) h d credits oldActive s = Some s' /\
    get_active h s' = get_active h s /\
    get_anchor d s' =
      with_state SB_PARTIAL
        (with_count (count (get_anchor d s) + credits) (get_anchor d s)) /\
    get_partialList hd s' =
      mkNode d (u64 (counter (get_partialList hd s) + 1)) /\
    nextPartial (desc_at s' d) = get_partialList hd s.
Proof.
  intros Hne Hh. unfold UpdateActive_exchange.
  rewrite decide_False by exact Hne.
  erewrite cas_update_once; [|reflexivity|reflexivity].
  set (a' := with_state SB_PARTIAL _).
  unfold HeapPushPartial, ListPushPartial.
  assert (Hh' : heap (desc_at (put_anchor d a' s) d) = Some hd).
  { unfold put_anchor. rewrite desc_at_upd_desc_eq. exact Hh. }
  rewrite Hh'.
  erewrite cas_update_once; [|reflexivity|reflexivity].
  eexists. split; [reflexivity|].
  repeat split.
  - rewrite get_active_put_partialList. reflexivity.
  - unfold get_anchor, put_partialList. simpl.
    change (desc_at (upd_heap hd ?f ?s0) d) with (desc_at s0 d).
    rewrite desc_at_upd_desc_eq. simpl.
    unfold put_anchor. rewrite desc_at_upd_desc_eq. reflexivity.
  - unfold get_partialList, put_partialList.
    rewrite heap_at_upd_heap_eq. reflexivity.
  - unfold put_partialList.
    change (desc_at (upd_heap hd ?f ?s0) d) with (desc_at s0 d).
    simpl. rewrite desc_at_upd_desc_eq. reflexivity.
Qed.

(** C2: in [late_state] another thread has installed descriptor
    1048704 as the active superblock of heap 2.  [UpdateActive] loads that
    word, its exchange succeeds against it, and descriptor 1048576 is
    installed over it: the credits are not given back, descriptor 1048576
    is not made partial and is not pushed, and descriptor 1048704 is no
    longer reachable from the heap. *)
Theorem UpdateActive_overwrites_installed_active :
  get_active 2 late_state = MakeActive 1048704 2 /\
  get_active 2 late_state <> 0 /\
  exists s',
    UpdateActive 8 2 1048576 2 late_state = Some s' /\
    get_active 2 s' = MakeActive 1048576 1 /\
    get_anchor 1048576 s' = get_anchor 1048576 late_state /\
    state (get_anchor 1048576 s') = SB_ACTIVE /\
    get_partialList 2 s' = nullNode.
Proof.
  split; [vm_compute; reflexivity|].
  split; [vm_compute; discriminate|].
  rewrite UpdateActive_installs. eexists. split; [reflexivity|].
  split; [|split; [|split]]; vm_compute; reflexivity.
Qed.

(** ** [MallocFromActive] on the last credit *)

Section LastCredit.

Variables (h : Z) (s : State) (act d : Z).

Hypothesis Hactive : get_active h s = act.
Hypothesis Hnonnull : act <> 0.
Hypothesis Hlast : GetActive act = (d, 0).

Let a : Anchor := get_anchor d s.
Let ptr : Z :=
  ptr_add (superblock (desc_at s d)) (u64 (avail a * blockSize (desc_at s d))).
Let next : Z := load64 ptr s.

Lemma MallocFromActive_take_last_credit fuel :
  MallocFromActive_take (S fuel) h s =
    Some (ptr, d,
          (if decide (count a = 0) then 0 else Z.min (count a) CREDITS_MAX),
          put_anchor d
            (if decide (count a = 0)
             then with_state SB_FULL
                    (with_tag (tag a + 1) (with_avail next a))
             else with_count (count a - Z.min (count a) CREDITS_MAX)
                    (with_tag (tag a + 1) (with_avail next a)))
            (put_active h 0 s)).
Proof.
  unfold MallocFromActive_take. rewrite Hactive.
  erewrite cas_loop_next with (l1 := 0) (new := 0) (s1 := s).
  2:{ rewrite decide_False by exact Hnonnull.
      rewrite Hlast. rewrite decide_False by lia. reflexivity. }
  2:{ exact Hactive. }
  assert (Hd : Z.land act (u64 (Z.lnot CREDITS_MASK)) = d).
  { unfold GetActive in Hlast. congruence. }
  rewrite Hd.
  set (s1 := put_active h 0 s).
  assert (Hpop : MallocFromActive_pop d 0 (get_anchor d s1) (0, 0) s1 =
    (ptr, (if decide (count a = 0) then 0 else Z.min (count a) CREDITS_MAX),
     (if decide (count a = 0)
      then with_state SB_FULL (with_tag (tag a + 1) (with_avail next a))
      else with_count (count a - Z.min (count a) CREDITS_MAX)
             (with_tag (tag a + 1) (with_avail next a))),
     s1)).
  { unfold MallocFromActive_pop. rewrite decide_True by reflexivity.
    subst s1.
    rewrite get_anchor_put_active, desc_at_put_active, load64_put_active.
    fold a. fold ptr. fold next.
    destruct (decide (count a = 0)); reflexivity. }
  rewrite (cas_update_once (get_anchor d) (put_anchor d) _ fuel _ _ _ _ _ _
             Hpop eq_refl).
  reflexivity.
Qed.

(** C4: [MallocFromActive] finds the active word of the heap with no
    credit left ([oldCredits == 0]).  It returns the block at
    [superblock + avail * blockSize] and moves [avail] to the word stored
    in the first 8 bytes of that block (as a 25-bit field).  If the
    anchor's [count] is 0 the state becomes [SB_FULL] and the active word
    stays null; otherwise [credits = min(count, CREDITS_MAX)] are taken
    out of [count] and [UpdateActive] installs the descriptor again with
    [credits - 1] in the active word. *)
Theorem MallocFromActive_last_credit (fuel : nat) :
  0 <= count a < 2 ^ 25 ->
  let credits := Z.min (count a) CREDITS_MAX in
  exists s',
    MallocFromActive (S fuel) h s = Some (ptr, s') /\
    avail (get_anchor d s') = bits25 next /\
    (0 <= next < 2 ^ 25 -> avail (get_anchor d s') = next) /\
    (count a = 0 ->
       state (get_anchor d s') = SB_FULL /\
       count (get_anchor d s') = 0 /\
       get_active h s' = 0) /\
    (count a <> 0 ->
       state (get_anchor d s') = state a /\
       count (get_anchor d s') = count a - credits /\
       get_active h s' = MakeActive d (credits - 1)).
Proof.
  intros Hwf credits. unfold MallocFromActive.
  rewrite MallocFromActive_take_last_credit.
  assert (Hc : 0 <= credits <= 64).
  { unfold credits. change CREDITS_MAX with 64. lia. }
  destruct (decide (count a = 0)) as [Hz|Hnz].
  - rewrite decide_False by lia. eexists. split; [reflexivity|].
    rewrite get_anchor_put_anchor. simpl. repeat split.
    + intros Hn. apply bits25_small. exact Hn.
    + exact Hz.
    + rewrite get_active_put_anchor. apply get_active_put_active.
    + contradiction.
    + contradiction.
    + contradiction.
  - fold credits. rewrite decide_True by (unfold credits; change CREDITS_MAX with 64; lia).
    rewrite UpdateActive_installs. eexists. split; [reflexivity|].
    rewrite get_anchor_put_active, get_anchor_put_anchor. simpl.
    repeat split; try contradiction.
    + intros Hn. apply bits25_small. exact Hn.
    + apply bits25_small. unfold credits in *. change CREDITS_MAX with 64 in *. lia.
    + rewrite get_active_put_active. f_equal. apply u64_small.
      unfold credits in *. change CREDITS_MAX with 64 in *. lia.
Qed.

End LastCredit.

(** ** Page map and descriptor pool *)

Lemma for_loop_ind (P : State -> Prop) (body : Z -> State -> State)
      (n : nat) (idx bound step : Z) (s : State) :
  P s ->
  (forall i s0, P s0 -> P (body i s0)) ->
  P (for_loop n idx bound step body s).
Proof.
  intros Hs Hbody. revert idx s Hs.
  induction n as [|n IH]; intros idx s Hs; simpl; [exact Hs|].
  destruct (decide (idx < bound)); [|exact Hs].
  apply IH. apply Hbody. exact Hs.
Qed.

Lemma same_but_pagemap_refl s : same_but_pagemap s s.
Proof. repeat split. Qed.

Section PageMap.

Variable cfg : Config.

Lemma UpdatePageMap_frame hp ptr v s :
  same_but_pagemap s (UpdatePageMap cfg hp ptr v s).
Proof.
  destruct hp as [h|]; simpl; [|repeat split].
  apply for_loop_ind; [apply same_but_pagemap_refl|].
  intros i s0 H. exact H.
Qed.

Lemma desc_at_UpdatePageMap hp ptr v s d :
  desc_at (UpdatePageMap cfg hp ptr v s) d = desc_at s d.
Proof.
  unfold desc_at.
  destruct (UpdatePageMap_frame hp ptr v s) as (_ & _ & _ & -> & _).
  reflexivity.
Qed.

Lemma heap_at_UpdatePageMap hp ptr v s h :
  heap_at (UpdatePageMap cfg hp ptr v s) h = heap_at s h.
Proof.
  unfold heap_at.
  destruct (UpdatePageMap_frame hp ptr v s) as (_ & _ & -> & _).
  reflexivity.
Qed.

Lemma GetPageInfo_SetPageInfo_eq p v s :
  GetPageInfo cfg p (SetPageInfo cfg p v s) = v.
Proof. unfold GetPageInfo, SetPageInfo. simpl. rewrite lookup_insert_eq. reflexivity. Qed.

Lemma GetPageInfo_SetPageInfo_same p q v s :
  GetPageInfo cfg q s = v -> GetPageInfo cfg q (SetPageInfo cfg p v s) = v.
Proof.
  intros Hq. unfold GetPageInfo, SetPageInfo in *. simpl.
  destruct (decide (page_key cfg p = page_key cfg q)) as [->|Hne].
  - rewrite lookup_insert_eq. reflexivity.
  - rewrite lookup_insert_ne by exact Hne. exact Hq.
Qed.

(** The loop of [UpdatePageMap] writes [v] for every page start
    [ptr + k * PAGE] below [ptr + sbSize]. *)
Lemma UpdatePageMap_loop_sets ptr v sbSize :
  0 < PAGE cfg ->
  forall (n : nat) (idx : Z) (s : State) (j : Z),
    0 <= j -> idx + j * PAGE cfg < sbSize -> j < Z.of_nat n ->
    GetPageInfo cfg (ptr_add ptr (idx + j * PAGE cfg))
      (for_loop n idx sbSize (PAGE cfg)
         (fun i => SetPageInfo cfg (ptr_add ptr i) v) s) = v.
Proof.
  intros Hpage. induction n as [|n IH]; intros idx s j Hj Hlt Hn; [lia|].
  simpl. rewrite decide_True by nia.
  destruct (decide (j = 0)) as [->|Hj0].
  - replace (idx + 0 * PAGE cfg) with idx by lia.
    apply for_loop_ind; [apply GetPageInfo_SetPageInfo_eq|].
    intros i s0 H. apply GetPageInfo_SetPageInfo_same. exact H.
  - replace (idx + j * PAGE cfg) with (idx + PAGE cfg + (j - 1) * PAGE cfg) by lia.
    apply IH; lia.
Qed.

Lemma UpdatePageMap_small_sets h ptr v s k :
  0 < PAGE cfg ->
  0 <= k ->
  k * PAGE cfg < sc_sbSize (SizeClasses cfg (sizeclass (heap_at s h))) ->
  GetPageInfo cfg (ptr_add ptr (k * PAGE cfg))
    (UpdatePageMap cfg (Some h) ptr v s) = v.
Proof.
  intros Hpage Hk Hlt. unfold UpdatePageMap.
  set (sbSize := sc_sbSize _) in *.
  replace (k * PAGE cfg) with (0 + k * PAGE cfg) by lia.
  apply UpdatePageMap_loop_sets; try lia.
  rewrite Z2Nat.id by nia. nia.
Qed.

End PageMap.

(** [DescRetire] pushes the descriptor on the recycle list. *)
Lemma DescRetire_pushes fuel d s :
  DescRetire (S fuel) d s =
    Some (set_AvailDesc (mkNode d (u64 (counter (AvailDesc s) + 1)))
            (upd_desc d (with_nextFree (AvailDesc s)) s)).
Proof.
  unfold DescRetire.
  erewrite cas_update_once; [reflexivity|reflexivity|reflexivity].
Qed.

(** ** Giving a superblock back *)

Section GiveBack.

Variable cfg : Config.

Lemma GetPageInfo_PageFree p q n s :
  GetPageInfo cfg p (PageFree q n s) = GetPageInfo cfg p s.
Proof. reflexivity. Qed.

Lemma pageLog_PageFree q n s :
  pageLog (PageFree q n s) = pageLog s ++ [EvPageFree q n].
Proof. reflexivity. Qed.

Lemma Heaps_PageFree q n s : Heaps (PageFree q n s) = Heaps s.
Proof. reflexivity. Qed.

Lemma AvailDesc_PageFree q n s : AvailDesc (PageFree q n s) = AvailDesc s.
Proof. reflexivity. Qed.

(** C1 (as the code has it): [free] of a small-class pointer whose
    descriptor counts [maxcount - 1] free blocks makes the anchor
    [SB_EMPTY], clears the page-map entry of every page of the
    superblock and returns the superblock to the page provider.
    [RemoveEmptyDesc] does nothing: no heap and no [nextPartial] link
    changes.  The descriptor is not retired: the recycle list and every
    [nextFree] link are as before. *)
Theorem lr_free_last_block (fuel : nat) (ptr : Z) (s : State) (d h : Z) :
  ptr <> 0 ->
  GetDescriptorForPtr cfg ptr s = d ->
  d <> 0 ->
  heap (desc_at s d) = Some h ->
  count (get_anchor d s) = u64 (maxcount (desc_at s d) - 1) ->
  0 < PAGE cfg ->
  let sb := superblock (desc_at s d) in
  let sbSize := sc_sbSize (SizeClasses cfg (sizeclass (heap_at s h))) in
  exists s',
    lr_free cfg (S fuel) ptr s = Some s' /\
    state (get_anchor d s') = SB_EMPTY /\
    (forall k, 0 <= k -> k * PAGE cfg < sbSize ->
               GetDescriptorForPtr cfg (ptr_add sb (k * PAGE cfg)) s' = 0) /\
    pageLog s' = pageLog s ++ [EvPageFree sb sbSize] /\
    Heaps s' = Heaps s /\
    (forall x, nextPartial (desc_at s' x) = nextPartial (desc_at s x)) /\
    AvailDesc s' = AvailDesc s /\
    (forall x, nextFree (desc_at s' x) = nextFree (desc_at s x)).
Proof.
  intros Hptr Hd Hd0 Hh Hcount Hpage sb sbSize.
  unfold lr_free. rewrite decide_False by exact Hptr.
  rewrite Hd. rewrite decide_False by exact Hd0. rewrite Hh.
  fold sb.
  set (a := get_anchor d s) in *.
  set (idx := u64 (ptr - sb) / blockSize (desc_at s d)).
  set (p' := ptr_add sb (u64 (idx * blockSize (desc_at s d)))).
  set (s1 := store64 p' (avail a) s).
  set (newA := with_state SB_EMPTY
                 (if decide (state a = SB_FULL)
                  then with_state SB_PARTIAL (with_avail idx a)
                  else with_avail idx a)).
  assert (Hpush : lr_free_push d sb a ptr s = (p', newA, s1)).
  { unfold lr_free_push. fold idx. fold sb. fold p'. fold s1.
    change (maxcount (desc_at s1 d)) with (maxcount (desc_at s d)).
    rewrite decide_True by exact Hcount. reflexivity. }
  rewrite (cas_update_once (get_anchor d) (put_anchor d) _ fuel _ _ _ _ _ _
             Hpush eq_refl).
  assert (HnewA : state newA = SB_EMPTY) by reflexivity.
  rewrite decide_True by exact HnewA.
  unfold RemoveEmptyDesc, ListRemoveEmptyDesc, UnregisterDesc.
  set (s2 := put_anchor d newA s1).
  rewrite heap_at_UpdatePageMap.
  change (heap_at s2 h) with (heap_at s h). fold sbSize.
  destruct (UpdatePageMap_frame cfg (Some h) sb 0 s2)
    as (HA & _ & HH & HD & _ & _ & HL).
  eexists. split; [reflexivity|].
  split; [|split; [|split; [|split; [|split; [|split]]]]].
  - unfold get_anchor.
    change (desc_at (PageFree ?q ?n ?s0) d) with (desc_at s0 d).
    rewrite desc_at_UpdatePageMap. subst s2. unfold put_anchor.
    rewrite desc_at_upd_desc_eq. reflexivity.
  - intros k Hk Hlt. unfold GetDescriptorForPtr.
    rewrite GetPageInfo_PageFree.
    apply UpdatePageMap_small_sets; assumption.
  - rewrite pageLog_PageFree, HL. reflexivity.
  - rewrite Heaps_PageFree, HH. reflexivity.
  - intros x.
    change (desc_at (PageFree ?q ?n ?s0) x) with (desc_at s0 x).
    rewrite desc_at_UpdatePageMap. subst s2. unfold put_anchor.
    destruct (decide (d = x)) as [<-|Hne].
    + rewrite desc_at_upd_desc_eq. reflexivity.
    + rewrite desc_at_upd_desc_ne by exact Hne. reflexivity.
  - rewrite AvailDesc_PageFree, HA. reflexivity.
  - intros x.
    change (desc_at (PageFree ?q ?n ?s0) x) with (desc_at s0 x).
    rewrite desc_at_UpdatePageMap. subst s2. unfold put_anchor.
    destruct (decide (d = x)) as [<-|Hne].
    + rewrite desc_at_upd_desc_eq. reflexivity.
    + rewrite desc_at_upd_desc_ne by exact Hne. reflexivity.
Qed.


End GiveBack.

(** An empty descriptor is retired when [MallocFromPartial] pops it. *)
Lemma MallocFromPartial_retires_empty cfg fuel h s d c :
  get_partialList h s = mkNode d c ->
  d <> 0 ->
  state (get_anchor d s) = SB_EMPTY ->
  MallocFromPartial cfg (S fuel) h s =
    MallocFromPartial cfg fuel h
      (set_AvailDesc (mkNode d (u64 (counter (AvailDesc s) + 1)))
         (upd_desc d (with_nextFree (AvailDesc s))
            (put_partialList h
               (mkNode (desc (nextPartial (desc_at s d))) c) s))).
Proof.
  intros Hhead Hd Hempty.
  cbn [MallocFromPartial]. unfold HeapPopPartial, ListPopPartial.
  rewrite Hhead.
  erewrite cas_loop_next
    with (l1 := tt) (new := mkNode (desc (nextPartial (desc_at s d))) c) (s1 := s).
  2:{ simpl. rewrite decide_False by exact Hd. reflexivity. }
  2:{ exact Hhead. }
  simpl desc. rewrite decide_False by exact Hd.
  set (s1 := put_partialList h _ s).
  erewrite cas_loop_exit with (r := tt) (s1 := s1).
  2:{ unfold MallocFromPartial_reserve.
      change (get_anchor d s1) with (get_anchor d s).
      rewrite decide_True by exact Hempty. reflexivity. }
  rewrite DescRetire_pushes. reflexivity.
Qed.

(** ** Words in user memory *)

Lemma store_bytes_lookup (n : nat) (q v : Z) (m : gmap Z Z) (a : Z) :
  default 0 (store_bytes n q v m !! a) =
    if decide (q <= a < q + Z.of_nat n)
    then (v / 256 ^ (a - q)) mod 256
    else default 0 (m !! a).
Proof.
  revert q v m. induction n as [|n IH]; intros q v m.
  - simpl. rewrite decide_False by lia. reflexivity.
  - cbn [store_bytes]. rewrite IH.
    destruct (decide (q + 1 <= a < q + 1 + Z.of_nat n)) as [Hin|Hout].
    + rewrite decide_True by lia.
      rewrite Z.div_div by (try apply Z.pow_pos_nonneg; lia).
      replace (256 * 256 ^ (a - (q + 1))) with (256 ^ (a - q)); [reflexivity|].
      replace (a - q) with (Z.succ (a - (q + 1))) by lia.
      rewrite Z.pow_succ_r by lia. reflexivity.
    + destruct (decide (a = q)) as [->|Hne].
      * rewrite decide_True by lia. rewrite lookup_insert_eq. simpl.
        replace (q - q) with 0 by lia. rewrite Z.pow_0_r, Z.div_1_r. reflexivity.
      * rewrite decide_False by lia.
        rewrite lookup_insert_ne by congruence. reflexivity.
Qed.

Lemma byte_at_store64 (q v : Z) (s : State) (a : Z) :
  byte_at (store64 q v s) a =
    if decide (q <= a < q + 8) then (u64 v / 256 ^ (a - q)) mod 256
    else byte_at s a.
Proof.
  unfold byte_at, store64, set_mem. cbn [mem].
  rewrite (store_bytes_lookup 8). reflexivity.
Qed.

Lemma load_bytes_ext (n : nat) (p : Z) (s s' : State) :
  (forall a, p <= a < p + Z.of_nat n -> byte_at s' a = byte_at s a) ->
  load_bytes n p s' = load_bytes n p s.
Proof.
  revert p. induction n as [|n IH]; intros p Hsame; [reflexivity|].
  cbn [load_bytes]. rewrite Hsame by lia. rewrite IH; [reflexivity|].
  intros a Ha. apply Hsame. lia.
Qed.

Lemma load_bytes_word (n : nat) (p v : Z) (s : State) :
  (forall i, 0 <= i < Z.of_nat n ->
             byte_at s (p + i) = (v / 256 ^ i) mod 256) ->
  load_bytes n p s = v mod 256 ^ Z.of_nat n.
Proof.
  revert p v. induction n as [|n IH]; intros p v Hb.
  - simpl. rewrite Z.mod_1_r. reflexivity.
  - cbn [load_bytes].
    rewrite (IH (p + 1) (v / 256)).
    + specialize (Hb 0 ltac:(lia)).
      rewrite Z.add_0_r, Z.pow_0_r, Z.div_1_r in Hb. rewrite Hb.
      rewrite Nat2Z.inj_succ, Z.pow_succ_r by lia.
      symmetry. apply Z.rem_mul_r; [lia|]. apply Z.pow_pos_nonneg; lia.
    + intros i Hi. specialize (Hb (i + 1) ltac:(lia)).
      replace (p + 1 + i) with (p + (i + 1)) by lia. rewrite Hb.
      rewrite Z.div_div by (try apply Z.pow_pos_nonneg; lia).
      replace (i + 1) with (Z.succ i) by lia.
      rewrite Z.pow_succ_r by lia. reflexivity.
Qed.

Lemma load64_store64_eq (p v : Z) (s : State) :
  load64 p (store64 p v s) = u64 v.
Proof.
  unfold load64. rewrite (load_bytes_word 8 p (u64 v)).
  - change (256 ^ Z.of_nat 8) with (2 ^ 64). unfold u64.
    apply Z.mod_mod. lia.
  - intros i Hi. rewrite byte_at_store64.
    rewrite decide_True by lia. f_equal. f_equal. f_equal. lia.
Qed.

Lemma load64_ext (p : Z) (s s' : State) :
  (forall a, p <= a < p + 8 -> byte_at s' a = byte_at s a) ->
  load64 p s' = load64 p s.
Proof. intros H. unfold load64. apply load_bytes_ext. exact H. Qed.

(** ** The free list of a fresh superblock *)

Lemma for_loop_ext (P : State -> Prop) (body body' : Z -> State -> State)
      (lo bound step : Z) :
  0 <= step ->
  (forall i s0, P s0 -> P (body' i s0)) ->
  (forall i s0, P s0 -> lo <= i < bound -> body i s0 = body' i s0) ->
  forall (n : nat) (idx : Z) (s : State),
    lo <= idx -> P s ->
    for_loop n idx bound step body s = for_loop n idx bound step body' s.
Proof.
  intros Hstep Hpres Heq.
  induction n as [|n IH]; intros idx s Hidx Hs; simpl; [reflexivity|].
  destruct (decide (idx < bound)); [|reflexivity].
  rewrite (Heq idx s Hs) by lia. apply IH; [lia|]. apply Hpres. exact Hs.
Qed.

Section Format.

(** Blocks of [bs >= 8] bytes from [sb] on; block [i] receives the
    word [i + 1]. *)
Variables (sb bs bound : Z).
Hypothesis Hbs : 8 <= bs.
Hypothesis Hbound : 0 <= bound < 2 ^ 64.

Let format : Z -> State -> State := format_block sb bs.

Lemma format_loop_outside (n : nat) (idx : Z) (s : State) (a : Z) :
  a < sb + idx * bs \/ sb + (bound - 1) * bs + 8 <= a ->
  byte_at (for_loop n idx bound 1 format s) a = byte_at s a.
Proof.
  revert idx s. induction n as [|n IH]; intros idx s Ha; simpl; [reflexivity|].
  destruct (decide (idx < bound)); [|reflexivity].
  rewrite IH by nia. unfold format, format_block. rewrite byte_at_store64.
  rewrite decide_False by nia. reflexivity.
Qed.

Lemma format_loop_links (n : nat) (idx : Z) (s : State) (i : Z) :
  0 <= idx ->
  idx <= i < bound ->
  i < idx + Z.of_nat n ->
  load64 (sb + i * bs) (for_loop n idx bound 1 format s) = i + 1.
Proof.
  revert idx s. induction n as [|n IH]; intros idx s Hidx Hi Hn; [lia|].
  simpl. rewrite decide_True by lia.
  destruct (decide (i = idx)) as [->|Hne].
  - rewrite (load64_ext _ (format idx s)).
    + unfold format, format_block. rewrite load64_store64_eq.
      apply u64_small. lia.
    + intros a Ha. apply format_loop_outside. left. nia.
  - apply IH; lia.
Qed.

Lemma format_loop_frame (n : nat) (idx : Z) (s : State) :
  let s' := for_loop n idx bound 1 format s in
  AvailDesc s' = AvailDesc s /\ Heaps s' = Heaps s /\ descs s' = descs s /\
  sPageMap s' = sPageMap s /\ pageOracle s' = pageOracle s /\
  pageLog s' = pageLog s.
Proof.
  apply for_loop_ind; [repeat split|].
  intros i s0 H. exact H.
Qed.

End Format.

(** ** [MallocFromNewSB] *)

Section NewSB.

Variable cfg : Config.
Variables (fuel : nat) (h : Z) (s s1 : State) (d sb : Z) (rest : list Z).

Let sc : SizeClassData := SizeClasses cfg (sizeclass (heap_at s h)).
Let mc : Z := sc_GetBlockNum sc.
Let bs : Z := sc_blockSize sc.
Let credits : Z := Z.min (mc - 1) CREDITS_MAX.

Hypothesis Hpool : DescAlloc cfg fuel s = Some (d, s1).
Hypothesis Hd : d <> 0.
Hypothesis Hpage : pageOracle s1 = sb :: rest.
Hypothesis Hmc : 1 <= mc <= 2 ^ 25.
Hypothesis Hbs : 8 <= bs.
Hypothesis Hsb : 0 <= sb /\ sb + mc * bs <= 2 ^ 64.

(** The descriptor and the state before the formatting loop. *)
Let s6 : State :=
  upd_desc d (with_superblock sb)
    (set_pages rest (pageLog s1 ++ [EvPageAlloc (sc_sbSize sc) sb])
       (upd_desc d (with_maxcount mc)
          (upd_desc d (with_blockSize bs)
             (upd_desc d (with_heap (Some h)) s1)))).

Let anchor0 : Anchor := mkAnchor SB_ACTIVE 1 (mc - 1 - credits) 0.

Let s7 : State := for_loop (Z.to_nat (mc - 1)) 1 (mc - 1) 1 (format_block sb bs) s6.

Lemma NewSB_desc_s6 :
  superblock (desc_at s6 d) = sb /\ heap (desc_at s6 d) = Some h /\
  blockSize (desc_at s6 d) = bs /\ maxcount (desc_at s6 d) = mc.
Proof.
  unfold s6. rewrite desc_at_upd_desc_eq.
  change (desc_at (set_pages ?o ?l ?s0) d) with (desc_at s0 d).
  rewrite !desc_at_upd_desc_eq. repeat split.
Qed.

Lemma MallocFromNewSB_build_eq :
  MallocFromNewSB_build cfg fuel h s =
    Some (d, MakeActive d (u64 (credits - 1)),
          RegisterDesc cfg d (put_anchor d anchor0 s7)).
Proof.
  destruct NewSB_desc_s6 as (Hsb6 & Hh6 & Hbs6 & Hmc6).
  unfold MallocFromNewSB_build. rewrite Hpool.
  rewrite decide_False by exact Hd.
  fold sc. fold bs. fold mc.
  unfold PageAlloc at 1.
  change (pageOracle (upd_desc d ?f ?s0)) with (pageOracle s0).
  change (pageOracle (upd_desc d ?f ?s0)) with (pageOracle s0).
  change (pageOracle (upd_desc d ?f ?s0)) with (pageOracle s0).
  rewrite Hpage.
  change (pageLog (upd_desc d ?f ?s0)) with (pageLog s0).
  change (pageLog (upd_desc d ?f ?s0)) with (pageLog s0).
  change (pageLog (upd_desc d ?f ?s0)) with (pageLog s0).
  fold s6. rewrite Hmc6.
  assert (Hu : u64 (mc - 1) = mc - 1) by (apply u64_small; lia).
  rewrite Hu.
  assert (Hloop :
    for_loop (Z.to_nat (mc - 1)) 1 (mc - 1) 1
      (fun idx s0 =>
         store64 (ptr_add (superblock (desc_at s0 d)) (u64 (idx * bs)))
                 (idx + 1) s0) s6 = s7).
  { unfold s7.
    apply (for_loop_ext (fun s0 => descs s0 = descs s6) _ _ 1).
    - lia.
    - intros i s0 Hs0. exact Hs0.
    - intros i s0 Hs0 Hi.
      assert (Hsame : desc_at s0 d = desc_at s6 d)
        by (unfold desc_at; rewrite Hs0; reflexivity).
      rewrite Hsame, Hsb6. unfold format_block, ptr_add.
      rewrite (u64_small (i * bs)) by nia.
      rewrite (u64_small (sb + i * bs)) by nia. reflexivity.
    - lia.
    - reflexivity. }
  rewrite Hloop.
  assert (Hd7 : desc_at s7 d = desc_at s6 d).
  { destruct (format_loop_frame sb bs (mc - 1) (Z.to_nat (mc - 1)) 1 s6)
      as (_ & _ & HD & _).
    fold s7 in HD. unfold desc_at. rewrite HD. reflexivity. }
  rewrite Hd7, Hmc6. rewrite Hu. fold credits.
  repeat f_equal.
  unfold anchor0, with_tag, with_state, with_count, with_avail. simpl.
  f_equal. apply bits25_small.
  unfold credits. change CREDITS_MAX with 64. lia.
Qed.

(** C6: [MallocFromNewSB] on a heap without active superblock.  The
    descriptor comes from [DescAlloc], the superblock [sb] from the page
    provider; the size class has [mc] blocks of [bs] bytes.  The call
    returns block 0; every block [i] with [1 <= i <= mc - 2] holds
    [i + 1] in its first 8 bytes; no byte of block 0 and no byte from the
    last block on is written; the anchor is
    [{avail = 1, count = mc - 1 - credits, state = ACTIVE, tag = 0}]
    with [credits = min(mc - 1, CREDITS_MAX)], and the active word holds
    the descriptor with [credits - 1]. *)
Theorem MallocFromNewSB_formats :
  get_active h s1 = 0 ->
  exists s',
    MallocFromNewSB cfg fuel h s = Some (sb, s') /\
    (forall i, 1 <= i <= mc - 2 -> load64 (sb + i * bs) s' = i + 1) /\
    (forall a, a < sb + bs -> byte_at s' a = byte_at s1 a) /\
    (forall a, sb + (mc - 1) * bs <= a -> byte_at s' a = byte_at s1 a) /\
    get_anchor d s' = mkAnchor SB_ACTIVE 1 (mc - 1 - credits) 0 /\
    superblock (desc_at s' d) = sb /\
    maxcount (desc_at s' d) = mc /\
    get_active h s' = MakeActive d (u64 (credits - 1)).
Proof.
  intros Hnull.
  destruct NewSB_desc_s6 as (Hsb6 & Hh6 & Hbs6 & Hmc6).
  unfold MallocFromNewSB. rewrite MallocFromNewSB_build_eq.
  set (s8 := put_anchor d anchor0 s7).
  set (s9 := RegisterDesc cfg d s8).
  destruct (format_loop_frame sb bs (mc - 1) (Z.to_nat (mc - 1)) 1 s6)
    as (_ & HH7 & HD7 & _). fold s7 in HH7, HD7.
  destruct (UpdatePageMap_frame cfg (heap (desc_at s8 d))
              (superblock (desc_at s8 d)) d s8)
    as (_ & _ & HH9 & HD9 & HM9 & _).
  fold (RegisterDesc cfg d s8) in HH9, HD9, HM9. fold s9 in HH9, HD9, HM9.
  assert (Hact9 : get_active h s9 = 0).
  { unfold get_active, heap_at. rewrite HH9.
    change (Heaps s8) with (Heaps s7). rewrite HH7. exact Hnull. }
  assert (Hdesc9 : desc_at s9 d = with_anchor anchor0 (desc_at s6 d)).
  { unfold desc_at at 1. rewrite HD9. fold (desc_at s8 d).
    unfold s8, put_anchor. rewrite desc_at_upd_desc_eq.
    unfold desc_at at 1. rewrite HD7. reflexivity. }
  assert (Hbytes : forall a, byte_at s9 a = byte_at s7 a).
  { intros a. unfold byte_at. rewrite HM9. reflexivity. }
  unfold MallocFromNewSB_install.
  rewrite decide_False by (rewrite Hact9; intros [H0|H0]; apply H0; reflexivity).
  change (desc_at (put_active h ?x s9) d) with (desc_at s9 d).
  rewrite Hdesc9.
  change (superblock (with_anchor anchor0 (desc_at s6 d)))
    with (superblock (desc_at s6 d)).
  rewrite Hsb6.
  eexists. split; [reflexivity|].
  split; [|split; [|split; [|split; [|split; [|split]]]]].
  - intros i Hi.
    rewrite (load64_ext _ s7) by (intros a _; apply Hbytes).
    apply format_loop_links; lia.
  - intros a Ha.
    change (byte_at (put_active h ?x s9) a) with (byte_at s9 a).
    rewrite Hbytes. unfold s7.
    rewrite format_loop_outside by (try lia; left; lia). reflexivity.
  - intros a Ha.
    change (byte_at (put_active h ?x s9) a) with (byte_at s9 a).
    rewrite Hbytes. unfold s7.
    rewrite format_loop_outside by (try lia; right; nia). reflexivity.
  - rewrite get_anchor_put_active. unfold get_anchor. rewrite Hdesc9. reflexivity.
  - rewrite desc_at_put_active, Hdesc9. exact Hsb6.
  - rewrite desc_at_put_active, Hdesc9. exact Hmc6.
  - apply get_active_put_active.
Qed.

End NewSB.

(** ** The theorems above on concrete runs *)

(** A run is determined by what it returns, its final state being
    [state_of] the run. *)
Lemma run_result {A : Type} (r : option (A * State)) (a : A) :
  option_map fst r = Some a -> r = Some (a, state_of r).
Proof. destruct r as [[a' s']|]; simpl; congruence. Qed.

Ltac run_eq :=
  match goal with
  | |- ?r = Some (?a, _) =>
      exact (run_result r a ltac:(vm_compute; reflexivity))
  end.

Lemma three_not_pow2 : ~ is_pow2 3.
Proof.
  intros [k [Hk H3]].
  destruct (decide (k = 0)) as [->|H0]; [discriminate|].
  destruct (decide (k = 1)) as [->|H1]; [discriminate|].
  assert (Hle : 2 ^ 2 <= 2 ^ k) by (apply Z.pow_le_mono_r; lia).
  change (2 ^ 2) with 4 in Hle. lia.
Qed.





Lemma MallocFromActive_last_credit_witness :
  exists s',
    MallocFromActive 8 2 late_setup = Some (2098176, s') /\
    count (get_anchor 1048576 s') = 0 /\
    get_active 2 s' = MakeActive 1048576 1.
Proof.
  assert (H1 : get_active 2 late_setup = 1048576) by (vm_compute; reflexivity).
  assert (H2 : 1048576 <> 0) by lia.
  assert (H3 : GetActive 1048576 = (1048576, 0)) by (vm_compute; reflexivity).
  assert (H4 : 0 <= count (get_anchor 1048576 late_setup) < 2 ^ 25)
    by (vm_compute; split; congruence).
  destruct (MallocFromActive_last_credit 2 late_setup 1048576 1048576
              H1 H2 H3 7%nat H4) as (s' & Hr & _ & _ & _ & Hn).
  assert (H5 : count (get_anchor 1048576 late_setup) <> 0)
    by (vm_compute; congruence).
  destruct (Hn H5) as (_ & Hc & Ha).
  exists s'. split; [|split].
  - rewrite Hr. f_equal.
  - rewrite Hc. vm_compute. reflexivity.
  - rewrite Ha. vm_compute. reflexivity.
Defined.

Lemma final_result (r : option State) :
  match r with Some _ => true | None => false end = true ->
  r = Some (final_of r).
Proof. destruct r; simpl; congruence. Qed.

(** C1 fails as stated: the last free of [drain_run] makes the anchor
    of descriptor 1048576 [SB_EMPTY], and the recycle list is what it was
    before the call, with another descriptor on top: the descriptor has
    not been retired. *)
Lemma lr_free_last_block_not_retired :
  lr_free test_cfg 8 2103296 drain_state = Some drained_state /\
  state (get_anchor 1048576 drained_state) = SB_EMPTY /\
  AvailDesc drained_state = AvailDesc drain_state /\
  desc (AvailDesc drained_state) <> 1048576.
Proof.
  split; [apply final_result; vm_compute; reflexivity|].
  split; [vm_compute; reflexivity|].
  split; [vm_compute; reflexivity|].
  vm_compute. discriminate.
Qed.

Lemma lr_free_last_block_witness :
  exists s',
    lr_free test_cfg 8 2103296 drain_state = Some s' /\
    state (get_anchor 1048576 s') = SB_EMPTY /\
    GetDescriptorForPtr test_cfg 2097152 s' = 0 /\
    GetDescriptorForPtr test_cfg 2101248 s' = 0 /\
    AvailDesc s' = AvailDesc drain_state.
Proof.
  assert (H1 : 2103296 <> 0) by lia.
  assert (H2 : GetDescriptorForPtr test_cfg 2103296 drain_state = 1048576)
    by (vm_compute; reflexivity).
  assert (H3 : 1048576 <> 0) by lia.
  assert (H4 : heap (desc_at drain_state 1048576) = Some 3)
    by (vm_compute; reflexivity).
  assert (H5 : count (get_anchor 1048576 drain_state) =
               u64 (maxcount (desc_at drain_state 1048576) - 1))
    by (vm_compute; reflexivity).
  assert (H6 : 0 < PAGE test_cfg) by (simpl; lia).
  destruct (lr_free_last_block test_cfg 7 2103296 drain_state 1048576 3
              H1 H2 H3 H4 H5 H6) as (s' & Hr & He & Hpm & _ & _ & _ & Ha & _).
  exists s'. split; [exact Hr|]. split; [exact He|].
  split; [|split; [|exact Ha]].
  - assert (Hk : ptr_add (superblock (desc_at drain_state 1048576))
                   (0 * PAGE test_cfg) = 2097152) by (vm_compute; reflexivity).
    rewrite <- Hk. apply Hpm; [lia|]. vm_compute. reflexivity.
  - assert (Hk : ptr_add (superblock (desc_at drain_state 1048576))
                   (1 * PAGE test_cfg) = 2101248) by (vm_compute; reflexivity).
    rewrite <- Hk. apply Hpm; [lia|]. vm_compute. reflexivity.
Defined.


Lemma MallocFromNewSB_formats_witness :
  exists s',
    MallocFromNewSB test_cfg 1024 2 fresh_heap_state = Some (2097152, s') /\
    load64 (2097152 + 1 * 1024) s' = 2 /\
    load64 (2097152 + 2 * 1024) s' = 3 /\
    get_anchor 1048576 s' = mkAnchor SB_ACTIVE 1 0 0.
Proof.
  assert (Hmc : sc_GetBlockNum
                  (SizeClasses test_cfg (sizeclass (heap_at fresh_heap_state 2))) = 4)
    by (vm_compute; reflexivity).
  assert (Hbs : sc_blockSize
                  (SizeClasses test_cfg (sizeclass (heap_at fresh_heap_state 2))) = 1024)
    by (vm_compute; reflexivity).
  assert (H1 : DescAlloc test_cfg 1024 fresh_heap_state =
               Some (1048576, fresh_pool_state)) by run_eq.
  assert (H2 : 1048576 <> 0) by lia.
  assert (H3 : pageOracle fresh_pool_state = 2097152 :: [3145728; 4194304])
    by (vm_compute; reflexivity).
  assert (H7 : get_active 2 fresh_pool_state = 0) by (vm_compute; reflexivity).
  destruct (MallocFromNewSB_formats test_cfg 1024 2 fresh_heap_state
              fresh_pool_state 1048576 2097152 [3145728; 4194304] H1 H2 H3)
    as (s' & Hr & Hl & _ & _ & Ha & _).
  - rewrite Hmc. lia.
  - rewrite Hbs. lia.
  - rewrite Hmc, Hbs. lia.
  - exact H7.
  - rewrite Hmc, Hbs in *. exists s'.
    split; [exact Hr|]. split; [apply Hl; lia|]. split; [apply Hl; lia|].
    rewrite Ha. reflexivity.
Defined.

(** ** The anchor count along sequential runs *)

(** *** Active words *)

Lemma credits_mask_word : u64 (Z.lnot CREDITS_MASK) =
  Z.land (Z.ones 64) (Z.lnot (Z.ones 6)).
Proof. reflexivity. Qed.

Lemma land_desc_mask (w : Z) :
  Z.land w (u64 (Z.lnot CREDITS_MASK)) = (w mod 2 ^ 64) / 2 ^ 6 * 2 ^ 6.
Proof.
  rewrite credits_mask_word, Z.land_assoc, Z.land_ones by lia.
  rewrite <- Z.ldiff_land, Z.ldiff_ones_r by lia.
  rewrite Z.shiftr_div_pow2, Z.shiftl_mul_pow2 by lia. reflexivity.
Qed.

Lemma GetActive_fst_wf (w : Z) :
  0 <= fst (GetActive w) < 2 ^ 64 /\ fst (GetActive w) mod 64 = 0.
Proof.
  unfold GetActive. cbn [fst]. rewrite land_desc_mask.
  assert (Hm : 0 <= w mod 2 ^ 64 < 2 ^ 64) by (apply Z.mod_pos_bound; lia).
  change (2 ^ 6) with 64. split.
  - pose proof (Z.mul_div_le (w mod 2 ^ 64) 64 ltac:(lia)).
    assert (0 <= w mod 2 ^ 64 / 64) by (apply Z.div_pos; lia). lia.
  - apply Z.mod_mul. lia.
Qed.

Lemma GetActive_snd_range (w : Z) : 0 <= snd (GetActive w) < 64.
Proof.
  unfold GetActive. cbn [snd]. change CREDITS_MASK with (Z.ones 6).
  rewrite Z.land_ones by lia. apply Z.mod_pos_bound. lia.
Qed.

Lemma MakeActive_add (d c : Z) :
  d mod 64 = 0 -> 0 <= c < 64 -> MakeActive d c = d + c.
Proof.
  intros Hd Hc. unfold MakeActive.
  assert (Hland : Z.land d c = 0).
  { replace c with (Z.land c (Z.ones 6)) at 1
      by (rewrite Z.land_ones by lia; apply Z.mod_small; exact Hc).
    rewrite (Z.land_comm c), Z.land_assoc, Z.land_ones by lia.
    change (2 ^ 6) with 64. rewrite Hd. reflexivity. }
  rewrite <- Z.lxor_lor by exact Hland.
  symmetry. apply Z.add_nocarry_lxor. exact Hland.
Qed.

Lemma GetActive_MakeActive (d c : Z) :
  0 <= d < 2 ^ 64 -> d mod 64 = 0 -> 0 <= c < 64 ->
  GetActive (MakeActive d c) = (d, c).
Proof.
  intros Hd Hal Hc. rewrite MakeActive_add by assumption.
  assert (Hq : d = 64 * (d / 64)) by (apply Z.div_exact; lia).
  unfold GetActive. f_equal.
  - rewrite land_desc_mask. change (2 ^ 6) with 64.
    rewrite Z.mod_small by lia.
    replace ((d + c) / 64) with (d / 64); [lia|].
    rewrite Hq at 2. rewrite Z.add_comm, Z.mul_comm, Z.div_add by lia.
    rewrite (Z.div_small c) by lia. reflexivity.
  - change CREDITS_MASK with (Z.ones 6). rewrite Z.land_ones by lia.
    change (2 ^ 6) with 64. rewrite Hq, Z.add_comm, Z.mul_comm.
    rewrite Z.mod_add by lia. apply Z.mod_small. exact Hc.
Qed.

(** *** Linked lists of descriptors *)

Lemma chain_ext (next next' : Z -> Z) (l : list Z) (hd : Z) :
  (forall x, x ∈ l -> next' x = next x) ->
  chain next hd l -> chain next' hd l.
Proof.
  revert hd. induction l as [|d l IH]; intros hd Hsame Hc; [exact Hc|].
  destruct Hc as (Hhd & Hd & Hrest). simpl. repeat split; try assumption.
  rewrite Hsame by (apply elem_of_cons; left; reflexivity).
  apply IH; [|exact Hrest].
  intros x Hx. apply Hsame. apply elem_of_cons. right. exact Hx.
Qed.

Lemma chain_null (next : Z -> Z) (l : list Z) : chain next 0 l -> l = [].
Proof. destruct l as [|d l]; [reflexivity|]. intros (H0 & Hd & _). congruence. Qed.

Lemma chain_nonnull (next : Z -> Z) (hd : Z) (l : list Z) :
  hd <> 0 -> chain next hd l ->
  exists l', l = hd :: l' /\ chain next (next hd) l'.
Proof.
  intros Hhd Hc. destruct l as [|d l]; [simpl in Hc; congruence|].
  destruct Hc as (-> & _ & Hrest). exists l. split; [reflexivity|exact Hrest].
Qed.

Lemma chain_app (next : Z -> Z) (l1 l2 : list Z) (hd mid : Z) :
  (forall x, x ∈ l1 -> x <> 0) ->
  chain next mid l2 ->
  (match l1 with [] => hd = mid | _ => True end) ->
  (forall i x, l1 !! i = Some x ->
     next x = match l1 !! S i with Some y => y | None => mid end) ->
  (match l1 with x :: _ => hd = x | [] => True end) ->
  chain next hd (l1 ++ l2).
Proof.
  revert hd. induction l1 as [|x l1 IH]; intros hd Hnz H2 Hnil Hlink Hhd.
  - simpl. subst hd. exact H2.
  - simpl. split; [exact Hhd|]. split.
    + apply Hnz. apply elem_of_cons. left. reflexivity.
    + apply IH.
      * intros y Hy. apply Hnz. apply elem_of_cons. right. exact Hy.
      * exact H2.
      * destruct l1; [|exact I]. rewrite (Hlink 0%nat x eq_refl). reflexivity.
      * intros i y Hy. apply (Hlink (S i) y). exact Hy.
      * destruct l1 as [|y l1]; [exact I|].
        rewrite (Hlink 0%nat x eq_refl). reflexivity.
Qed.

(** *** Observations *)

Lemma desc_at_same (s s' : State) (d : Z) :
  descs s' !! d = descs s !! d -> desc_at s' d = desc_at s d.
Proof. intros H. unfold desc_at. rewrite H. reflexivity. Qed.

Lemma heap_at_same (s s' : State) (h : Z) :
  Heaps s' !! h = Heaps s !! h -> heap_at s' h = heap_at s h.
Proof. intros H. unfold heap_at. rewrite H. reflexivity. Qed.

Lemma sb_keys_same (cfg : Config) (s s' : State) (d : Z) :
  desc_at s' d = desc_at s d ->
  (forall h, sizeclass (heap_at s' h) = sizeclass (heap_at s h)) ->
  sb_keys cfg s' d = sb_keys cfg s d.
Proof.
  intros Hd Hh. unfold sb_keys, map_keys. rewrite Hd.
  destruct (heap (desc_at s d)) as [h|]; [|reflexivity].
  rewrite Hh. reflexivity.
Qed.

(** *** Preservation, step by step

    Each lemma relates a state [s] that satisfies the invariant to a state
    [s'] through what can be observed of the two. *)

Section Steps.

Variable cfg : Config.
Variables (s s' : State) (pool : list Z) (pl : Z -> list Z).
Hypothesis HI : Inv_with cfg s pool pl.

(** Nothing the invariant looks at has changed, except that the page
    provider may have handed out addresses. *)
Lemma step_frame :
  AvailDesc s' = AvailDesc s -> Heaps s' = Heaps s -> descs s' = descs s ->
  sPageMap s' = sPageMap s ->
  (forall p, p ∈ pageOracle s' -> p ∈ pageOracle s) ->
  oracle_ok cfg (pageOracle s') ->
  Inv_with cfg s' pool pl.
Proof.
  intros HA HH HD HP HO HOK.
  destruct s as [A I H D P M O L], s' as [A' I' H' D' P' M' O' L'].
  simpl in HA, HH, HD, HP, HO, HOK. subst A' H' D' P'.
  destruct HI as [i1 i2 i3 i4 i5 i6 i7 i8 i9 i10].
  constructor.
  - exact i1.
  - exact i2.
  - exact i3.
  - exact i4.
  - exact i5.
  - exact i6.
  - exact i7.
  - intros d p Hd Hp. apply (i8 d p Hd). apply HO. exact Hp.
  - exact HOK.
  - exact i10.
Qed.

(** Only the descriptor [d] has changed, and not its links where it is
    on a list. *)
Lemma step_desc (d : Z) :
  AvailDesc s' = AvailDesc s -> Heaps s' = Heaps s ->
  sPageMap s' = sPageMap s -> pageOracle s' = pageOracle s ->
  (forall x, x <> d -> descs s' !! x = descs s !! x) ->
  is_Some (descs s' !! d) ->
  (forall p, p ∈ pageOracle s -> d < p) ->
  (d ∈ pool -> nextF s' d = nextF s d) ->
  (forall h, d ∈ pl h ->
     nextP s' d = nextP s d /\
     heap (desc_at s' d) = Some h /\
     (state (get_anchor d s') = SB_PARTIAL \/
      state (get_anchor d s') = SB_EMPTY) /\
     (state (get_anchor d s') = SB_PARTIAL -> 1 <= count (get_anchor d s'))) ->
  (forall h, get_active h s <> 0 -> active_desc s h = d ->
     heap (desc_at s' d) = Some h /\ state (get_anchor d s') <> SB_FULL) ->
  (heap (desc_at s' d) <> None ->
     0 <= count (get_anchor d s') <= maxcount (desc_at s' d) - 1 /\
     maxcount (desc_at s' d) <= 2 ^ 25) ->
  (forall k, sPageMap s !! k = Some d -> d <> 0 ->
     heap (desc_at s' d) <> None ->
     state (get_anchor d s') <> SB_EMPTY /\ k ∈ sb_keys cfg s' d) ->
  Inv_with cfg s' pool pl.
Proof.
  intros HA HH HP HO HD Hdom Hfresh Hpool Hmem Hact Hcnt Hpm.
  assert (Hdesc : forall x, x <> d -> desc_at s' x = desc_at s x)
    by (intros x Hx; apply desc_at_same, HD, Hx).
  assert (Hheap : forall h, heap_at s' h = heap_at s h)
    by (intros h; apply heap_at_same; rewrite HH; reflexivity).
  assert (Hanchor : forall x, x <> d -> get_anchor x s' = get_anchor x s)
    by (intros x Hx; unfold get_anchor; rewrite Hdesc by exact Hx; reflexivity).
  assert (HnF : forall x, x ∈ pool -> nextF s' x = nextF s x).
  { intros x Hx. destruct (decide (x = d)) as [->|Hne]; [apply Hpool, Hx|].
    unfold nextF. rewrite Hdesc by exact Hne. reflexivity. }
  assert (HnP : forall h x, x ∈ pl h -> nextP s' x = nextP s x).
  { intros h x Hx. destruct (decide (x = d)) as [->|Hne];
      [apply (Hmem h), Hx|].
    unfold nextP. rewrite Hdesc by exact Hne. reflexivity. }
  assert (Hdom' : forall x, is_Some (descs s !! x) -> is_Some (descs s' !! x)).
  { intros x Hx. destruct (decide (x = d)) as [->|Hne]; [exact Hdom|].
    rewrite HD by exact Hne. exact Hx. }
  assert (Hgp : forall h, get_partialList h s' = get_partialList h s)
    by (intros h; unfold get_partialList; rewrite Hheap; reflexivity).
  assert (Hga : forall h, get_active h s' = get_active h s)
    by (intros h; unfold get_active; rewrite Hheap; reflexivity).
  assert (Had : forall h, active_desc s' h = active_desc s h)
    by (intros h; unfold active_desc; rewrite Hga; reflexivity).
  destruct HI as [i1 i2 i3 i4 i5 i6 i7 i8 i9 i10].
  constructor.
  - rewrite HA. split; [|apply i1].
    apply (chain_ext (nextF s)); [exact HnF|apply i1].
  - intros x Hx. destruct (i2 x Hx) as [Hw Hs]. split; [exact Hw|].
    apply Hdom', Hs.
  - intros h. rewrite Hgp. split; [|apply i3].
    apply (chain_ext (nextP s)); [apply HnP|apply i3].
  - intros h x Hx. destruct (i4 h x Hx) as (Hw & Hs & Hnp & Hhp & Hst & Hc).
    split; [exact Hw|]. split; [apply Hdom', Hs|]. split; [exact Hnp|].
    destruct (decide (x = d)) as [->|Hne].
    + destruct (Hmem h Hx) as (_ & H1 & H2 & H3). auto.
    + rewrite Hdesc, Hanchor by exact Hne. auto.
  - intros h Hh. rewrite Hga in Hh. rewrite Had.
    destruct (i5 h Hh) as (H0 & Hs & Hnp & Hnl & Hhp & Hst).
    split; [exact H0|]. split; [apply Hdom', Hs|].
    split; [exact Hnp|]. split; [exact Hnl|].
    destruct (decide (active_desc s h = d)) as [Heq|Hne].
    + rewrite Heq. apply (Hact h Hh Heq).
    + rewrite Hdesc, Hanchor by exact Hne. auto.
  - intros x Hx. destruct (decide (x = d)) as [->|Hne]; [apply Hcnt, Hx|].
    rewrite Hdesc, Hanchor in * by exact Hne. apply i6, Hx.
  - intros k x Hk Hx0. rewrite HP in Hk.
    destruct (i7 k x Hk Hx0) as (Hw & Hs & Hnp & Hsm).
    split; [exact Hw|]. split; [apply Hdom', Hs|]. split; [exact Hnp|].
    destruct (decide (x = d)) as [->|Hne]; [apply Hpm; assumption|].
    rewrite Hdesc, Hanchor by exact Hne.
    rewrite (sb_keys_same cfg s s' x) by
      (try apply Hdesc; try exact Hne; intros h; rewrite Hheap; reflexivity).
    exact Hsm.
  - intros x p Hx Hp. rewrite HO in Hp.
    destruct (decide (x = d)) as [->|Hne]; [apply Hfresh, Hp|].
    rewrite HD in Hx by exact Hne. apply (i8 x p Hx Hp).
  - rewrite HO. exact i9.
  - intros i Hi. rewrite Hheap. apply i10, Hi.
Qed.

End Steps.

Section Primitives.

Variable cfg : Config.
Variables (s : State) (pool : list Z) (pl : Z -> list Z).
Hypothesis HI : Inv_with cfg s pool pl.

Lemma sb_keys_upd_heap (h : Z) (f : ProcHeap -> ProcHeap) (d : Z) :
  (forall x, sizeclass (f x) = sizeclass x) ->
  sb_keys cfg (upd_heap h f s) d = sb_keys cfg s d.
Proof.
  intros Hf. apply sb_keys_same; [reflexivity|].
  intros h'. destruct (decide (h = h')) as [<-|Hne].
  - rewrite heap_at_upd_heap_eq. apply Hf.
  - rewrite heap_at_upd_heap_ne by exact Hne. reflexivity.
Qed.

(** The active word of heap [h] becomes [w]. *)
Lemma step_active (h w : Z) :
  (w <> 0 ->
   let x := fst (GetActive w) in
   x <> 0 /\ is_Some (descs s !! x) /\ (x ∉ pool) /\ (x ∉ pl h) /\
   heap (desc_at s x) = Some h /\ state (get_anchor x s) <> SB_FULL) ->
  Inv_with cfg (put_active h w s) pool pl.
Proof.
  intros Hw.
  assert (Hga : forall h', get_active h' (put_active h w s) =
                           if decide (h = h') then w else get_active h' s).
  { intros h'. unfold get_active, put_active.
    destruct (decide (h = h')) as [<-|Hne].
    - rewrite heap_at_upd_heap_eq. reflexivity.
    - rewrite heap_at_upd_heap_ne by exact Hne. reflexivity. }
  assert (Hgp : forall h', get_partialList h' (put_active h w s) =
                           get_partialList h' s).
  { intros h'. unfold get_partialList, put_active.
    destruct (decide (h = h')) as [<-|Hne].
    - rewrite heap_at_upd_heap_eq. reflexivity.
    - rewrite heap_at_upd_heap_ne by exact Hne. reflexivity. }
  destruct HI as [i1 i2 i3 i4 i5 i6 i7 i8 i9 i10].
  constructor.
  - exact i1.
  - exact i2.
  - intros h'. rewrite Hgp. apply i3.
  - exact i4.
  - intros h' Hh'. unfold active_desc. rewrite Hga in Hh' |- *.
    destruct (decide (h = h')) as [<-|Hne].
    + apply Hw, Hh'.
    + apply i5, Hh'.
  - exact i6.
  - intros k x Hk Hx.
    destruct (i7 k x Hk Hx) as (H1 & H2 & H3 & H4).
    split; [exact H1|]. split; [exact H2|]. split; [exact H3|].
    unfold put_active.
    rewrite sb_keys_upd_heap by reflexivity. exact H4.
  - exact i8.
  - exact i9.
  - intros i Hi. unfold put_active.
    destruct (decide (h = i)) as [<-|Hne].
    + rewrite heap_at_upd_heap_eq. apply i10, Hi.
    + rewrite heap_at_upd_heap_ne by exact Hne. apply i10, Hi.
Qed.

(** The head [d] of the partial list of heap [h] is popped. *)
Lemma step_pop_partial (h d c : Z) (l : list Z) :
  pl h = d :: l ->
  Inv_with cfg (put_partialList h (mkNode (nextP s d) c) s) pool
           (fun x => if decide (x = h) then l else pl x).
Proof.
  intros Hpl. set (s' := put_partialList h _ s).
  assert (Hgp : forall h', get_partialList h' s' =
     if decide (h = h') then mkNode (nextP s d) c else get_partialList h' s).
  { intros h'. unfold get_partialList, s', put_partialList.
    destruct (decide (h = h')) as [<-|Hne].
    - rewrite heap_at_upd_heap_eq. reflexivity.
    - rewrite heap_at_upd_heap_ne by exact Hne. reflexivity. }
  assert (Hga : forall h', get_active h' s' = get_active h' s).
  { intros h'. unfold get_active, s', put_partialList.
    destruct (decide (h = h')) as [<-|Hne].
    - rewrite heap_at_upd_heap_eq. reflexivity.
    - rewrite heap_at_upd_heap_ne by exact Hne. reflexivity. }
  destruct HI as [i1 i2 i3 i4 i5 i6 i7 i8 i9 i10].
  pose proof (i3 h) as [Hch Hnd]. rewrite Hpl in Hch, Hnd.
  destruct Hch as (_ & _ & Hch). apply NoDup_cons in Hnd as [Hdl Hnd].
  constructor.
  - exact i1.
  - exact i2.
  - intros h'. rewrite Hgp. destruct (decide (h' = h)) as [->|Hne].
    + rewrite decide_True by reflexivity. split; [exact Hch|exact Hnd].
    + rewrite decide_False by congruence. apply i3.
  - intros h' x Hx. apply i4. destruct (decide (h' = h)) as [->|Hne].
    + rewrite Hpl. apply elem_of_cons. right. exact Hx.
    + exact Hx.
  - intros h' Hh'. rewrite Hga in Hh'.
    destruct (i5 h' Hh') as (H1 & H2 & H3 & H4 & H5).
    unfold active_desc. rewrite Hga. fold (active_desc s h').
    split; [exact H1|]. split; [exact H2|]. split; [exact H3|].
    split; [|exact H5].
    destruct (decide (h' = h)) as [->|Hne]; [|exact H4].
    intros Hin. apply H4. rewrite Hpl. apply elem_of_cons. right. exact Hin.
  - exact i6.
  - intros k x Hk Hx.
    destruct (i7 k x Hk Hx) as (H1 & H2 & H3 & H4).
    split; [exact H1|]. split; [exact H2|]. split; [exact H3|].
    unfold s', put_partialList.
    rewrite sb_keys_upd_heap by reflexivity. exact H4.
  - exact i8.
  - exact i9.
  - intros i Hi. unfold s', put_partialList.
    destruct (decide (h = i)) as [<-|Hne].
    + rewrite heap_at_upd_heap_eq. apply i10, Hi.
    + rewrite heap_at_upd_heap_ne by exact Hne. apply i10, Hi.
Qed.

(** The head [d] of the recycle list is popped. *)
Lemma step_pop_pool (d c : Z) (l : list Z) :
  pool = d :: l ->
  Inv_with cfg (set_AvailDesc (mkNode (nextF s d) c) s) l pl.
Proof.
  intros Hpool.
  destruct HI as [i1 i2 i3 i4 i5 i6 i7 i8 i9 i10].
  destruct i1 as [Hch Hnd]. rewrite Hpool in Hch, Hnd.
  destruct Hch as (_ & _ & Hch). apply NoDup_cons in Hnd as [Hdl Hnd].
  assert (Hsub : forall x, x ∈ l -> x ∈ pool).
  { intros x Hx. rewrite Hpool. apply elem_of_cons. right. exact Hx. }
  constructor.
  - split; [exact Hch|exact Hnd].
  - intros x Hx. apply i2, Hsub, Hx.
  - exact i3.
  - intros h x Hx. destruct (i4 h x Hx) as (H1 & H2 & H3 & H4).
    split; [exact H1|]. split; [exact H2|]. split; [|exact H4].
    intros Hin. apply H3, Hsub, Hin.
  - intros h Hh. destruct (i5 h Hh) as (H1 & H2 & H3 & H4).
    split; [exact H1|]. split; [exact H2|]. split; [|exact H4].
    intros Hin. apply H3, Hsub, Hin.
  - exact i6.
  - intros k x Hk Hx. destruct (i7 k x Hk Hx) as (H1 & H2 & H3 & H4).
    split; [exact H1|]. split; [exact H2|]. split; [|exact H4].
    intros Hin. apply H3, Hsub, Hin.
  - exact i8.
  - exact i9.
  - exact i10.
Qed.

End Primitives.

Section Pushes.

Variable cfg : Config.
Variables (s : State) (pool : list Z) (pl : Z -> list Z).
Hypothesis HI : Inv_with cfg s pool pl.

(** A private descriptor whose [nextFree] is the head of the recycle
    list becomes the new head. *)
Lemma step_cons_pool (d c : Z) :
  wf_ptr d -> is_Some (descs s !! d) -> private s pool pl d ->
  nextF s d = desc (AvailDesc s) ->
  Inv_with cfg (set_AvailDesc (mkNode d c) s) (d :: pool) pl.
Proof.
  intros Hwf Hdom (Hnp & Hnl & Hna & Hnm) Hnext.
  destruct HI as [i1 i2 i3 i4 i5 i6 i7 i8 i9 i10].
  constructor.
  - split.
    + simpl. split; [reflexivity|]. split; [destruct Hwf; lia|].
      change (nextF (set_AvailDesc (mkNode d c) s)) with (nextF s).
      rewrite Hnext. apply i1.
    + apply NoDup_cons. split; [exact Hnp|apply i1].
  - intros x Hx. apply elem_of_cons in Hx as [->|Hx]; [|apply i2, Hx].
    split; assumption.
  - exact i3.
  - intros h x Hx. destruct (i4 h x Hx) as (H1 & H2 & H3 & H4).
    split; [exact H1|]. split; [exact H2|]. split; [|exact H4].
    intros Hin. apply elem_of_cons in Hin as [->|Hin]; [|apply H3, Hin].
    apply (Hnl h), Hx.
  - intros h Hh. destruct (i5 h Hh) as (H1 & H2 & H3 & H4).
    split; [exact H1|]. split; [exact H2|]. split; [|exact H4].
    intros Hin. apply elem_of_cons in Hin as [Heq|Hin]; [|apply H3, Hin].
    apply (Hna h Hh). exact Heq.
  - exact i6.
  - intros k x Hk Hx. destruct (i7 k x Hk Hx) as (H1 & H2 & H3 & H4).
    split; [exact H1|]. split; [exact H2|]. split; [|exact H4].
    intros Hin. apply elem_of_cons in Hin as [->|Hin]; [|apply H3, Hin].
    apply (Hnm k), Hk.
  - exact i8.
  - exact i9.
  - exact i10.
Qed.

(** A descriptor on no list whose [nextPartial] is the head of the
    partial list of its heap [h] becomes the new head. *)
Lemma step_cons_partial (h d c : Z) :
  wf_ptr d -> is_Some (descs s !! d) ->
  (d ∉ pool) -> (forall h', d ∉ pl h') ->
  (get_active h s <> 0 -> active_desc s h <> d) ->
  heap (desc_at s d) = Some h ->
  (state (get_anchor d s) = SB_PARTIAL \/ state (get_anchor d s) = SB_EMPTY) ->
  (state (get_anchor d s) = SB_PARTIAL -> 1 <= count (get_anchor d s)) ->
  nextP s d = desc (get_partialList h s) ->
  Inv_with cfg (put_partialList h (mkNode d c) s) pool
           (fun x => if decide (x = h) then d :: pl h else pl x).
Proof.
  intros Hwf Hdom Hnp Hnl Hna Hheap Hst Hcnt Hnext.
  set (s' := put_partialList h _ s).
  assert (Hgp : forall h', get_partialList h' s' =
     if decide (h = h') then mkNode d c else get_partialList h' s).
  { intros h'. unfold get_partialList, s', put_partialList.
    destruct (decide (h = h')) as [<-|Hne].
    - rewrite heap_at_upd_heap_eq. reflexivity.
    - rewrite heap_at_upd_heap_ne by exact Hne. reflexivity. }
  assert (Hga : forall h', get_active h' s' = get_active h' s).
  { intros h'. unfold get_active, s', put_partialList.
    destruct (decide (h = h')) as [<-|Hne].
    - rewrite heap_at_upd_heap_eq. reflexivity.
    - rewrite heap_at_upd_heap_ne by exact Hne. reflexivity. }
  destruct HI as [i1 i2 i3 i4 i5 i6 i7 i8 i9 i10].
  constructor.
  - exact i1.
  - exact i2.
  - intros h'. rewrite Hgp. destruct (decide (h' = h)) as [->|Hne].
    + rewrite decide_True by reflexivity. split.
      * simpl. split; [reflexivity|]. split; [destruct Hwf; lia|].
        change (nextP s') with (nextP s). rewrite Hnext. apply i3.
      * apply NoDup_cons. split; [apply Hnl|apply i3].
    + rewrite decide_False by congruence. apply i3.
  - intros h' x Hx. destruct (decide (h' = h)) as [->|Hne]; [|apply i4, Hx].
    apply elem_of_cons in Hx as [->|Hx]; [|apply i4, Hx].
    change (desc_at s' d) with (desc_at s d).
    change (get_anchor d s') with (get_anchor d s).
    split; [exact Hwf|]. split; [exact Hdom|]. split; [exact Hnp|].
    split; [exact Hheap|]. split; [exact Hst|exact Hcnt].
  - intros h' Hh'. rewrite Hga in Hh'.
    destruct (i5 h' Hh') as (H1 & H2 & H3 & H4 & H5).
    unfold active_desc. rewrite Hga. fold (active_desc s h').
    split; [exact H1|]. split; [exact H2|]. split; [exact H3|].
    split; [|exact H5].
    destruct (decide (h' = h)) as [->|Hne]; [|exact H4].
    intros Hin. apply elem_of_cons in Hin as [Heq|Hin]; [|apply H4, Hin].
    apply (Hna Hh'). exact Heq.
  - exact i6.
  - intros k x Hk Hx.
    destruct (i7 k x Hk Hx) as (H1 & H2 & H3 & H4).
    split; [exact H1|]. split; [exact H2|]. split; [exact H3|].
    unfold s', put_partialList.
    rewrite sb_keys_upd_heap by reflexivity. exact H4.
  - exact i8.
  - exact i9.
  - intros i Hi. unfold s', put_partialList.
    destruct (decide (h = i)) as [<-|Hne].
    + rewrite heap_at_upd_heap_eq. apply i10, Hi.
    + rewrite heap_at_upd_heap_ne by exact Hne. apply i10, Hi.
Qed.

(** The page map has changed: every non-null entry of [s'] is an entry
    of [s] or maps one of the keys [keys] to [v]. *)
Lemma step_pagemap (s' : State) (v : Z) (keys : list Z) :
  AvailDesc s' = AvailDesc s -> Heaps s' = Heaps s -> descs s' = descs s ->
  pageOracle s' = pageOracle s ->
  (forall k x, sPageMap s' !! k = Some x -> x <> 0 ->
     sPageMap s !! k = Some x \/ (x = v /\ k ∈ keys)) ->
  (v <> 0 ->
   wf_ptr v /\ is_Some (descs s !! v) /\ (v ∉ pool) /\
   (heap (desc_at s v) <> None ->
    state (get_anchor v s) <> SB_EMPTY /\
    forall k, k ∈ keys -> k ∈ sb_keys cfg s v)) ->
  Inv_with cfg s' pool pl.
Proof.
  intros HA HH HD HO HP Hv.
  destruct s as [A I H D P M O L], s' as [A' I' H' D' P' M' O' L'].
  simpl in HA, HH, HD, HO, HP. subst A' H' D' O'.
  destruct HI as [i1 i2 i3 i4 i5 i6 i7 i8 i9 i10].
  constructor; try assumption.
  intros k x Hk Hx. destruct (HP k x Hk Hx) as [Hold|[-> Hin]].
  - apply (i7 k x Hold Hx).
  - destruct (Hv Hx) as (H1 & H2 & H3 & H4).
    split; [exact H1|]. split; [exact H2|]. split; [exact H3|].
    intros Hsmall. destruct (H4 Hsmall) as [H5 H6].
    split; [exact H5|]. apply H6, Hin.
Qed.

End Pushes.

(** *** The page map after [UpdatePageMap] *)

Section PageMapKeys.

Variable cfg : Config.

Lemma loop_keys_lookup (ptr v bound : Z) (n : nat) :
  forall (idx : Z) (s : State) (k : Z),
    sPageMap (for_loop n idx bound (PAGE cfg)
                (fun i => SetPageInfo cfg (ptr_add ptr i) v) s) !! k =
    if decide (k ∈ loop_keys cfg n idx bound ptr) then Some v
    else sPageMap s !! k.
Proof.
  induction n as [|n IH]; intros idx s k; cbn [for_loop loop_keys].
  - rewrite decide_False by apply not_elem_of_nil. reflexivity.
  - destruct (decide (idx < bound)) as [Hlt|Hge].
    + rewrite IH. unfold SetPageInfo, set_sPageMap. cbn [sPageMap].
      destruct (decide (k ∈ loop_keys cfg n (idx + PAGE cfg) bound ptr))
        as [Hin|Hnin].
      * rewrite decide_True by (apply elem_of_cons; right; exact Hin).
        reflexivity.
      * destruct (decide (k = page_key cfg (ptr_add ptr idx))) as [->|Hne].
        -- rewrite decide_True by (apply elem_of_cons; left; reflexivity).
           apply lookup_insert_eq.
        -- rewrite decide_False.
           ++ apply lookup_insert_ne. congruence.
           ++ intros Hin. apply elem_of_cons in Hin as [Heq|Hin]; contradiction.
    + rewrite decide_False by apply not_elem_of_nil. reflexivity.
Qed.

Lemma UpdatePageMap_lookup (hp : HeapPtr) (ptr v : Z) (s : State) (k : Z) :
  sPageMap (UpdatePageMap cfg hp ptr v s) !! k =
    if decide (k ∈ map_keys cfg s hp ptr) then Some v else sPageMap s !! k.
Proof.
  destruct hp as [h|]; cbn [UpdatePageMap map_keys].
  - apply loop_keys_lookup.
  - destruct (decide (k = page_key cfg ptr)) as [->|Hne].
    + rewrite decide_True by (apply list_elem_of_singleton; reflexivity).
      unfold SetPageInfo, set_sPageMap. cbn [sPageMap].
      apply lookup_insert_eq.
    + rewrite decide_False by (rewrite list_elem_of_singleton; exact Hne).
      unfold SetPageInfo, set_sPageMap. cbn [sPageMap].
      apply lookup_insert_ne. congruence.
Qed.

Variables (s : State) (pool : list Z) (pl : Z -> list Z).
Hypothesis HI : Inv_with cfg s pool pl.

(** Registering the descriptor [v]. *)
Lemma Inv_UpdatePageMap (hp : HeapPtr) (ptr v : Z) :
  (v <> 0 ->
   wf_ptr v /\ is_Some (descs s !! v) /\ (v ∉ pool) /\
   (heap (desc_at s v) <> None ->
    state (get_anchor v s) <> SB_EMPTY /\
    forall k, k ∈ map_keys cfg s hp ptr -> k ∈ sb_keys cfg s v)) ->
  Inv_with cfg (UpdatePageMap cfg hp ptr v s) pool pl.
Proof.
  intros Hv.
  destruct (UpdatePageMap_frame cfg hp ptr v s)
    as (HA & _ & HH & HD & _ & HO & _).
  apply (step_pagemap cfg s pool pl HI _ v (map_keys cfg s hp ptr));
    try assumption.
  intros k x Hk Hx. rewrite UpdatePageMap_lookup in Hk.
  destruct (decide (k ∈ map_keys cfg s hp ptr)) as [Hin|Hnin].
  - right. split; [congruence|exact Hin].
  - left. exact Hk.
Qed.

(** Unregistering: the keys written no longer map to a descriptor. *)
Lemma UpdatePageMap_null_entries (hp : HeapPtr) (ptr : Z) (k x : Z) :
  sPageMap (UpdatePageMap cfg hp ptr 0 s) !! k = Some x -> x <> 0 ->
  sPageMap s !! k = Some x /\ (k ∉ map_keys cfg s hp ptr).
Proof.
  intros Hk Hx. rewrite UpdatePageMap_lookup in Hk.
  destruct (decide (k ∈ map_keys cfg s hp ptr)) as [Hin|Hnin].
  - congruence.
  - split; assumption.
Qed.

End PageMapKeys.

(** *** Descriptor updates *)

Section DescUpdates.

Variable cfg : Config.
Variables (s : State) (pool : list Z) (pl : Z -> list Z).
Hypothesis HI : Inv_with cfg s pool pl.

Lemma step_upd_desc (d : Z) (f : Descriptor -> Descriptor) :
  (forall p, p ∈ pageOracle s -> d < p) ->
  (d ∈ pool -> desc (nextFree (f (desc_at s d))) = nextF s d) ->
  (forall h, d ∈ pl h ->
     desc (nextPartial (f (desc_at s d))) = nextP s d /\
     heap (f (desc_at s d)) = Some h /\
     (state (anchor (f (desc_at s d))) = SB_PARTIAL \/
      state (anchor (f (desc_at s d))) = SB_EMPTY) /\
     (state (anchor (f (desc_at s d))) = SB_PARTIAL ->
      1 <= count (anchor (f (desc_at s d))))) ->
  (forall h, get_active h s <> 0 -> active_desc s h = d ->
     heap (f (desc_at s d)) = Some h /\
     state (anchor (f (desc_at s d))) <> SB_FULL) ->
  (heap (f (desc_at s d)) <> None ->
     0 <= count (anchor (f (desc_at s d)))
       <= maxcount (f (desc_at s d)) - 1 /\
     maxcount (f (desc_at s d)) <= 2 ^ 25) ->
  (forall k, sPageMap s !! k = Some d -> d <> 0 ->
     heap (f (desc_at s d)) <> None ->
     state (anchor (f (desc_at s d))) <> SB_EMPTY /\
     k ∈ map_keys cfg s (heap (f (desc_at s d)))
           (superblock (f (desc_at s d)))) ->
  Inv_with cfg (upd_desc d f s) pool pl.
Proof.
  intros Hfresh Hpool Hmem Hact Hcnt Hpm.
  assert (Hd : desc_at (upd_desc d f s) d = f (desc_at s d))
    by apply desc_at_upd_desc_eq.
  apply (step_desc cfg s (upd_desc d f s) pool pl HI d); try reflexivity.
  - intros x Hx. unfold upd_desc. simpl. apply lookup_insert_ne. congruence.
  - unfold upd_desc. simpl. rewrite lookup_insert_eq. eexists. reflexivity.
  - exact Hfresh.
  - unfold nextF at 1. rewrite Hd. exact Hpool.
  - unfold nextP at 1, get_anchor. rewrite Hd. exact Hmem.
  - unfold get_anchor. rewrite Hd. exact Hact.
  - unfold get_anchor. rewrite Hd. exact Hcnt.
  - unfold get_anchor, sb_keys. rewrite Hd. exact Hpm.
Qed.

(** An anchor update on a descriptor the allocator knows. *)
Lemma step_put_anchor (d : Z) (a : Anchor) :
  is_Some (descs s !! d) ->
  (forall h, d ∈ pl h ->
     (state a = SB_PARTIAL \/ state a = SB_EMPTY) /\
     (state a = SB_PARTIAL -> 1 <= count a)) ->
  (forall h, get_active h s <> 0 -> active_desc s h = d ->
     state a <> SB_FULL) ->
  (heap (desc_at s d) <> None ->
     0 <= count a <= maxcount (desc_at s d) - 1) ->
  (forall k, sPageMap s !! k = Some d -> d <> 0 ->
     heap (desc_at s d) <> None -> state a <> SB_EMPTY) ->
  Inv_with cfg (put_anchor d a s) pool pl.
Proof.
  intros Hdom Hmem Hact Hcnt Hpm. unfold put_anchor.
  apply step_upd_desc.
  - intros p Hp. apply (iw_fresh _ _ _ _ HI d p Hdom Hp).
  - reflexivity.
  - intros h Hh. destruct (Hmem h Hh) as [H1 H2].
    destruct (iw_member _ _ _ _ HI h d Hh) as (_ & _ & _ & Hheap & _).
    simpl. auto.
  - intros h Hh Heq. simpl. split; [|apply (Hact h Hh Heq)].
    destruct (iw_active _ _ _ _ HI h Hh) as (_ & _ & _ & _ & Hheap & _).
    rewrite Heq in Hheap. exact Hheap.
  - simpl. intros Hsmall. split; [apply Hcnt, Hsmall|].
    apply (iw_count _ _ _ _ HI d Hsmall).
  - simpl. intros k Hk Hd0 Hsmall. split; [apply (Hpm k Hk Hd0 Hsmall)|].
    destruct (iw_pagemap _ _ _ _ HI k d Hk Hd0) as (_ & _ & _ & H4).
    apply H4, Hsmall.
Qed.

End DescUpdates.

(** *** Retry loops that return *)

Lemma cas_update_inv {L V : Type} `{EqDecision V} (get : State -> V)
      (put : V -> State -> State) (body : V -> L -> State -> L * V * State)
      fuel old l s r l1 new s1 :
  cas_update fuel get put body old l s = Some r ->
  body old l s = (l1, new, s1) ->
  get s1 = old ->
  r = (l1, old, new, put new s1).
Proof.
  intros Hr Hb Hg. destruct fuel as [|fuel]; [discriminate|].
  rewrite (cas_update_once get put body fuel old l s l1 new s1 Hb Hg) in Hr.
  congruence.
Qed.

Lemma cas_loop_inv_next {L V R : Type} `{EqDecision V} (get : State -> V)
      (put : V -> State -> State)
      (body : V -> L -> State -> LoopStep L V R * State)
      fuel old l s r l1 new s1 :
  cas_loop fuel get put body old l s = Some r ->
  body old l s = (Next l1 new, s1) ->
  get s1 = old ->
  r = (inl (l1, old, new), put new s1).
Proof.
  intros Hr Hb Hg. destruct fuel as [|fuel]; [discriminate|].
  rewrite (cas_loop_next get put body fuel old l s l1 new s1 Hb Hg) in Hr.
  congruence.
Qed.

Lemma cas_loop_inv_exit {L V R : Type} `{EqDecision V} (get : State -> V)
      (put : V -> State -> State)
      (body : V -> L -> State -> LoopStep L V R * State)
      fuel old l s r x s1 :
  cas_loop fuel get put body old l s = Some r ->
  body old l s = (Exit x, s1) ->
  r = (inr x, s1).
Proof.
  intros Hr Hb. destruct fuel as [|fuel]; [discriminate|].
  rewrite (cas_loop_exit get put body fuel old l s x s1 Hb) in Hr.
  congruence.
Qed.

Lemma cas_update_result {L V : Type} `{EqDecision V} (get : State -> V)
      (put : V -> State -> State) (body : V -> L -> State -> L * V * State)
      fuel old l s r :
  cas_update fuel get put body old l s = Some r ->
  get (snd (body old l s)) = old ->
  r = (fst (fst (body old l s)), old, snd (fst (body old l s)),
       put (snd (fst (body old l s))) (snd (body old l s))).
Proof.
  intros Hr Hg. destruct (body old l s) as [[l1 new] s1] eqn:Hb.
  apply (cas_update_inv get put body fuel old l s r l1 new s1 Hr Hb Hg).
Qed.

(** *** The functions of the allocator *)

Section Functions.

Variable cfg : Config.
Hypothesis Hcfg : cfg_ok cfg.

Lemma private_same (s s' : State) pool pl d :
  Heaps s' = Heaps s -> sPageMap s' = sPageMap s ->
  private s pool pl d -> private s' pool pl d.
Proof.
  intros HH HP (H1 & H2 & H3 & H4).
  assert (Hga : forall h, get_active h s' = get_active h s)
    by (intros h; unfold get_active, heap_at; rewrite HH; reflexivity).
  split; [exact H1|]. split; [exact H2|]. split.
  - intros h. unfold active_desc. rewrite Hga. apply H3.
  - intros k. rewrite HP. apply H4.
Qed.

Lemma Inv_DescRetire fuel d s s' pool pl :
  Inv_with cfg s pool pl ->
  wf_ptr d -> is_Some (descs s !! d) -> private s pool pl d ->
  DescRetire fuel d s = Some s' ->
  Inv_with cfg s' (d :: pool) pl.
Proof.
  intros HI Hwf Hdom Hpriv Hr.
  destruct fuel as [|fuel]; [discriminate|].
  rewrite DescRetire_pushes in Hr. injection Hr as <-.
  destruct Hpriv as (Hnp & Hnl & Hna & Hnm).
  set (s1 := upd_desc d (with_nextFree (AvailDesc s)) s).
  assert (H1 : Inv_with cfg s1 pool pl).
  { apply step_upd_desc; [exact HI|..].
    - intros p Hp. apply (iw_fresh _ _ _ _ HI d p Hdom Hp).
    - intros Hin. contradiction.
    - intros h Hin. destruct (Hnl h Hin).
    - intros h Hh Heq. destruct (Hna h Hh Heq).
    - simpl. apply (iw_count _ _ _ _ HI d).
    - intros k Hk. destruct (Hnm k Hk). }
  apply step_cons_pool; [exact H1|exact Hwf|..].
  - unfold s1, upd_desc. simpl. rewrite lookup_insert_eq. eexists. reflexivity.
  - apply (private_same s); try reflexivity.
    split; [exact Hnp|]. split; [exact Hnl|]. split; [exact Hna|exact Hnm].
  - unfold nextF, s1. rewrite desc_at_upd_desc_eq. reflexivity.
Qed.

Lemma Inv_HeapPushPartial fuel h d s s' pool pl :
  Inv_with cfg s pool pl ->
  wf_ptr d -> is_Some (descs s !! d) ->
  (d ∉ pool) -> (forall h', d ∉ pl h') ->
  (get_active h s <> 0 -> active_desc s h <> d) ->
  heap (desc_at s d) = Some h ->
  (state (get_anchor d s) = SB_PARTIAL \/ state (get_anchor d s) = SB_EMPTY) ->
  (state (get_anchor d s) = SB_PARTIAL -> 1 <= count (get_anchor d s)) ->
  HeapPushPartial fuel d s = Some s' ->
  Inv_with cfg s' pool (fun x => if decide (x = h) then d :: pl h else pl x).
Proof.
  intros HI Hwf Hdom Hnp Hnl Hna Hheap Hst Hcnt Hr.
  unfold HeapPushPartial, ListPushPartial in Hr. rewrite Hheap in Hr.
  set (oldHead := get_partialList h s) in *.
  set (newHead := mkNode d (u64 (counter oldHead + 1))) in *.
  destruct (cas_update fuel _ _ _ _ _ _) as [[[[u o] n] s1]|] eqn:Hloop;
    [|discriminate].
  injection Hr as <-.
  apply cas_update_result in Hloop; [|reflexivity].
  cbn [fst snd] in Hloop. injection Hloop as _ _ _ ->.
  unfold newHead at 1. cbn [desc].
  set (s1 := upd_desc d (with_nextPartial oldHead) s).
  assert (H1 : Inv_with cfg s1 pool pl).
  { apply step_upd_desc; [exact HI|..].
    - intros p Hp. apply (iw_fresh _ _ _ _ HI d p Hdom Hp).
    - reflexivity.
    - intros h' Hin. destruct (Hnl h' Hin).
    - intros h' Hh Heq. simpl.
      destruct (iw_active _ _ _ _ HI h' Hh) as (_ & _ & _ & _ & H5 & H6).
      rewrite Heq in H5, H6. split; assumption.
    - simpl. apply (iw_count _ _ _ _ HI d).
    - simpl. intros k Hk Hd0 Hsmall.
      destruct (iw_pagemap _ _ _ _ HI k d Hk Hd0) as (_ & _ & _ & H4).
      apply H4, Hsmall. }
  assert (Hd1 : desc_at s1 d = with_nextPartial oldHead (desc_at s d))
    by apply desc_at_upd_desc_eq.
  assert (Ha1 : get_anchor d s1 = get_anchor d s)
    by (unfold get_anchor; rewrite Hd1; reflexivity).
  apply step_cons_partial; [exact H1|exact Hwf|..].
  - unfold s1, upd_desc. simpl. rewrite lookup_insert_eq. eexists. reflexivity.
  - exact Hnp.
  - exact Hnl.
  - exact Hna.
  - rewrite Hd1. exact Hheap.
  - rewrite Ha1. exact Hst.
  - rewrite Ha1. exact Hcnt.
  - unfold nextP. rewrite Hd1. reflexivity.
Qed.

Lemma Inv_UpdateActive fuel h d credits s s' pool pl :
  Inv_with cfg s pool pl ->
  1 <= credits <= 64 ->
  0 <= d < 2 ^ 64 -> d mod 64 = 0 -> d <> 0 ->
  is_Some (descs s !! d) -> (d ∉ pool) -> (d ∉ pl h) ->
  heap (desc_at s d) = Some h -> state (get_anchor d s) <> SB_FULL ->
  UpdateActive fuel h d credits s = Some s' ->
  Inv_with cfg s' pool pl.
Proof.
  intros HI Hc Hd Hal Hd0 Hdom Hnp Hnl Hheap Hst Hr.
  rewrite UpdateActive_installs in Hr. injection Hr as <-.
  apply step_active; [exact HI|]. intros _.
  rewrite u64_small by lia.
  rewrite GetActive_MakeActive by (try assumption; lia).
  cbn [fst]. auto 10.
Qed.

(** The anchor update of [MallocFromActive], as a function of the old
    anchor and the credits left in the active word. *)
Lemma MallocFromActive_pop_spec d c a l s :
  snd l = 0 -> 0 <= count a < 2 ^ 25 ->
  snd (MallocFromActive_pop d c a l s) = s /\
  0 <= count (snd (fst (MallocFromActive_pop d c a l s))) <= count a /\
  (c <> 0 ->
   state (snd (fst (MallocFromActive_pop d c a l s))) = state a /\
   snd (fst (fst (MallocFromActive_pop d c a l s))) = 0) /\
  (c = 0 -> count a = 0 ->
   state (snd (fst (MallocFromActive_pop d c a l s))) = SB_FULL /\
   snd (fst (fst (MallocFromActive_pop d c a l s))) = 0) /\
  (c = 0 -> count a <> 0 ->
   state (snd (fst (MallocFromActive_pop d c a l s))) = state a /\
   1 <= snd (fst (fst (MallocFromActive_pop d c a l s))) <= 64).
Proof.
  intros Hl Ha. unfold MallocFromActive_pop.
  destruct (decide (c = 0)) as [Hc|Hc].
  - destruct (decide (count a = 0)) as [Hz|Hnz]; cbn [fst snd].
    + split; [reflexivity|]. simpl. split; [lia|].
      split; [intros; contradiction|]. split; [auto|intros; contradiction].
    + split; [reflexivity|]. simpl.
      assert (Hm : 0 <= count a - Z.min (count a) CREDITS_MAX <= count a)
        by (change CREDITS_MAX with 64; lia).
      rewrite bits25_small by lia.
      split; [lia|]. split; [intros; contradiction|].
      split; [intros; contradiction|]. intros _ _. split; [reflexivity|].
      change CREDITS_MAX with 64. lia.
  - cbn [fst snd]. split; [reflexivity|]. simpl. split; [lia|].
    split; [auto|]. split; intros; contradiction.
Qed.

Lemma Inv_MallocFromActive fuel h s p s' pool pl :
  Inv_with cfg s pool pl ->
  MallocFromActive fuel h s = Some (p, s') ->
  Inv_with cfg s' pool pl.
Proof.
  intros HI Hr. unfold MallocFromActive, MallocFromActive_take in Hr.
  destruct (cas_loop fuel _ _ _ _ _ _) as [[[[[c w] w']|r] s1]|] eqn:Hloop;
    [| |discriminate].
  2:{ (* no active superblock *)
      destruct (decide (get_active h s = 0)) as [Hz|Hnz].
      - apply cas_loop_inv_exit with (x := 0) (s1 := s) in Hloop;
          [|rewrite decide_True by exact Hz; reflexivity].
        injection Hloop as -> ->.
        rewrite decide_False in Hr by lia. injection Hr as _ <-. exact HI.
      - destruct (GetActive (get_active h s)) as [d0 c0] eqn:Hga.
        apply cas_loop_inv_next
          with (l1 := c0)
               (new := if decide (c0 > 0) then MakeActive d0 (c0 - 1) else 0)
               (s1 := s) in Hloop;
          [discriminate Hloop| |reflexivity].
        rewrite decide_False by exact Hnz. rewrite Hga. reflexivity. }
  destruct (decide (get_active h s = 0)) as [Hz|Hnz].
  { apply cas_loop_inv_exit with (x := 0) (s1 := s) in Hloop;
      [discriminate Hloop|]. rewrite decide_True by exact Hz. reflexivity. }
  destruct (GetActive (get_active h s)) as [d c0] eqn:Hga.
  set (wnew := if decide (c0 > 0) then MakeActive d (c0 - 1) else 0) in *.
  apply cas_loop_inv_next with (l1 := c0) (new := wnew) (s1 := s) in Hloop;
    [|rewrite decide_False by exact Hnz; rewrite Hga; reflexivity|reflexivity].
  injection Hloop as -> -> -> ->.
  assert (Hd : Z.land (get_active h s) (u64 (Z.lnot CREDITS_MASK)) = d)
    by (unfold GetActive in Hga; congruence).
  rewrite Hd in Hr.
  assert (Had : active_desc s h = d) by (unfold active_desc; rewrite Hga; reflexivity).
  destruct (iw_active _ _ _ _ HI h Hnz) as (Hd0 & Hdom & Hnp & Hnl & Hheap & Hst).
  rewrite Had in Hd0, Hdom, Hnp, Hnl, Hheap, Hst.
  pose proof (GetActive_fst_wf (get_active h s)) as [Hdr Hdal].
  pose proof (GetActive_snd_range (get_active h s)) as Hcr.
  rewrite Hga in Hdr, Hdal, Hcr. cbn [fst snd] in Hdr, Hdal, Hcr.
  assert (Hsmall : heap (desc_at s d) <> None) by (rewrite Hheap; discriminate).
  destruct (iw_count _ _ _ _ HI d Hsmall) as [Hcnt Hmc].
  (* the active word *)
  set (s1 := put_active h wnew s) in *.
  assert (H1 : Inv_with cfg s1 pool pl).
  { apply step_active; [exact HI|]. intros Hw. unfold wnew in Hw |- *.
    destruct (decide (c0 > 0)) as [Hpos|Hnpos]; [|contradiction].
    rewrite GetActive_MakeActive by (try assumption; lia).
    cbn [fst]. auto 10. }
  (* the anchor *)
  destruct (cas_update fuel _ _ _ _ _ _) as [[[[[ptr credits] o] newA] s2]|]
    eqn:Hpop; [|discriminate].
  apply cas_update_result in Hpop;
    [|destruct (MallocFromActive_pop_spec d c0 (get_anchor d s1) (0, 0) s1
                  eq_refl) as (Hs & _); [change (get_anchor d s1) with (get_anchor d s); lia|];
      rewrite Hs; reflexivity].
  change (get_anchor d s1) with (get_anchor d s) in Hpop.
  destruct (MallocFromActive_pop_spec d c0 (get_anchor d s) (0, 0) s1 eq_refl)
    as (Hs & Hcn & Hc1 & Hc2 & Hc3); [lia|].
  set (r := MallocFromActive_pop d c0 (get_anchor d s) (0, 0) s1) in *.
  rewrite Hs in Hpop.
  assert (Hptr : fst (fst r) = (ptr, credits)) by congruence.
  assert (HnewA : snd (fst r) = newA) by congruence.
  assert (Hs2 : s2 = put_anchor d newA s1) by congruence.
  assert (Hcred : snd (fst (fst r)) = credits) by (rewrite Hptr; reflexivity).
  rewrite HnewA, Hcred in *. clear Hpop Hptr.
  assert (Hnotmem : forall h', d ∉ pl h').
  { intros h' Hin.
    destruct (iw_member _ _ _ _ HI h' d Hin) as (_ & _ & _ & Hh' & _).
    assert (h' = h) by congruence. subst h'. contradiction. }
  assert (H2 : Inv_with cfg s2 pool pl).
  { subst s2. apply step_put_anchor; [exact H1|exact Hdom|..].
    - intros h' Hin. destruct (Hnotmem h' Hin).
    - intros h' Hh' Heq.
      destruct (decide (h' = h)) as [->|Hne].
      + unfold s1 in Hh'. rewrite get_active_put_active in Hh'.
        unfold wnew in Hh'.
        destruct (decide (c0 > 0)) as [Hpos|Hnpos]; [|contradiction].
        destruct (Hc1 ltac:(lia)) as [Hsa _]. rewrite Hsa. exact Hst.
      + exfalso.
        destruct (iw_active _ _ _ _ H1 h' Hh') as (_ & _ & _ & _ & Hh'' & _).
        rewrite Heq in Hh''. change (desc_at s1 d) with (desc_at s d) in Hh''.
        congruence.
    - intros _. change (desc_at s1 d) with (desc_at s d). lia.
    - intros k Hk Hdz _. change (sPageMap s1) with (sPageMap s) in Hk.
      destruct (iw_pagemap _ _ _ _ HI k d Hk Hdz) as (_ & _ & _ & Hpm).
      destruct (Hpm Hsmall) as [Hne _].
      destruct (decide (c0 = 0)) as [Hcz|Hcnz].
      * destruct (decide (count (get_anchor d s) = 0)) as [Hz|Hnz'].
        -- destruct (Hc2 Hcz Hz) as [-> _]. discriminate.
        -- destruct (Hc3 Hcz Hnz') as [-> _]. exact Hne.
      * destruct (Hc1 Hcnz) as [-> _]. exact Hne. }
  destruct (decide (credits > 0)) as [Hpos|Hnpos].
  - destruct (UpdateActive fuel h d credits s2) as [s3|] eqn:Hup; [|discriminate].
    injection Hr as _ <-.
    assert (Hc0 : c0 = 0).
    { destruct (decide (c0 = 0)) as [Hcz|Hcnz]; [exact Hcz|].
      destruct (Hc1 Hcnz) as [_ Hz]. lia. }
    assert (Hnz' : count (get_anchor d s) <> 0).
    { intros Hz. destruct (Hc2 Hc0 Hz) as [_ Hz']. lia. }
    destruct (Hc3 Hc0 Hnz') as [Hsa Hrange].
    apply (Inv_UpdateActive fuel h d credits s2 s3 pool pl H2); try assumption.
    + subst s2. unfold put_anchor, upd_desc. simpl.
      rewrite lookup_insert_eq. eexists. reflexivity.
    + subst s2. unfold put_anchor. rewrite desc_at_upd_desc_eq. exact Hheap.
    + subst s2. rewrite get_anchor_put_anchor, Hsa. exact Hst.
  - injection Hr as _ <-. exact H2.
Qed.

(** Replacing the recycle list. *)
Lemma step_set_avail n s pool0 pool pl :
  Inv_with cfg s pool0 pl ->
  chain (nextF s) (desc n) pool -> NoDup pool ->
  (forall x, x ∈ pool ->
     wf_ptr x /\ is_Some (descs s !! x) /\ (forall h, x ∉ pl h) /\
     (forall h, get_active h s <> 0 -> active_desc s h <> x) /\
     (forall k, sPageMap s !! k <> Some x)) ->
  Inv_with cfg (set_AvailDesc n s) pool pl.
Proof.
  intros HI Hch Hnd Hx.
  destruct HI as [i1 i2 i3 i4 i5 i6 i7 i8 i9 i10].
  constructor.
  - split; [exact Hch|exact Hnd].
  - intros x Hin. destruct (Hx x Hin) as (H1 & H2 & _). split; assumption.
  - exact i3.
  - intros h x Hin. destruct (i4 h x Hin) as (H1 & H2 & H3 & H4).
    split; [exact H1|]. split; [exact H2|]. split; [|exact H4].
    intros Hp. destruct (Hx x Hp) as (_ & _ & Hl & _). apply (Hl h Hin).
  - intros h Hh. destruct (i5 h Hh) as (H1 & H2 & H3 & H4).
    split; [exact H1|]. split; [exact H2|]. split; [|exact H4].
    intros Hp. destruct (Hx _ Hp) as (_ & _ & _ & Ha & _).
    apply (Ha h Hh). reflexivity.
  - exact i6.
  - intros k x Hk Hx0. destruct (i7 k x Hk Hx0) as (H1 & H2 & H3 & H4).
    split; [exact H1|]. split; [exact H2|]. split; [|exact H4].
    intros Hp. destruct (Hx _ Hp) as (_ & _ & _ & _ & Hm). apply (Hm k Hk).
  - exact i8.
  - exact i9.
  - exact i10.
Qed.

(** Descriptors handed out by the recycle list. *)
Lemma Inv_DescAlloc_pool fuel s d s' pool pl :
  Inv_with cfg s pool pl ->
  desc (AvailDesc s) <> 0 ->
  DescAlloc cfg fuel s = Some (d, s') ->
  exists pool',
    Inv_with cfg s' pool' pl /\ wf_ptr d /\ is_Some (descs s' !! d) /\
    private s' pool' pl d /\ Heaps s' = Heaps s /\ sPageMap s' = sPageMap s.
Proof.
  intros HI Hhd Hr. unfold DescAlloc in Hr.
  destruct fuel as [|fuel]; [discriminate|]. cbn [DescAlloc_loop] in Hr.
  rewrite decide_False in Hr by exact Hhd.
  rewrite decide_True in Hr by reflexivity. injection Hr as <- <-.
  destruct (iw_pool _ _ _ _ HI) as [Hch Hnd].
  destruct (chain_nonnull _ _ _ Hhd Hch) as (l & Hpool & _).
  exists l. fold (nextF s (desc (AvailDesc s))).
  assert (Hin : desc (AvailDesc s) ∈ pool)
    by (rewrite Hpool; apply elem_of_cons; left; reflexivity).
  destruct (iw_pool_wf _ _ _ _ HI _ Hin) as [Hwf Hdom].
  split; [apply (step_pop_pool cfg s pool pl HI _ _ l Hpool)|].
  split; [exact Hwf|]. split; [exact Hdom|]. split; [|split; reflexivity].
  rewrite Hpool in Hnd. apply NoDup_cons in Hnd as [Hnl _].
  split; [exact Hnl|]. split; [|split].
  - intros h Hm. destruct (iw_member _ _ _ _ HI h _ Hm) as (_ & _ & Hnp & _).
    contradiction.
  - intros h Hh Heq.
    change (get_active h (set_AvailDesc ?n s)) with (get_active h s) in Hh.
    destruct (iw_active _ _ _ _ HI h Hh) as (_ & _ & Hnp & _).
    change (active_desc (set_AvailDesc ?n s) h) with (active_desc s h) in Heq.
    rewrite Heq in Hnp. contradiction.
  - intros k Hk. change (sPageMap (set_AvailDesc ?n s)) with (sPageMap s) in Hk.
    destruct (iw_pagemap _ _ _ _ HI k _ Hk Hhd) as (_ & _ & Hnp & _).
    contradiction.
Qed.

(** The descriptors carved out of a fresh block. *)
Lemma carve_list_bounds ptr fuel :
  forall cur x, 0 <= cur -> x ∈ carve_list cfg fuel ptr cur ->
    cur <= x /\ x + sizeof_Descriptor cfg < ptr + DESCRIPTOR_BLOCK_SZ cfg.
Proof.
  induction fuel as [|fuel IH]; intros cur x Hcur Hx; cbn [carve_list] in Hx.
  - apply elem_of_nil in Hx. destruct Hx.
  - destruct (decide (cur + sizeof_Descriptor cfg < ptr + DESCRIPTOR_BLOCK_SZ cfg))
      as [Hlt|Hge]; [|apply elem_of_nil in Hx; destruct Hx].
    apply elem_of_cons in Hx as [->|Hx]; [lia|].
    pose proof (ok_sizeof cfg Hcfg) as Hsz.
    destruct (ok_align cfg Hcfg (cur + sizeof_Descriptor cfg) ltac:(lia))
      as [Hle _].
    assert (Hc' : 0 <= ALIGN_ADDR cfg (cur + sizeof_Descriptor cfg) (CACHELINE cfg))
      by lia.
    destruct (IH _ x Hc' Hx) as [H1 H2]. lia.
Qed.

Lemma carve_list_aligned ptr fuel :
  forall cur x, 0 <= cur -> cur mod 64 = 0 ->
    x ∈ carve_list cfg fuel ptr cur -> x mod 64 = 0.
Proof.
  induction fuel as [|fuel IH]; intros cur x Hcur Hal Hx; cbn [carve_list] in Hx.
  - apply elem_of_nil in Hx. destruct Hx.
  - destruct (decide (cur + sizeof_Descriptor cfg < ptr + DESCRIPTOR_BLOCK_SZ cfg))
      as [Hlt|Hge]; [|apply elem_of_nil in Hx; destruct Hx].
    apply elem_of_cons in Hx as [->|Hx]; [exact Hal|].
    pose proof (ok_sizeof cfg Hcfg) as Hsz.
    destruct (ok_align cfg Hcfg (cur + sizeof_Descriptor cfg) ltac:(lia))
      as [Hle Ha].
    assert (Hc' : 0 <= ALIGN_ADDR cfg (cur + sizeof_Descriptor cfg) (CACHELINE cfg))
      by lia.
    apply (IH _ x Hc' Ha Hx).
Qed.

Lemma carve_list_NoDup ptr fuel :
  forall cur, 0 <= cur -> NoDup (carve_list cfg fuel ptr cur).
Proof.
  induction fuel as [|fuel IH]; intros cur Hcur; cbn [carve_list].
  - apply NoDup_nil_2.
  - destruct (decide (cur + sizeof_Descriptor cfg < ptr + DESCRIPTOR_BLOCK_SZ cfg))
      as [Hlt|Hge]; [|apply NoDup_nil_2].
    pose proof (ok_sizeof cfg Hcfg) as Hsz.
    destruct (ok_align cfg Hcfg (cur + sizeof_Descriptor cfg) ltac:(lia))
      as [Hle _].
    apply NoDup_cons. split; [|apply IH; lia].
    intros Hin. apply carve_list_bounds in Hin; lia.
Qed.

(** The inner loop of [DescAlloc] on a block at [ptr], above every
    descriptor in use: the invariant is kept (nothing is on the recycle
    list yet), and each descriptor carved is linked to the next. *)
Lemma carve_run ptr B pl fuel :
  forall cur prev s prev' s2,
    Inv_with cfg s [] pl ->
    (forall h x, x ∈ pl h -> x < B) ->
    (forall h, get_active h s <> 0 -> active_desc s h < B) ->
    (forall k x, sPageMap s !! k = Some x -> x < B) ->
    (forall p, p ∈ pageOracle s -> ptr + DESCRIPTOR_BLOCK_SZ cfg <= p) ->
    0 < B -> B <= cur -> (prev <> 0 -> B <= prev < cur) ->
    DescAlloc_carve cfg fuel ptr cur prev s = Some (prev', s2) ->
    Inv_with cfg s2 [] pl /\
    prev' = default prev (last (carve_list cfg fuel ptr cur)) /\
    AvailDesc s2 = AvailDesc s /\ Heaps s2 = Heaps s /\
    sPageMap s2 = sPageMap s /\ pageOracle s2 = pageOracle s /\
    (forall x, x <> prev -> x ∉ carve_list cfg fuel ptr cur ->
               descs s2 !! x = descs s !! x) /\
    (prev <> 0 -> forall y L', carve_list cfg fuel ptr cur = y :: L' ->
       nextF s2 prev = y /\ is_Some (descs s2 !! prev)) /\
    (forall i x y, carve_list cfg fuel ptr cur !! i = Some x ->
       carve_list cfg fuel ptr cur !! S i = Some y ->
       nextF s2 x = y /\ is_Some (descs s2 !! x)).
Proof.
  pose proof (ok_sizeof cfg Hcfg) as Hsz.
  induction fuel as [|fuel IH];
    intros cur prev s prev' s2 HI Hpl Hact Hpm Hor HB Hcur Hprev Hr;
    [discriminate|].
  cbn [DescAlloc_carve carve_list] in *.
  destruct (decide (cur + sizeof_Descriptor cfg < ptr + DESCRIPTOR_BLOCK_SZ cfg))
    as [Hlt|Hge].
  2:{ injection Hr as <- <-. cbn [last default].
      split; [exact HI|]. split; [reflexivity|]. split; [reflexivity|].
      split; [reflexivity|]. split; [reflexivity|]. split; [reflexivity|].
      split; [reflexivity|]. split.
      - intros _ y L' Hnil. discriminate.
      - intros i x y Hx. rewrite lookup_nil in Hx. discriminate. }
  set (cur' := ALIGN_ADDR cfg (cur + sizeof_Descriptor cfg) (CACHELINE cfg)) in *.
  destruct (ok_align cfg Hcfg (cur + sizeof_Descriptor cfg) ltac:(lia))
    as [Hle _]. fold cur' in Hle.
  set (s1 := if decide (prev = 0) then s
             else upd_desc prev (with_nextFree (mkNode cur 0)) s) in *.
  assert (HH1 : AvailDesc s1 = AvailDesc s /\ Heaps s1 = Heaps s /\
                sPageMap s1 = sPageMap s /\ pageOracle s1 = pageOracle s).
  { unfold s1. destruct (decide (prev = 0)); repeat split. }
  destruct HH1 as (HA1 & HHp1 & HP1 & HO1).
  assert (HI1 : Inv_with cfg s1 [] pl).
  { unfold s1. destruct (decide (prev = 0)) as [Hz|Hnz]; [exact HI|].
    apply step_upd_desc; [exact HI|..].
    - intros p Hp. specialize (Hor p Hp). specialize (Hprev Hnz). lia.
    - intros Hin. apply elem_of_nil in Hin. destruct Hin.
    - intros h Hin. specialize (Hpl h prev Hin). specialize (Hprev Hnz). lia.
    - intros h Hh Heq. specialize (Hact h Hh). specialize (Hprev Hnz). lia.
    - simpl. apply (iw_count _ _ _ _ HI prev).
    - intros k Hk. specialize (Hpm k prev Hk). specialize (Hprev Hnz). lia. }
  assert (Hga1 : forall h, get_active h s1 = get_active h s)
    by (intros h; unfold get_active, heap_at; rewrite HHp1; reflexivity).
  destruct (IH cur' cur s1 prev' s2 HI1 Hpl) as
    (HI2 & Hlast & HA2 & HHp2 & HP2 & HO2 & Hfr2 & Hhd2 & Hlk2);
    try lia; try exact Hr.
  { intros h Hh. rewrite Hga1 in Hh. unfold active_desc. rewrite Hga1.
    apply (Hact h Hh). }
  { intros k x Hk. rewrite HP1 in Hk. apply (Hpm k x Hk). }
  { intros p Hp. rewrite HO1 in Hp. apply (Hor p Hp). }
  set (L' := carve_list cfg fuel ptr cur') in *.
  assert (Hcur0 : cur <> 0) by lia.
  split; [exact HI2|]. split.
  { rewrite last_cons. rewrite Hlast. destruct (last L'); reflexivity. }
  split; [congruence|]. split; [congruence|]. split; [congruence|].
  split; [congruence|]. split; [|split].
  - intros x Hx Hnin. rewrite Hfr2.
    + unfold s1. destruct (decide (prev = 0)); [reflexivity|].
      unfold upd_desc. simpl. apply lookup_insert_ne. congruence.
    + intros ->. apply Hnin. apply elem_of_cons. left. reflexivity.
    + intros Hin. apply Hnin. apply elem_of_cons. right. exact Hin.
  - intros Hnz y L0 Heq. injection Heq as <- <-.
    specialize (Hprev Hnz).
    assert (Hsame : descs s2 !! prev = descs s1 !! prev).
    { apply Hfr2; [lia|]. intros Hin.
      apply carve_list_bounds in Hin; lia. }
    unfold nextF, desc_at. rewrite Hsame. unfold s1.
    rewrite decide_False by exact Hnz. unfold upd_desc. simpl.
    rewrite lookup_insert_eq. simpl. split; [reflexivity|]. eexists. reflexivity.
  - intros i x y Hx Hy. destruct i as [|i].
    + simpl in Hx, Hy. injection Hx as <-.
      destruct L' as [|y' L0] eqn:HL'; [discriminate|].
      simpl in Hy. injection Hy as <-.
      apply (Hhd2 Hcur0 y' L0 eq_refl).
    + simpl in Hx, Hy. apply (Hlk2 i x y Hx Hy).
Qed.

Lemma oracle_ok_head p rest :
  oracle_ok cfg (p :: rest) ->
  0 < p /\ p mod 64 = 0 /\ p + DESCRIPTOR_BLOCK_SZ cfg <= 2 ^ 64 /\
  (forall q, q ∈ rest -> p + DESCRIPTOR_BLOCK_SZ cfg <= q) /\
  oracle_ok cfg rest.
Proof. intros H. exact H. Qed.

Lemma block_size_pos : 0 < DESCRIPTOR_BLOCK_SZ cfg.
Proof. unfold DESCRIPTOR_BLOCK_SZ. pose proof (ok_PAGE cfg Hcfg). lia. Qed.

(** Everything in use lies below the addresses the page provider still
    has. *)
Lemma used_below s pool pl p :
  Inv_with cfg s pool pl -> p ∈ pageOracle s -> 0 < p ->
  (forall h x, x ∈ pl h -> x < p) /\
  (forall h, get_active h s <> 0 -> active_desc s h < p) /\
  (forall k x, sPageMap s !! k = Some x -> x < p).
Proof.
  intros HI Hp Hp0. split; [|split].
  - intros h x Hx. destruct (iw_member _ _ _ _ HI h x Hx) as (_ & Hs & _).
    apply (iw_fresh _ _ _ _ HI x p Hs Hp).
  - intros h Hh. destruct (iw_active _ _ _ _ HI h Hh) as (_ & Hs & _).
    apply (iw_fresh _ _ _ _ HI _ p Hs Hp).
  - intros k x Hk. destruct (decide (x = 0)) as [->|Hx]; [exact Hp0|].
    destruct (iw_pagemap _ _ _ _ HI k x Hk Hx) as (_ & Hs & _).
    apply (iw_fresh _ _ _ _ HI x p Hs Hp).
Qed.

(** A fresh block of descriptors. *)
Lemma Inv_DescAlloc_fresh fuel s d s' pl :
  Inv_with cfg s [] pl ->
  DescAlloc_fresh cfg fuel s = Some (d, s') -> d <> 0 ->
  exists pool',
    Inv_with cfg s' pool' pl /\ wf_ptr d /\
    (forall p, p ∈ pageOracle s' -> d < p) /\
    private s' pool' pl d /\ Heaps s' = Heaps s /\ sPageMap s' = sPageMap s.
Proof.
  intros HI Hr Hd0.
  pose proof (ok_sizeof cfg Hcfg) as Hsz. pose proof block_size_pos as Hblk.
  unfold DescAlloc_fresh, PageAlloc in Hr.
  destruct (pageOracle s) as [|p0 rest] eqn:Hor.
  { destruct (DescAlloc_carve cfg fuel 0 _ 0 _) as [[prev s2]|]; [|discriminate].
    destruct (decide (prev = 0)); [discriminate|].
    destruct (cas_update fuel _ _ _ _ _ _) as [[[[u o] nw] sx]|]; [|discriminate].
    injection Hr as <- _. contradiction. }
  pose proof (iw_oracle _ _ _ _ HI) as Hok. rewrite Hor in Hok.
  apply oracle_ok_head in Hok as (Hp0 & Hal0 & Hmax & Hgap & Hok').
  assert (Hin0 : p0 ∈ pageOracle s)
    by (rewrite Hor; apply elem_of_cons; left; reflexivity).
  destruct (used_below s [] pl p0 HI Hin0 Hp0) as (Hpl & Hact & Hpm).
  set (s1 := set_pages rest _ s) in *.
  set (first := ALIGN_ADDR cfg (p0 + sizeof_Descriptor cfg) (CACHELINE cfg)) in *.
  destruct (ok_align cfg Hcfg (p0 + sizeof_Descriptor cfg) ltac:(lia))
    as [Hfle Hfal]. fold first in Hfle, Hfal.
  assert (HI1 : Inv_with cfg s1 [] pl).
  { apply (step_frame cfg s s1 [] pl HI); try reflexivity; [|exact Hok'].
    intros p Hp. rewrite Hor. apply elem_of_cons. right. exact Hp. }
  destruct (DescAlloc_carve cfg fuel p0 first 0 s1) as [[prev s2]|] eqn:Hcarve;
    [|discriminate].
  destruct (decide (prev = 0)) as [|Hprev]; [discriminate|].
  destruct (carve_run p0 p0 pl fuel first 0 s1 prev s2 HI1 Hpl Hact Hpm)
    as (HI2 & Hlast & HA2 & HH2 & HP2 & HO2 & Hfr2 & _ & Hlk2);
    try lia; try exact Hcarve.
  { intros p Hp. apply Hgap. exact Hp. }
  set (L := carve_list cfg fuel p0 first) in *.
  assert (HlastL : last L = Some prev).
  { destruct (last L) as [x|] eqn:HlL; [|simpl in Hlast; congruence].
    simpl in Hlast. congruence. }
  assert (HprevL : prev ∈ L) by (apply last_Some_elem_of; exact HlastL).
  assert (HboundL : forall x, x ∈ L ->
            p0 < x /\ x + sizeof_Descriptor cfg < p0 + DESCRIPTOR_BLOCK_SZ cfg).
  { intros x Hx. apply carve_list_bounds in Hx; [|lia]. lia. }
  assert (HndL : NoDup L) by (apply carve_list_NoDup; lia).
  (* the two stores after the loop *)
  set (s3 := upd_desc prev (with_nextFree (mkNode 0 0)) s2) in *.
  destruct (cas_update fuel _ _ _ _ _ _) as [[[[u o] nw] sx]|] eqn:Hpush;
    [|discriminate].
  injection Hr as <- <-.
  apply cas_update_result in Hpush; [|reflexivity].
  cbn [fst snd] in Hpush. injection Hpush as _ _ _ ->.
  set (s4 := upd_desc prev (with_nextFree (AvailDesc s3)) s3).
  assert (Hstore : forall (sa : State) n,
            Inv_with cfg sa [] pl -> Heaps sa = Heaps s -> sPageMap sa = sPageMap s ->
            pageOracle sa = rest ->
            Inv_with cfg (upd_desc prev (with_nextFree n) sa) [] pl).
  { intros sa n HIa HHa HPa HOa.
    assert (Hgaa : forall h, get_active h sa = get_active h s)
      by (intros h; unfold get_active, heap_at; rewrite HHa; reflexivity).
    destruct (HboundL prev HprevL) as [Hb1 Hb2].
    apply step_upd_desc; [exact HIa|..].
    - intros p Hp. rewrite HOa in Hp. specialize (Hgap p Hp). lia.
    - intros Hin. apply elem_of_nil in Hin. destruct Hin.
    - intros h Hin. specialize (Hpl h prev Hin). lia.
    - intros h Hh Heq. rewrite Hgaa in Hh. unfold active_desc in Heq.
      rewrite Hgaa in Heq. specialize (Hact h Hh). unfold active_desc in Hact.
      lia.
    - simpl. apply (iw_count _ _ _ _ HIa prev).
    - intros k Hk. rewrite HPa in Hk. specialize (Hpm k prev Hk). lia. }
  assert (HI3 : Inv_with cfg s3 [] pl).
  { apply Hstore; [exact HI2|rewrite HH2; reflexivity|rewrite HP2; reflexivity
                  |rewrite HO2; reflexivity]. }
  assert (HI4 : Inv_with cfg s4 [] pl).
  { apply Hstore; [exact HI3| | |].
    - change (Heaps s3) with (Heaps s2). rewrite HH2. reflexivity.
    - change (sPageMap s3) with (sPageMap s2). rewrite HP2. reflexivity.
    - change (pageOracle s3) with (pageOracle s2). rewrite HO2. reflexivity. }
  assert (HA4 : desc (AvailDesc s3) = 0).
  { change (AvailDesc s3) with (AvailDesc s2). rewrite HA2.
    change (AvailDesc s1) with (AvailDesc s).
    destruct (iw_pool _ _ _ _ HI) as [Hc _]. exact Hc. }
  assert (Hn4 : forall x, x <> prev -> descs s4 !! x = descs s2 !! x).
  { intros x Hx. unfold s4, s3, upd_desc. simpl.
    rewrite !lookup_insert_ne by congruence. reflexivity. }
  assert (Hp4 : nextF s4 prev = 0 /\ is_Some (descs s4 !! prev)).
  { unfold nextF, s4. rewrite desc_at_upd_desc_eq. simpl. split; [exact HA4|].
    unfold upd_desc. simpl. rewrite lookup_insert_eq. eexists. reflexivity. }
  assert (Hidx : forall i x, L !! i = Some x ->
            (L !! S i = None /\ x = prev) \/
            (exists y, L !! S i = Some y /\ x <> prev)).
  { intros i x Hx. rewrite last_lookup in HlastL.
    pose proof (lookup_lt_Some _ _ _ Hx) as Hlen.
    destruct (L !! S i) as [y|] eqn:Hy.
    - right. exists y. split; [reflexivity|]. intros ->.
      pose proof (lookup_lt_Some _ _ _ Hy) as Hlen'.
      pose proof (NoDup_lookup _ _ _ _ HndL Hx HlastL). lia.
    - left. split; [reflexivity|]. apply lookup_ge_None in Hy.
      assert (i = pred (length L)) by lia. subst i. congruence. }
  assert (HfirstL : exists L0, L = first :: L0).
  { unfold L in *. destruct fuel as [|fuel]; [apply elem_of_nil in HprevL; destruct HprevL|].
    cbn [carve_list] in *.
    destruct (decide (first + sizeof_Descriptor cfg < p0 + DESCRIPTOR_BLOCK_SZ cfg));
      [eexists; reflexivity|apply elem_of_nil in HprevL; destruct HprevL]. }
  exists L. split; [|split; [|split; [|split; [|split]]]].
  - apply (step_set_avail _ s4 [] L pl HI4).
    + rewrite <- (app_nil_r L). apply (chain_app _ L [] first 0).
      * intros x Hx. destruct (HboundL x Hx). lia.
      * reflexivity.
      * destruct HfirstL as [L0 ->]. exact I.
      * intros i x Hx. destruct (Hidx i x Hx) as [[Hn ->]|(y & Hy & Hne)].
        -- rewrite Hn. apply Hp4.
        -- rewrite Hy. transitivity (nextF s2 x).
           ++ unfold nextF, desc_at. rewrite Hn4 by exact Hne. reflexivity.
           ++ apply (Hlk2 i x y Hx Hy).
      * destruct HfirstL as [L0 ->]. reflexivity.
    + exact HndL.
    + intros x Hx. destruct (HboundL x Hx) as [Hb1 Hb2].
      split; [|split; [|split; [|split]]].
      * split; [lia|]. apply (carve_list_aligned p0 fuel first x); try lia.
        exact Hx.
      * destruct (decide (x = prev)) as [->|Hne]; [apply Hp4|].
        rewrite Hn4 by exact Hne.
        destruct (list_elem_of_lookup_1 _ _ Hx) as [i Hi].
        destruct (Hidx i x Hi) as [[_ ?]|(y & Hy & _)]; [contradiction|].
        apply (Hlk2 i x y Hi Hy).
      * intros h Hin. specialize (Hpl h x Hin). lia.
      * intros h Hh Heq.
        assert (Haq : get_active h s4 = get_active h s).
        { unfold get_active, heap_at. change (Heaps s4) with (Heaps s2).
          rewrite HH2. reflexivity. }
        rewrite Haq in Hh. unfold active_desc in Heq. rewrite Haq in Heq.
        specialize (Hact h Hh). unfold active_desc in Hact. lia.
      * intros k Hk. change (sPageMap s4) with (sPageMap s2) in Hk.
        rewrite HP2 in Hk. specialize (Hpm k x Hk). lia.
  - split; [lia|exact Hal0].
  - intros p Hp. assert (Hp' : p ∈ pageOracle s2) by exact Hp.
    rewrite HO2 in Hp'. specialize (Hgap p Hp'). lia.
  - split; [|split; [|split]].
    + intros Hin. destruct (HboundL p0 Hin). lia.
    + intros h Hin. specialize (Hpl h p0 Hin). lia.
    + intros h Hh Heq.
      assert (Haq : get_active h s2 = get_active h s).
      { unfold get_active, heap_at. rewrite HH2. reflexivity. }
      assert (Hh2 : get_active h s2 <> 0) by exact Hh.
      assert (Heq2 : active_desc s2 h = p0) by exact Heq.
      rewrite Haq in Hh2. unfold active_desc in Heq2. rewrite Haq in Heq2.
      specialize (Hact h Hh2). unfold active_desc in Hact. lia.
    + intros k Hk. assert (Hk' : sPageMap s2 !! k = Some p0) by exact Hk.
      rewrite HP2 in Hk'. specialize (Hpm k p0 Hk'). lia.
  - transitivity (Heaps s2); [reflexivity|]. rewrite HH2. reflexivity.
  - transitivity (sPageMap s2); [reflexivity|]. rewrite HP2. reflexivity.
Qed.

(** [DescAlloc], whichever way it gets its descriptor. *)
Lemma Inv_DescAlloc fuel s d s' pool pl :
  Inv_with cfg s pool pl ->
  DescAlloc cfg fuel s = Some (d, s') -> d <> 0 ->
  exists pool',
    Inv_with cfg s' pool' pl /\ wf_ptr d /\
    (forall p, p ∈ pageOracle s' -> d < p) /\
    private s' pool' pl d /\ Heaps s' = Heaps s /\ sPageMap s' = sPageMap s.
Proof.
  intros HI Hr Hd0.
  destruct (decide (desc (AvailDesc s) = 0)) as [Hnull|Hhd].
  - destruct (iw_pool _ _ _ _ HI) as [Hch _].
    rewrite Hnull in Hch. pose proof (chain_null _ _ Hch) as ->.
    unfold DescAlloc in Hr. destruct fuel as [|fuel]; [discriminate|].
    cbn [DescAlloc_loop] in Hr. rewrite decide_True in Hr by exact Hnull.
    apply (Inv_DescAlloc_fresh _ _ _ _ _ HI Hr Hd0).
  - destruct (Inv_DescAlloc_pool _ _ _ _ _ _ HI Hhd Hr)
      as (pool' & HI' & Hwf & Hsome & Hpriv & HH & HP).
    exists pool'. split; [exact HI'|]. split; [exact Hwf|].
    split; [|split; [exact Hpriv|split; [exact HH|exact HP]]].
    intros p Hp. apply (iw_fresh _ _ _ _ HI' d p Hsome Hp).
Qed.

Lemma Inv_HeapPopPartial fuel h s d s' pool pl :
  Inv_with cfg s pool pl ->
  HeapPopPartial fuel h s = Some (d, s') ->
  (d = 0 /\ s' = s) \/
  (d <> 0 /\ exists l c, pl h = d :: l /\
     s' = put_partialList h (mkNode (nextP s d) c) s /\
     Inv_with cfg s' pool (fun x => if decide (x = h) then l else pl x)).
Proof.
  intros HI Hr. unfold HeapPopPartial, ListPopPartial in Hr.
  destruct (cas_loop fuel _ _ _ _ _ _) as [[[[[u o] n]|r] s1]|] eqn:Hloop;
    [| |discriminate].
  - destruct (decide (desc (get_partialList h s) = 0)) as [Hz|Hnz].
    { apply cas_loop_inv_exit with (x := 0) (s1 := s) in Hloop;
        [discriminate Hloop|]. rewrite decide_True by exact Hz. reflexivity. }
    apply cas_loop_inv_next
      with (l1 := tt)
           (new := mkNode (nextP s (desc (get_partialList h s)))
                          (counter (get_partialList h s)))
           (s1 := s) in Hloop;
      [|rewrite decide_False by exact Hnz; reflexivity|reflexivity].
    injection Hloop as Hu Ho Hn Hs. subst u o n s1. injection Hr as <- <-.
    right. split; [exact Hnz|].
    destruct (iw_lists _ _ _ _ HI h) as [Hch Hnd].
    destruct (chain_nonnull _ _ _ Hnz Hch) as (l & Hpl & _).
    exists l, (counter (get_partialList h s)).
    split; [exact Hpl|]. split; [reflexivity|].
    apply step_pop_partial; [exact HI|exact Hpl].
  - destruct (decide (desc (get_partialList h s) = 0)) as [Hz|Hnz].
    + apply cas_loop_inv_exit with (x := 0) (s1 := s) in Hloop;
        [|rewrite decide_True by exact Hz; reflexivity].
      injection Hloop as -> ->. injection Hr as <- <-. left. auto.
    + apply cas_loop_inv_next
        with (l1 := tt)
             (new := mkNode (nextP s (desc (get_partialList h s)))
                            (counter (get_partialList h s)))
             (s1 := s) in Hloop;
        [discriminate Hloop| |reflexivity].
      rewrite decide_False by exact Hnz. reflexivity.
Qed.

Lemma MallocFromPartial_reserve_spec a l s :
  state a <> SB_EMPTY -> 1 <= count a < 2 ^ 25 ->
  exists credits newA,
    MallocFromPartial_reserve a l s = (Next credits newA, s) /\
    0 <= credits <= 64 /\ 0 <= count newA <= count a - 1 /\
    (credits > 0 -> state newA = SB_ACTIVE) /\
    (~ credits > 0 -> state newA = SB_FULL).
Proof.
  intros Hst Hc. unfold MallocFromPartial_reserve.
  rewrite decide_False by exact Hst.
  eexists _, _. split; [reflexivity|].
  rewrite (u64_small (count a - 1)) by lia.
  change CREDITS_MAX with 64. cbn [count with_count with_state state].
  rewrite (bits25_small (count a - 1)) by lia.
  rewrite bits25_small by lia.
  split; [lia|]. split; [lia|].
  split; intros Hcr.
  - rewrite decide_True by exact Hcr. reflexivity.
  - rewrite decide_False by exact Hcr. reflexivity.
Qed.

Lemma Inv_MallocFromPartial fuel : forall h s p s' pool pl,
  Inv_with cfg s pool pl ->
  MallocFromPartial cfg fuel h s = Some (p, s') ->
  exists pool' pl', Inv_with cfg s' pool' pl'.
Proof.
  induction fuel as [|fuel IH]; intros h s p s' pool pl HI Hr; [discriminate|].
  cbn [MallocFromPartial] in Hr.
  destruct (HeapPopPartial (S fuel) h s) as [[d s1]|] eqn:Hpop; [|discriminate].
  destruct (Inv_HeapPopPartial _ _ _ _ _ _ _ HI Hpop)
    as [[-> ->]|(Hd0 & l & c & Hpl & Hs1 & HI1)].
  { rewrite decide_True in Hr by reflexivity. injection Hr as _ <-.
    exists pool, pl. exact HI. }
  rewrite decide_False in Hr by exact Hd0.
  set (pl' := fun x => if decide (x = h) then l else pl x) in *.
  assert (Hin : d ∈ pl h) by (rewrite Hpl; apply elem_of_cons; left; reflexivity).
  destruct (iw_member _ _ _ _ HI h d Hin) as (Hwf & Hdom & Hnp & Hheap & Hst & Hcnt).
  assert (Hsmall : heap (desc_at s d) <> None) by (rewrite Hheap; discriminate).
  destruct (iw_count _ _ _ _ HI d Hsmall) as [Hrange Hmc].
  assert (Hnotmem : forall h', d ∉ pl' h').
  { intros h' Hin'. unfold pl' in Hin'.
    destruct (decide (h' = h)) as [->|Hne].
    - destruct (iw_lists _ _ _ _ HI h) as [_ Hnd]. rewrite Hpl in Hnd.
      apply NoDup_cons in Hnd as [Hnd _]. contradiction.
    - destruct (iw_member _ _ _ _ HI h' d Hin') as (_ & _ & _ & Hh' & _).
      congruence. }
  assert (Hga : forall h', get_active h' s1 = get_active h' s).
  { intros h'. rewrite Hs1. apply get_active_put_partialList. }
  assert (Hnotact : forall h', get_active h' s1 <> 0 -> active_desc s1 h' <> d).
  { intros h' Hh' Heq. unfold active_desc in Heq. rewrite Hga in Hh', Heq.
    destruct (iw_active _ _ _ _ HI h' Hh') as (_ & _ & _ & Hnl & Hh'' & _).
    unfold active_desc in Hnl, Hh''. rewrite Heq in Hnl, Hh''.
    assert (h' = h) by congruence. subst h'. contradiction. }
  assert (Hdesc1 : desc_at s1 d = desc_at s d) by (rewrite Hs1; reflexivity).
  assert (Hdom1 : is_Some (descs s1 !! d)) by (rewrite Hs1; exact Hdom).
  assert (Hanch1 : get_anchor d s1 = get_anchor d s) by (rewrite Hs1; reflexivity).
  assert (Hwf' : 0 <= d < 2 ^ 64 /\ d mod 64 = 0) by (destruct Hwf; split; [lia|assumption]).
  destruct (decide (state (get_anchor d s) = SB_EMPTY)) as [Hempty|Hnonempty].
  - (* an empty superblock: retire the descriptor and retry *)
    destruct (cas_loop (S fuel) _ _ _ _ _ _) as [[[[[cr o] nA]|r] s2]|] eqn:Hloop;
      [| |discriminate].
    { apply cas_loop_inv_exit with (x := tt) (s1 := s1) in Hloop;
        [discriminate Hloop|].
      unfold MallocFromPartial_reserve. rewrite decide_True; [reflexivity|].
      rewrite Hanch1. exact Hempty. }
    apply cas_loop_inv_exit with (x := tt) (s1 := s1) in Hloop.
    2:{ unfold MallocFromPartial_reserve. rewrite decide_True; [reflexivity|].
        rewrite Hanch1. exact Hempty. }
    injection Hloop as _ ->.
    destruct (DescRetire (S fuel) d s1) as [s3|] eqn:Hret; [|discriminate].
    assert (H3 : Inv_with cfg s3 (d :: pool) pl').
    { apply (Inv_DescRetire (S fuel) d s1 s3 pool pl' HI1 Hwf Hdom1); [|exact Hret].
      split; [exact Hnp|]. split; [exact Hnotmem|]. split; [exact Hnotact|].
      intros k Hk. rewrite Hs1 in Hk.
      assert (Hk' : sPageMap s !! k = Some d) by exact Hk.
      destruct (iw_pagemap _ _ _ _ HI k d Hk' Hd0) as (_ & _ & _ & Hpm).
      destruct (Hpm Hsmall) as [Hne _]. contradiction. }
    apply (IH h s3 p s' _ _ H3 Hr).
  - assert (Hpartial : state (get_anchor d s) = SB_PARTIAL)
      by (destruct Hst; [assumption|contradiction]).
    specialize (Hcnt Hpartial).
    destruct (MallocFromPartial_reserve_spec (get_anchor d s) 0 s1 Hnonempty
                ltac:(lia)) as (credits & newA & Hres & Hcr & Hcn & Hact & Hfull).
    rewrite Hanch1 in Hr.
    destruct (cas_loop (S fuel) _ _ _ _ _ _) as [[[[[cr o] nA]|r] s2]|] eqn:Hloop;
      [| |discriminate].
    2:{ apply cas_loop_inv_next with (l1 := credits) (new := newA) (s1 := s1)
          in Hloop; [discriminate Hloop|exact Hres|exact Hanch1]. }
    apply cas_loop_inv_next with (l1 := credits) (new := newA) (s1 := s1)
      in Hloop; [|exact Hres|exact Hanch1].
    injection Hloop as -> -> -> ->.
    set (s2 := put_anchor d newA s1) in *.
    assert (HnF : state newA <> SB_EMPTY /\ state newA <> SB_PARTIAL).
    { destruct (decide (credits > 0)) as [Hp|Hn];
        [rewrite (Hact Hp)|rewrite (Hfull Hn)]; split; discriminate. }
    assert (H2 : Inv_with cfg s2 pool pl').
    { apply step_put_anchor; [exact HI1|exact Hdom1|..].
      - intros h' Hin'. destruct (Hnotmem h' Hin').
      - intros h' Hh' Heq. destruct (Hnotact h' Hh' Heq).
      - intros _. rewrite Hdesc1. lia.
      - intros _ _ _ _. apply HnF. }
    assert (Hheap2 : heap (desc_at s2 d) = Some h).
    { unfold s2, put_anchor. rewrite desc_at_upd_desc_eq. simpl.
      rewrite Hdesc1. exact Hheap. }
    assert (Hmax2 : maxcount (desc_at s2 d) = maxcount (desc_at s d)).
    { unfold s2, put_anchor. rewrite desc_at_upd_desc_eq. simpl.
      rewrite Hdesc1. reflexivity. }
    assert (Hdom2 : is_Some (descs s2 !! d)).
    { unfold s2, put_anchor, upd_desc. simpl. rewrite lookup_insert_eq.
      eexists. reflexivity. }
    assert (Hanch2 : get_anchor d s2 = newA) by apply get_anchor_put_anchor.
    (* pop the reserved block *)
    rewrite Hanch2 in Hr.
    set (ptr := ptr_add (superblock (desc_at s2 d))
                  (u64 (avail newA *
                        sc_blockSize (SizeClasses cfg (sizeclass (heap_at s2 h)))))).
    set (newA2 := with_tag (tag newA + 1) (with_avail (load64 ptr s2) newA)).
    assert (Hpop2 : MallocFromPartial_pop cfg d newA 0 s2 = (Next ptr newA2, s2)).
    { unfold MallocFromPartial_pop. rewrite Hheap2. reflexivity. }
    destruct (cas_loop (S fuel) _ _ _ _ _ _) as [[[[[q o] nA]|r] s3]|] eqn:Hloop;
      [| |discriminate].
    2:{ apply cas_loop_inv_next with (l1 := ptr) (new := newA2) (s1 := s2)
          in Hloop; [discriminate Hloop|exact Hpop2|exact Hanch2]. }
    apply cas_loop_inv_next with (l1 := ptr) (new := newA2) (s1 := s2)
      in Hloop; [|exact Hpop2|exact Hanch2].
    injection Hloop as -> -> -> ->.
    set (s3 := put_anchor d newA2 s2) in *.
    assert (H3 : Inv_with cfg s3 pool pl').
    { apply step_put_anchor; [exact H2|exact Hdom2|..].
      - intros h' Hin'. destruct (Hnotmem h' Hin').
      - intros h' Hh' Heq. destruct (Hnotact h' Hh' Heq).
      - intros _. rewrite Hmax2. simpl. lia.
      - intros _ _ _ _. apply HnF. }
    destruct (decide (credits > 0)) as [Hpos|Hnpos].
    + destruct (UpdateActive (S fuel) h d credits s3) as [s4|] eqn:Hup;
        [|discriminate].
      injection Hr as _ <-. exists pool, pl'.
      apply (Inv_UpdateActive (S fuel) h d credits s3 s4 pool pl' H3);
        try assumption; try tauto; try lia.
      * unfold s3, put_anchor, upd_desc. simpl. rewrite lookup_insert_eq.
        eexists. reflexivity.
      * apply Hnotmem.
      * unfold s3, put_anchor. rewrite desc_at_upd_desc_eq. exact Hheap2.
      * unfold s3. rewrite get_anchor_put_anchor. simpl. rewrite (Hact Hpos).
        discriminate.
    + injection Hr as _ <-. exists pool, pl'. exact H3.
Qed.

Lemma PageAlloc_frame size s sb s' :
  PageAlloc size s = (sb, s') ->
  AvailDesc s' = AvailDesc s /\ Heaps s' = Heaps s /\ descs s' = descs s /\
  sPageMap s' = sPageMap s /\ MallocInit s' = MallocInit s /\
  (forall p, p ∈ pageOracle s' -> p ∈ pageOracle s) /\
  (oracle_ok cfg (pageOracle s) -> oracle_ok cfg (pageOracle s')).
Proof.
  unfold PageAlloc. destruct (pageOracle s) as [|p0 rest] eqn:Hor;
    intros H; injection H as <- <-; cbn [AvailDesc Heaps descs sPageMap
      MallocInit pageOracle set_pages]; repeat (split; [reflexivity|]).
  - split; [intros p Hp; exact Hp|intros _; exact I].
  - split.
    + intros p Hp. apply elem_of_cons. right. exact Hp.
    + intros Hok. apply oracle_ok_head in Hok. tauto.
Qed.

(** A descriptor that was private is filled in, while the page provider
    may have handed out a region, and is then registered. *)
Lemma Inv_new_desc s s' pool pl d :
  Inv_with cfg s pool pl -> private s pool pl d -> wf_ptr d ->
  (forall p, p ∈ pageOracle s -> d < p) ->
  AvailDesc s' = AvailDesc s -> Heaps s' = Heaps s ->
  sPageMap s' = sPageMap s ->
  (forall p, p ∈ pageOracle s' -> p ∈ pageOracle s) ->
  oracle_ok cfg (pageOracle s') ->
  (forall x, x <> d -> descs s' !! x = descs s !! x) ->
  is_Some (descs s' !! d) ->
  (heap (desc_at s' d) <> None ->
     0 <= count (get_anchor d s') <= maxcount (desc_at s' d) - 1 /\
     maxcount (desc_at s' d) <= 2 ^ 25) ->
  state (get_anchor d s') <> SB_EMPTY ->
  Inv_with cfg s' pool pl /\ Inv_with cfg (RegisterDesc cfg d s') pool pl.
Proof.
  intros HI (Hnp & Hnl & Hna & Hnm) Hwf Hbelow HA HH HP HO Hok HD Hdom Hcnt Hst.
  set (s0 := set_pages (pageOracle s') (pageLog s') s).
  assert (H0 : Inv_with cfg s0 pool pl).
  { apply (step_frame cfg s s0 pool pl HI); try reflexivity; assumption. }
  assert (H1 : Inv_with cfg s' pool pl).
  { apply (step_desc cfg s0 s' pool pl H0 d); try assumption; try reflexivity.
    - intros p Hp. apply Hbelow, HO, Hp.
    - intros Hin. contradiction.
    - intros h Hin. destruct (Hnl h Hin).
    - intros h Hh Heq. destruct (Hna h Hh Heq).
    - intros k Hk. destruct (Hnm k Hk). }
  split; [exact H1|].
  unfold RegisterDesc. apply Inv_UpdatePageMap; [exact H1|].
  intros _. split; [exact Hwf|]. split; [exact Hdom|]. split; [exact Hnp|].
  intros _. split; [exact Hst|]. intros k Hk. exact Hk.
Qed.

Lemma Inv_MallocFromNewSB_build fuel h s d w s9 pool pl :
  Inv_with cfg s pool pl ->
  0 <= h < MAX_SZ_IDX cfg ->
  2 <= sc_GetBlockNum (SizeClasses cfg h) <= 2 ^ 25 ->
  MallocFromNewSB_build cfg fuel h s = Some (d, w, s9) ->
  exists pool',
    Inv_with cfg s9 pool' pl /\ wf_ptr d /\ is_Some (descs s9 !! d) /\
    ((d ∉ pool') /\ (forall h', d ∉ pl h') /\
     (forall h', get_active h' s9 <> 0 -> active_desc s9 h' <> d)) /\
    heap (desc_at s9 d) = Some h /\ state (get_anchor d s9) = SB_ACTIVE /\
    GetActive w = (d, snd (GetActive w)) /\
    (forall k, sPageMap s9 !! k = Some d -> k ∈ sb_keys cfg s9 d) /\
    Heaps s9 = Heaps s.
Proof.
  intros HI Hh Hmc Hr. unfold MallocFromNewSB_build in Hr.
  rewrite (iw_sizeclass _ _ _ _ HI h Hh) in Hr.
  set (sc := SizeClasses cfg h) in *.
  destruct (DescAlloc cfg fuel s) as [[d0 s1]|] eqn:Halloc; [|discriminate].
  destruct (decide (d0 = 0)) as [|Hd0]; [discriminate|].
  destruct (Inv_DescAlloc _ _ _ _ _ _ HI Halloc Hd0)
    as (pool' & HI1 & Hwf & Hbelow & Hpriv & HH1 & HP1).
  set (s4 := upd_desc d0 (with_maxcount (sc_GetBlockNum sc))
               (upd_desc d0 (with_blockSize (sc_blockSize sc))
                  (upd_desc d0 (with_heap (Some h)) s1))) in *.
  destruct (PageAlloc (sc_sbSize sc) s4) as [sb s5] eqn:HPA.
  destruct (PageAlloc_frame _ _ _ _ HPA) as (HA5 & HH5 & HD5 & HP5 & _ & HO5 & Hok5).
  set (s6 := upd_desc d0 (with_superblock sb) s5) in *.
  assert (Hdesc6 : desc_at s6 d0 =
            with_superblock sb
              (with_maxcount (sc_GetBlockNum sc)
                 (with_blockSize (sc_blockSize sc)
                    (with_heap (Some h) (desc_at s1 d0))))).
  { unfold s6. rewrite desc_at_upd_desc_eq. f_equal.
    unfold desc_at at 1. rewrite HD5. fold (desc_at s4 d0).
    unfold s4. rewrite !desc_at_upd_desc_eq. reflexivity. }
  set (bound := u64 (maxcount (desc_at s6 d0) - 1)) in *.
  set (s7 := for_loop (Z.to_nat bound) 1 bound 1 _ s6) in *.
  assert (Hframe7 : AvailDesc s7 = AvailDesc s6 /\ Heaps s7 = Heaps s6 /\
                    descs s7 = descs s6 /\ sPageMap s7 = sPageMap s6 /\
                    pageOracle s7 = pageOracle s6).
  { unfold s7. apply for_loop_ind; [repeat split|]. intros i s0 H. exact H. }
  destruct Hframe7 as (HA7 & HH7 & HD7 & HP7 & HO7).
  assert (Hdesc7 : desc_at s7 d0 = desc_at s6 d0)
    by (unfold desc_at; rewrite HD7; reflexivity).
  rewrite Hdesc7 in Hr.
  assert (Hmax6 : maxcount (desc_at s6 d0) = sc_GetBlockNum sc)
    by (rewrite Hdesc6; reflexivity).
  rewrite Hmax6 in Hr.
  rewrite (u64_small (sc_GetBlockNum sc - 1)) in Hr by lia.
  set (credits := Z.min (sc_GetBlockNum sc - 1) CREDITS_MAX) in *.
  assert (Hcr : 1 <= credits <= 64) by (unfold credits; change CREDITS_MAX with 64; lia).
  assert (Hcr' : credits <= sc_GetBlockNum sc - 1) by (unfold credits; lia).
  set (anchor0 := with_tag 0 (with_state SB_ACTIVE
                    (with_count (sc_GetBlockNum sc - 1 - credits)
                       (with_avail 1 zeroAnchor)))) in *.
  set (s8 := put_anchor d0 anchor0 s7) in *.
  injection Hr as <- <- <-.
  assert (Hdesc8 : desc_at s8 d0 = with_anchor anchor0 (desc_at s6 d0)).
  { unfold s8, put_anchor. rewrite desc_at_upd_desc_eq, Hdesc7. reflexivity. }
  assert (Hdom8 : is_Some (descs s8 !! d0)).
  { unfold s8, put_anchor, upd_desc. simpl. rewrite lookup_insert_eq.
    eexists. reflexivity. }
  assert (Hother : forall x, x <> d0 -> descs s8 !! x = descs s1 !! x).
  { intros x Hx. unfold s8, put_anchor, upd_desc. cbn [descs set_descs].
    rewrite lookup_insert_ne by congruence. rewrite HD7.
    unfold s6, upd_desc. cbn [descs set_descs].
    rewrite lookup_insert_ne by congruence. rewrite HD5.
    unfold s4, upd_desc. cbn [descs set_descs].
    rewrite !lookup_insert_ne by congruence. reflexivity. }
  assert (HH8 : Heaps s8 = Heaps s1).
  { transitivity (Heaps s7); [reflexivity|]. rewrite HH7.
    transitivity (Heaps s5); [reflexivity|]. rewrite HH5. reflexivity. }
  assert (HP8 : sPageMap s8 = sPageMap s1).
  { transitivity (sPageMap s7); [reflexivity|]. rewrite HP7.
    transitivity (sPageMap s5); [reflexivity|]. rewrite HP5. reflexivity. }
  assert (HA8 : AvailDesc s8 = AvailDesc s1).
  { transitivity (AvailDesc s7); [reflexivity|]. rewrite HA7.
    transitivity (AvailDesc s5); [reflexivity|]. rewrite HA5. reflexivity. }
  assert (HO8 : pageOracle s8 = pageOracle s5).
  { transitivity (pageOracle s7); [reflexivity|]. rewrite HO7. reflexivity. }
  assert (Hanchor8 : get_anchor d0 s8 = anchor0)
    by (unfold get_anchor; rewrite Hdesc8; reflexivity).
  assert (Hcount0 : count anchor0 = sc_GetBlockNum sc - 1 - credits).
  { unfold anchor0. cbn [count with_tag with_state with_count].
    apply bits25_small. lia. }
  destruct (Inv_new_desc s1 s8 pool' pl d0 HI1 Hpriv Hwf Hbelow HA8 HH8 HP8)
    as [HI8 HI9]; try assumption.
  - intros p Hp. rewrite HO8 in Hp. apply HO5 in Hp. exact Hp.
  - rewrite HO8. apply Hok5. apply (iw_oracle _ _ _ _ HI1).
  - intros _. rewrite Hanchor8, Hcount0, Hdesc8.
    cbn [maxcount with_anchor]. rewrite Hmax6. lia.
  - rewrite Hanchor8. discriminate.
  - set (s9 := RegisterDesc cfg d0 s8) in *.
    destruct (UpdatePageMap_frame cfg (heap (desc_at s8 d0))
                (superblock (desc_at s8 d0)) d0 s8)
      as (HA9 & _ & HH9 & HD9 & _ & HO9 & _).
    fold (RegisterDesc cfg d0 s8) in HA9, HH9, HD9, HO9. fold s9 in HA9, HH9, HD9, HO9.
    assert (Hdesc9 : desc_at s9 d0 = desc_at s8 d0)
      by (unfold desc_at; rewrite HD9; reflexivity).
    exists pool'. split; [exact HI9|]. split; [exact Hwf|].
    split; [rewrite HD9; exact Hdom8|].
    destruct Hpriv as (Hnp & Hnl & Hna & Hnm).
    assert (Hlook : forall k, sPageMap s9 !! k =
              if decide (k ∈ sb_keys cfg s8 d0) then Some d0
              else sPageMap s1 !! k).
    { intros k. unfold s9, RegisterDesc. rewrite UpdatePageMap_lookup.
      fold (sb_keys cfg s8 d0). rewrite HP8. reflexivity. }
    assert (Hkeys9 : sb_keys cfg s9 d0 = sb_keys cfg s8 d0).
    { apply sb_keys_same; [exact Hdesc9|].
      intros h'. unfold heap_at. rewrite HH9. reflexivity. }
    split; [|split; [|split; [|split; [|split]]]].
    + split; [exact Hnp|]. split; [exact Hnl|].
      intros h' Hh' Heq. apply (Hna h').
      * unfold get_active, heap_at in Hh' |- *. rewrite HH9, HH8 in Hh'.
        exact Hh'.
      * unfold active_desc, get_active, heap_at in Heq |- *.
        rewrite HH9, HH8 in Heq. exact Heq.
    + rewrite Hdesc9, Hdesc8, Hdesc6. reflexivity.
    + unfold get_anchor. rewrite Hdesc9. fold (get_anchor d0 s8).
      rewrite Hanchor8. reflexivity.
    + rewrite u64_small by lia.
      rewrite GetActive_MakeActive; [reflexivity| | |lia];
        destruct Hwf; [lia|assumption].
    + intros k Hk. rewrite Hkeys9. rewrite Hlook in Hk.
      destruct (decide (k ∈ sb_keys cfg s8 d0)) as [Hin|Hnin]; [exact Hin|].
      destruct (Hnm k Hk).
    + rewrite HH9, HH8. exact HH1.
Qed.

(** Unregistering a descriptor and giving its pages back leaves it
    absent from the page map. *)
Lemma Inv_unregister s pool pl d size :
  Inv_with cfg s pool pl ->
  d <> 0 ->
  (forall k, sPageMap s !! k = Some d -> k ∈ sb_keys cfg s d) ->
  let s2 := PageFree (superblock (desc_at s d)) size
              (UnregisterDesc cfg (heap (desc_at s d)) (superblock (desc_at s d)) s) in
  Inv_with cfg s2 pool pl /\
  AvailDesc s2 = AvailDesc s /\ Heaps s2 = Heaps s /\ descs s2 = descs s /\
  (forall k, sPageMap s2 !! k <> Some d) /\
  (forall k x, sPageMap s2 !! k = Some x -> x <> 0 -> sPageMap s !! k = Some x).
Proof.
  intros HI Hd0 Hkeys s2.
  set (s1 := UnregisterDesc cfg (heap (desc_at s d)) (superblock (desc_at s d)) s).
  assert (H1 : Inv_with cfg s1 pool pl).
  { unfold s1, UnregisterDesc. apply Inv_UpdatePageMap; [exact HI|].
    intros Hz. destruct (Hz eq_refl). }
  destruct (UpdatePageMap_frame cfg (heap (desc_at s d))
              (superblock (desc_at s d)) 0 s) as (HA & _ & HH & HD & _ & HO & _).
  fold (UnregisterDesc cfg (heap (desc_at s d)) (superblock (desc_at s d)) s)
    in HA, HH, HD, HO. fold s1 in HA, HH, HD, HO.
  assert (H2 : Inv_with cfg s2 pool pl).
  { apply (step_frame cfg s1 s2 pool pl H1); try reflexivity.
    - intros p Hp. exact Hp.
    - apply (iw_oracle _ _ _ _ H1). }
  split; [exact H2|].
  split; [transitivity (AvailDesc s1); [reflexivity|exact HA]|].
  split; [transitivity (Heaps s1); [reflexivity|exact HH]|].
  split; [transitivity (descs s1); [reflexivity|exact HD]|].
  assert (Hlook : forall k, sPageMap s2 !! k =
            if decide (k ∈ sb_keys cfg s d) then Some 0 else sPageMap s !! k).
  { intros k. transitivity (sPageMap s1 !! k); [reflexivity|].
    unfold s1, UnregisterDesc. rewrite UpdatePageMap_lookup. reflexivity. }
  split.
  - intros k Hk. rewrite Hlook in Hk.
    destruct (decide (k ∈ sb_keys cfg s d)) as [Hin|Hnin]; [congruence|].
    apply Hnin, Hkeys, Hk.
  - intros k x Hk Hx. rewrite Hlook in Hk.
    destruct (decide (k ∈ sb_keys cfg s d)) as [Hin|Hnin]; [congruence|exact Hk].
Qed.

Lemma Inv_MallocFromNewSB fuel h s p s' pool pl :
  Inv_with cfg s pool pl ->
  0 <= h < MAX_SZ_IDX cfg ->
  2 <= sc_GetBlockNum (SizeClasses cfg h) <= 2 ^ 25 ->
  MallocFromNewSB cfg fuel h s = Some (p, s') ->
  exists pool', Inv_with cfg s' pool' pl.
Proof.
  intros HI Hh Hmc Hr. unfold MallocFromNewSB in Hr.
  destruct (MallocFromNewSB_build cfg fuel h s) as [[[d w] s9]|] eqn:Hbuild;
    [|discriminate].
  destruct (Inv_MallocFromNewSB_build _ _ _ _ _ _ _ _ HI Hh Hmc Hbuild)
    as (pool' & HI9 & Hwf & Hdom & (Hnp & Hnl & Hna) & Hheap & Hst & Hw & Hkeys & HH).
  unfold MallocFromNewSB_install in Hr.
  destruct (decide (get_active h s9 <> 0 \/ get_active h s9 <> get_active h s9))
    as [Hfail|Hok].
  - destruct (Inv_unregister s9 pool' pl d
                (sc_sbSize (SizeClasses cfg (sizeclass (heap_at s h)))) HI9
                ltac:(destruct Hwf; lia) Hkeys)
      as (H2 & HA2 & HH2 & HD2 & Hno & _).
    set (s1 := UnregisterDesc cfg _ _ s9) in *.
    assert (Hsb : superblock (desc_at s1 d) = superblock (desc_at s9 d)).
    { destruct (UpdatePageMap_frame cfg (heap (desc_at s9 d))
                  (superblock (desc_at s9 d)) 0 s9) as (_ & _ & _ & HD & _).
      unfold desc_at. fold (UnregisterDesc cfg (heap (desc_at s9 d))
                              (superblock (desc_at s9 d)) s9) in HD.
      fold s1 in HD. rewrite HD. reflexivity. }
    rewrite Hsb in Hr.
    set (s2 := PageFree _ _ s1) in *.
    destruct (DescRetire fuel d s2) as [s3|] eqn:Hret; [|discriminate].
    injection Hr as _ <-. exists (d :: pool').
    apply (Inv_DescRetire fuel d s2 s3 pool' pl H2 Hwf); [| |exact Hret].
    + rewrite HD2. exact Hdom.
    + split; [exact Hnp|]. split; [exact Hnl|]. split; [|exact Hno].
      intros h' Hh' Heq. apply (Hna h').
      * unfold get_active, heap_at in Hh' |- *. rewrite HH2 in Hh'. exact Hh'.
      * unfold active_desc, get_active, heap_at in Heq |- *.
        rewrite HH2 in Heq. exact Heq.
  - injection Hr as _ <-. exists pool'.
    apply step_active; [exact HI9|]. intros _. rewrite Hw. cbn [fst].
    split; [destruct Hwf; lia|]. split; [exact Hdom|]. split; [exact Hnp|].
    split; [apply Hnl|]. split; [exact Hheap|]. rewrite Hst. discriminate.
Qed.

End Functions.

(** *** [MallocInit] is only written by [InitMalloc] *)

Lemma cas_loop_kept {L V R : Type} `{EqDecision V} (get : State -> V)
      (put : V -> State -> State)
      (body : V -> L -> State -> LoopStep L V R * State) :
  (forall o l s, MallocInit (snd (body o l s)) = MallocInit s) ->
  (forall v s, MallocInit (put v s) = MallocInit s) ->
  forall fuel old l s r s',
    cas_loop fuel get put body old l s = Some (r, s') ->
    MallocInit s' = MallocInit s.
Proof.
  intros Hb Hp. induction fuel as [|fuel IH]; intros old l s r s' Hr;
    [discriminate|].
  cbn [cas_loop] in Hr. specialize (Hb old l s).
  destruct (body old l s) as [[l1 new|x] s1]; cbn [snd] in Hb.
  - destruct (decide (get s1 = old)).
    + injection Hr as _ <-. rewrite Hp. exact Hb.
    + rewrite (IH _ _ _ _ _ Hr). exact Hb.
  - injection Hr as _ <-. exact Hb.
Qed.

Lemma cas_update_kept {L V : Type} `{EqDecision V} (get : State -> V)
      (put : V -> State -> State) (body : V -> L -> State -> L * V * State) :
  (forall o l s, MallocInit (snd (body o l s)) = MallocInit s) ->
  (forall v s, MallocInit (put v s) = MallocInit s) ->
  forall fuel old l s r s',
    cas_update fuel get put body old l s = Some (r, s') ->
    MallocInit s' = MallocInit s.
Proof.
  intros Hb Hp. induction fuel as [|fuel IH]; intros old l s r s' Hr;
    [discriminate|].
  cbn [cas_update] in Hr. specialize (Hb old l s).
  destruct (body old l s) as [[l1 new] s1]; cbn [snd] in Hb.
  destruct (decide (get s1 = old)).
  - injection Hr as _ <-. rewrite Hp. exact Hb.
  - rewrite (IH _ _ _ _ _ Hr). exact Hb.
Qed.

Lemma for_loop_kept (body : Z -> State -> State) :
  (forall i s, MallocInit (body i s) = MallocInit s) ->
  forall n idx bound step s,
    MallocInit (for_loop n idx bound step body s) = MallocInit s.
Proof.
  intros Hb n idx bound step s.
  apply (for_loop_ind (fun s0 => MallocInit s0 = MallocInit s));
    [reflexivity|].
  intros i s0 H. rewrite Hb. exact H.
Qed.

Section Kept.

Variable cfg : Config.

Lemma DescRetire_kept fuel d s s' :
  DescRetire fuel d s = Some s' -> MallocInit s' = MallocInit s.
Proof.
  unfold DescRetire. intros Hr.
  destruct (cas_update fuel _ _ _ _ _ _) as [[[[u o] nw] s1]|] eqn:Hloop;
    [|discriminate].
  injection Hr as <-.
  refine (cas_update_kept _ _ _ _ _ _ _ _ _ _ _ Hloop); reflexivity.
Qed.

Lemma HeapPushPartial_kept fuel d s s' :
  HeapPushPartial fuel d s = Some s' -> MallocInit s' = MallocInit s.
Proof.
  unfold HeapPushPartial, ListPushPartial. intros Hr.
  destruct (heap (desc_at s d)) as [h|]; [|discriminate].
  destruct (cas_update fuel _ _ _ _ _ _) as [[[[u o] nw] s1]|] eqn:Hloop;
    [|discriminate].
  injection Hr as <-.
  refine (cas_update_kept _ _ _ _ _ _ _ _ _ _ _ Hloop); reflexivity.
Qed.

Lemma HeapPopPartial_kept fuel h s d s' :
  HeapPopPartial fuel h s = Some (d, s') -> MallocInit s' = MallocInit s.
Proof.
  unfold HeapPopPartial, ListPopPartial. intros Hr.
  destruct (cas_loop fuel _ _ _ _ _ _) as [[r s1]|] eqn:Hloop; [|discriminate].
  assert (Hk : MallocInit s1 = MallocInit s).
  { refine (cas_loop_kept _ _ _ _ _ _ _ _ _ _ _ Hloop); [|reflexivity].
    intros o l s0. destruct (decide (desc o = 0)); reflexivity. }
  destruct r as [[[u o] nw]|r]; injection Hr as _ <-; exact Hk.
Qed.

Lemma UpdateActive_kept fuel h d credits s s' :
  UpdateActive fuel h d credits s = Some s' -> MallocInit s' = MallocInit s.
Proof.
  rewrite UpdateActive_installs. intros Hr. injection Hr as <-. reflexivity.
Qed.

Lemma MallocFromActive_kept fuel h s p s' :
  MallocFromActive fuel h s = Some (p, s') -> MallocInit s' = MallocInit s.
Proof.
  unfold MallocFromActive, MallocFromActive_take. intros Hr.
  destruct (cas_loop fuel _ _ _ _ _ _) as [[r s1]|] eqn:Hloop; [|discriminate].
  assert (Hk : MallocInit s1 = MallocInit s).
  { refine (cas_loop_kept _ _ _ _ _ _ _ _ _ _ _ Hloop); [|reflexivity].
    intros o l s0. destruct (decide (o = 0)); [reflexivity|].
    destruct (GetActive o). reflexivity. }
  destruct r as [[[c o] nw]|r].
  - destruct (cas_update fuel _ _ _ _ _ _) as [[[[[ptr cr] o'] nw'] s2]|]
      eqn:Hpop; [|discriminate].
    assert (Hk2 : MallocInit s2 = MallocInit s1).
    { refine (cas_update_kept _ _ _ _ _ _ _ _ _ _ _ Hpop); [|reflexivity].
      intros o0 l s0. unfold MallocFromActive_pop.
      destruct (decide (c = 0)); [destruct (decide (count o0 = 0))|];
        reflexivity. }
    destruct (decide (cr > 0)).
    + destruct (UpdateActive fuel h _ cr s2) as [s3|] eqn:Hup; [|discriminate].
      injection Hr as _ <-. rewrite (UpdateActive_kept _ _ _ _ _ _ Hup).
      congruence.
    + injection Hr as _ <-. congruence.
  - destruct (decide (0 > 0)); [lia|]. injection Hr as _ <-. exact Hk.
Qed.

Lemma PageAlloc_kept size s : MallocInit (snd (PageAlloc size s)) = MallocInit s.
Proof. unfold PageAlloc. destruct (pageOracle s); reflexivity. Qed.

Lemma DescAlloc_carve_kept fuel : forall ptr currPtr prev s r s',
  DescAlloc_carve cfg fuel ptr currPtr prev s = Some (r, s') ->
  MallocInit s' = MallocInit s.
Proof.
  induction fuel as [|fuel IH]; intros ptr currPtr prev s r s' Hr;
    [discriminate|].
  cbn [DescAlloc_carve] in Hr.
  destruct (decide (currPtr + sizeof_Descriptor cfg < ptr + DESCRIPTOR_BLOCK_SZ cfg)).
  - rewrite (IH _ _ _ _ _ _ Hr). destruct (decide (prev = 0)); reflexivity.
  - injection Hr as _ <-. reflexivity.
Qed.

Lemma DescAlloc_fresh_kept fuel s d s' :
  DescAlloc_fresh cfg fuel s = Some (d, s') -> MallocInit s' = MallocInit s.
Proof.
  unfold DescAlloc_fresh. intros Hr.
  pose proof (PageAlloc_kept (DESCRIPTOR_BLOCK_SZ cfg) s) as Hk1.
  destruct (PageAlloc (DESCRIPTOR_BLOCK_SZ cfg) s) as [ptr s1]. cbn [snd] in Hk1.
  destruct (DescAlloc_carve cfg fuel ptr _ 0 s1) as [[prev s2]|] eqn:Hcarve;
    [|discriminate].
  apply DescAlloc_carve_kept in Hcarve.
  destruct (decide (prev = 0)) as [|Hprev]; [discriminate|].
  destruct (cas_update fuel _ _ _ _ _ _) as [[[[u o] nw] s3]|] eqn:Hloop;
    [|discriminate].
  injection Hr as _ <-.
  assert (Hk3 : MallocInit s3 = MallocInit s2).
  { refine (cas_update_kept _ _ _ _ _ _ _ _ _ _ _ Hloop); reflexivity. }
  rewrite Hk3. congruence.
Qed.

Lemma DescAlloc_kept fuel s d s' :
  DescAlloc cfg fuel s = Some (d, s') -> MallocInit s' = MallocInit s.
Proof.
  unfold DescAlloc. generalize (AvailDesc s) at 1. revert s.
  induction fuel as [|fuel IH]; intros s o Hr; [discriminate|].
  cbn [DescAlloc_loop] in Hr.
  destruct (decide (desc o = 0)).
  - apply (DescAlloc_fresh_kept _ _ _ _ Hr).
  - destruct (decide (AvailDesc s = o)).
    + injection Hr as _ <-. reflexivity.
    + apply (IH _ _ Hr).
Qed.

Lemma MallocFromPartial_kept fuel : forall h s p s',
  MallocFromPartial cfg fuel h s = Some (p, s') -> MallocInit s' = MallocInit s.
Proof.
  induction fuel as [|fuel IH]; intros h s p s' Hr; [discriminate|].
  cbn [MallocFromPartial] in Hr.
  destruct (HeapPopPartial (S fuel) h s) as [[d s1]|] eqn:Hpop; [|discriminate].
  apply HeapPopPartial_kept in Hpop.
  destruct (decide (d = 0)); [injection Hr as _ <-; exact Hpop|].
  destruct (cas_loop (S fuel) _ _ _ _ _ _) as [[r s2]|] eqn:Hloop; [|discriminate].
  assert (Hk2 : MallocInit s2 = MallocInit s1).
  { refine (cas_loop_kept _ _ _ _ _ _ _ _ _ _ _ Hloop); [|reflexivity].
    intros o l s0. unfold MallocFromPartial_reserve.
    destruct (decide (state o = SB_EMPTY)); reflexivity. }
  destruct r as [[[cr o] nw]|r].
  - destruct (cas_loop (S fuel) _ _ (MallocFromPartial_pop cfg d) _ _ _)
      as [[r3 s3]|] eqn:Hloop3; [|discriminate].
    assert (Hk3 : MallocInit s3 = MallocInit s2).
    { refine (cas_loop_kept _ _ _ _ _ _ _ _ _ _ _ Hloop3); [|reflexivity].
      intros o0 l s0. unfold MallocFromPartial_pop.
      destruct (heap (desc_at s0 d)); reflexivity. }
    destruct r3 as [[[q o'] nw']|r3]; [|discriminate].
    destruct (decide (cr > 0)).
    + destruct (UpdateActive (S fuel) h d cr s3) as [s4|] eqn:Hup; [|discriminate].
      injection Hr as _ <-. rewrite (UpdateActive_kept _ _ _ _ _ _ Hup).
      congruence.
    + injection Hr as _ <-. congruence.
  - destruct (DescRetire (S fuel) d s2) as [s3|] eqn:Hret; [|discriminate].
    apply DescRetire_kept in Hret. rewrite (IH _ _ _ _ Hr). congruence.
Qed.

Lemma UpdatePageMap_kept hp ptr v s :
  MallocInit (UpdatePageMap cfg hp ptr v s) = MallocInit s.
Proof. destruct (UpdatePageMap_frame cfg hp ptr v s) as (_ & H & _). exact H. Qed.

Lemma MallocFromNewSB_kept fuel h s p s' :
  MallocFromNewSB cfg fuel h s = Some (p, s') -> MallocInit s' = MallocInit s.
Proof.
  unfold MallocFromNewSB, MallocFromNewSB_build. intros Hr.
  destruct (DescAlloc cfg fuel s) as [[d s1]|] eqn:Halloc; [|discriminate].
  apply DescAlloc_kept in Halloc.
  destruct (decide (d = 0)); [discriminate|].
  match type of Hr with context [PageAlloc ?sz ?s4] =>
    pose proof (PageAlloc_kept sz s4) as Hk5;
    destruct (PageAlloc sz s4) as [sb s5] end.
  cbn [snd] in Hk5. cbn [MallocInit upd_desc set_descs] in Hk5.
  match type of Hr with
    context [RegisterDesc cfg d (put_anchor d ?a ?s7)] =>
      assert (Hk7 : MallocInit s7 = MallocInit s5)
        by (rewrite for_loop_kept; [reflexivity|intros; reflexivity]);
      set (s8 := put_anchor d a s7) in *
  end.
  assert (Hk9 : MallocInit (RegisterDesc cfg d s8) = MallocInit s).
  { unfold RegisterDesc. rewrite UpdatePageMap_kept.
    transitivity (MallocInit s5); [exact Hk7|]. congruence. }
  set (s9 := RegisterDesc cfg d s8) in *.
  unfold MallocFromNewSB_install in Hr.
  destruct (decide _) in Hr.
  - destruct (DescRetire fuel d _) as [s3|] eqn:Hret; [|discriminate].
    injection Hr as _ <-. rewrite (DescRetire_kept _ _ _ _ Hret).
    unfold PageFree. cbn [MallocInit set_pages]. unfold UnregisterDesc.
    rewrite UpdatePageMap_kept. exact Hk9.
  - injection Hr as _ <-. exact Hk9.
Qed.

End Kept.

(** *** The malloc interface *)

Section Interface.

Variable cfg : Config.
Hypothesis Hcfg : cfg_ok cfg.

Lemma InitMalloc_loop (bound : Z) (n : nat) : forall (idx : Z) (s : State),
  let s' := for_loop n idx bound 1
              (fun i s0 =>
                 set_Heaps (<[i := mkProcHeap 0 (mkNode 0 0) i]> (Heaps s0)) s0) s in
  AvailDesc s' = AvailDesc s /\ descs s' = descs s /\
  sPageMap s' = sPageMap s /\ pageOracle s' = pageOracle s /\
  MallocInit s' = MallocInit s /\
  forall i, heap_at s' i =
            if decide (idx <= i < idx + Z.of_nat n /\ i < bound)
            then mkProcHeap 0 (mkNode 0 0) i else heap_at s i.
Proof.
  induction n as [|n IH]; intros idx s; cbn [for_loop].
  - repeat (split; [reflexivity|]). intros i.
    rewrite decide_False by lia. reflexivity.
  - destruct (decide (idx < bound)) as [Hlt|Hge].
    + destruct (IH (idx + 1)
                  (set_Heaps (<[idx := mkProcHeap 0 (mkNode 0 0) idx]> (Heaps s)) s))
        as (HA & HD & HP & HO & HM & Hheap).
      split; [exact HA|]. split; [exact HD|]. split; [exact HP|].
      split; [exact HO|]. split; [exact HM|].
      intros i. rewrite Hheap.
      destruct (decide (i = idx)) as [->|Hne].
      * rewrite decide_False by lia. rewrite decide_True by lia.
        unfold heap_at, set_Heaps. cbn [Heaps]. rewrite lookup_insert_eq.
        reflexivity.
      * unfold heap_at at 1, set_Heaps. cbn [Heaps].
        rewrite lookup_insert_ne by congruence. fold (heap_at s i).
        destruct (decide (idx + 1 <= i < idx + 1 + Z.of_nat n /\ i < bound));
          [rewrite decide_True by lia|rewrite decide_False by lia];
          reflexivity.
    + repeat (split; [reflexivity|]). intros i.
      rewrite decide_False by lia. reflexivity.
Qed.

Lemma Inv_InitMalloc s :
  pristine cfg s ->
  Inv_with cfg (InitMalloc cfg s) [] (fun _ => []) /\
  MallocInit (InitMalloc cfg s) = true.
Proof.
  intros (HH & HD & HP & HA & Hok). unfold InitMalloc.
  destruct (InitMalloc_loop (MAX_SZ_IDX cfg) (Z.to_nat (MAX_SZ_IDX cfg)) 0
              (set_MallocInit true s)) as (HA' & HD' & HP' & HO' & HM' & Hheap).
  set (s' := for_loop _ 0 _ 1 _ _) in *.
  cbn [AvailDesc descs sPageMap pageOracle MallocInit set_MallocInit] in *.
  assert (Hd : forall d, desc_at s' d = zeroDescriptor).
  { intros d. unfold desc_at. rewrite HD', HD, lookup_empty. reflexivity. }
  assert (Hz : forall i, heap_at (set_MallocInit true s) i = zeroHeap).
  { intros i. unfold heap_at. cbn [Heaps set_MallocInit].
    rewrite HH, lookup_empty. reflexivity. }
  assert (Hact : forall h, get_active h s' = 0).
  { intros h. unfold get_active. rewrite Hheap, Hz.
    destruct (decide _); reflexivity. }
  split; [|exact HM'].
  constructor.
  - split; [|apply NoDup_nil_2]. cbn [chain]. rewrite HA', HA. reflexivity.
  - intros d Hin. apply elem_of_nil in Hin. destruct Hin.
  - intros h. split; [|apply NoDup_nil_2]. cbn [chain].
    unfold get_partialList. rewrite Hheap, Hz. destruct (decide _); reflexivity.
  - intros h d Hin. apply elem_of_nil in Hin. destruct Hin.
  - intros h Hh. destruct (Hh (Hact h)).
  - intros d Hh. rewrite Hd in Hh. destruct (Hh eq_refl).
  - intros k d Hk. rewrite HP', HP, lookup_empty in Hk. discriminate.
  - intros d p Hs. rewrite HD', HD, lookup_empty in Hs.
    destruct Hs as [x Hx]. discriminate.
  - rewrite HO'. exact Hok.
  - intros i Hi. rewrite Hheap. rewrite decide_True by lia. reflexivity.
Qed.

Lemma Inv_GetProcHeap size s hp s1 :
  Inv cfg s -> GetProcHeap cfg size s = (hp, s1) ->
  MallocInit s1 = true /\ (exists pool pl, Inv_with cfg s1 pool pl) /\
  (forall h, hp = Some h ->
     0 <= h < MAX_SZ_IDX cfg /\
     2 <= sc_GetBlockNum (SizeClasses cfg h) <= 2 ^ 25).
Proof.
  unfold Inv, GetProcHeap. intros HI Hr.
  assert (Hs1 : s1 = if MallocInit s then s else InitMalloc cfg s).
  { destruct (decide (GetSizeClass cfg size <> 0)); congruence. }
  assert (Hhp : forall h, hp = Some h ->
            h = GetSizeClass cfg size /\ GetSizeClass cfg size <> 0).
  { intros h ->. destruct (decide (GetSizeClass cfg size <> 0)) as [Hne|];
      [|discriminate]. split; [congruence|exact Hne]. }
  split; [|split].
  - rewrite Hs1. destruct (MallocInit s) eqn:Hm; [exact Hm|].
    apply Inv_InitMalloc, HI.
  - rewrite Hs1. destruct (MallocInit s); [exact HI|].
    exists [], (fun _ => []). apply Inv_InitMalloc, HI.
  - intros h Hh. destruct (Hhp h Hh) as [-> Hne].
    destruct (ok_classes cfg Hcfg size Hne) as [H1 H2]. split; [lia|exact H2].
Qed.

Lemma lr_malloc_loop_kept fuel : forall h s p s',
  lr_malloc_loop cfg fuel h s = Some (p, s') -> MallocInit s' = MallocInit s.
Proof.
  induction fuel as [|fuel IH]; intros h s p s' Hr; [discriminate|].
  cbn [lr_malloc_loop] in Hr.
  destruct (MallocFromActive (S fuel) h s) as [[p1 s1]|] eqn:H1; [|discriminate].
  apply MallocFromActive_kept in H1.
  destruct (decide (p1 <> 0)); [injection Hr as _ <-; exact H1|].
  destruct (MallocFromPartial cfg (S fuel) h s1) as [[p2 s2]|] eqn:H2;
    [|discriminate].
  apply MallocFromPartial_kept in H2.
  destruct (decide (p2 <> 0)); [injection Hr as _ <-; congruence|].
  destruct (MallocFromNewSB cfg (S fuel) h s2) as [[p3 s3]|] eqn:H3;
    [|discriminate].
  apply MallocFromNewSB_kept in H3.
  destruct (decide (p3 <> 0)); [injection Hr as _ <-; congruence|].
  rewrite (IH _ _ _ _ Hr). congruence.
Qed.

Lemma Inv_lr_malloc_loop fuel : forall h s p s' pool pl,
  Inv_with cfg s pool pl ->
  0 <= h < MAX_SZ_IDX cfg ->
  2 <= sc_GetBlockNum (SizeClasses cfg h) <= 2 ^ 25 ->
  lr_malloc_loop cfg fuel h s = Some (p, s') ->
  exists pool' pl', Inv_with cfg s' pool' pl'.
Proof.
  induction fuel as [|fuel IH]; intros h s p s' pool pl HI Hh Hmc Hr;
    [discriminate|].
  cbn [lr_malloc_loop] in Hr.
  destruct (MallocFromActive (S fuel) h s) as [[p1 s1]|] eqn:H1; [|discriminate].
  pose proof (Inv_MallocFromActive cfg _ _ _ _ _ _ _ HI H1) as HI1.
  destruct (decide (p1 <> 0)); [injection Hr as _ <-; eauto|].
  destruct (MallocFromPartial cfg (S fuel) h s1) as [[p2 s2]|] eqn:H2;
    [|discriminate].
  destruct (Inv_MallocFromPartial cfg _ _ _ _ _ _ _ HI1 H2) as (pool2 & pl2 & HI2).
  destruct (decide (p2 <> 0)); [injection Hr as _ <-; eauto|].
  destruct (MallocFromNewSB cfg (S fuel) h s2) as [[p3 s3]|] eqn:H3;
    [|discriminate].
  destruct (Inv_MallocFromNewSB cfg Hcfg _ _ _ _ _ _ _ HI2 Hh Hmc H3)
    as (pool3 & HI3).
  destruct (decide (p3 <> 0)); [injection Hr as _ <-; eauto|].
  apply (IH _ _ _ _ _ _ HI3 Hh Hmc Hr).
Qed.

Lemma Inv_lr_malloc fuel size s p s' :
  Inv cfg s -> lr_malloc cfg fuel size s = Some (p, s') -> Inv cfg s'.
Proof.
  intros HI Hr. unfold lr_malloc in Hr.
  destruct (GetProcHeap cfg size s) as [hp s0] eqn:Hgp.
  destruct (Inv_GetProcHeap _ _ _ _ HI Hgp) as (Hinit & (pool & pl & HI0) & Hhp).
  destruct hp as [h|].
  - (* a size class *)
    destruct (Hhp h eq_refl) as [Hh Hmc].
    unfold Inv. rewrite (lr_malloc_loop_kept _ _ _ _ _ Hr), Hinit.
    apply (Inv_lr_malloc_loop _ _ _ _ _ _ _ HI0 Hh Hmc Hr).
  - (* large block allocation *)
    destruct (DescAlloc cfg fuel s0) as [[d s1]|] eqn:Halloc; [|discriminate].
    destruct (decide (d = 0)) as [|Hd0]; [discriminate|].
    destruct (Inv_DescAlloc cfg Hcfg _ _ _ _ _ _ HI0 Halloc Hd0)
      as (pool' & HI1 & Hwf & Hbelow & Hpriv & HH1 & HP1).
    pose proof (DescAlloc_kept _ _ _ _ _ Halloc) as Hk1.
    set (s4 := upd_desc d (with_maxcount 1)
                 (upd_desc d (with_blockSize (PAGE_CEILING cfg size))
                    (upd_desc d (with_heap None) s1))) in *.
    pose proof (PageAlloc_kept (PAGE_CEILING cfg size) s4) as Hk5.
    destruct (PageAlloc (PAGE_CEILING cfg size) s4) as [sb s5] eqn:HPA.
    cbn [snd] in Hk5.
    destruct (PageAlloc_frame cfg _ _ _ _ HPA)
      as (HA5 & HH5 & HD5 & HP5 & _ & HO5 & Hok5).
    set (anchor0 := with_tag 0 (with_state SB_FULL
                      (with_count 0 (with_avail 0 zeroAnchor)))) in *.
    set (s7 := put_anchor d anchor0 (upd_desc d (with_superblock sb) s5)) in *.
    injection Hr as _ <-.
    assert (Hdesc7 : desc_at s7 d =
              with_anchor anchor0
                (with_superblock sb
                   (with_maxcount 1
                      (with_blockSize (PAGE_CEILING cfg size)
                         (with_heap None (desc_at s1 d)))))).
    { unfold s7, put_anchor. rewrite !desc_at_upd_desc_eq. do 2 f_equal.
      unfold desc_at at 1. rewrite HD5. fold (desc_at s4 d).
      unfold s4. rewrite !desc_at_upd_desc_eq. reflexivity. }
    assert (Hother : forall x, x <> d -> descs s7 !! x = descs s1 !! x).
    { intros x Hx. unfold s7, put_anchor, upd_desc. cbn [descs set_descs].
      rewrite !lookup_insert_ne by congruence. rewrite HD5.
      unfold s4, upd_desc. cbn [descs set_descs].
      rewrite !lookup_insert_ne by congruence. reflexivity. }
    assert (HA7 : AvailDesc s7 = AvailDesc s1).
    { transitivity (AvailDesc s5); [reflexivity|]. rewrite HA5. reflexivity. }
    assert (HH7 : Heaps s7 = Heaps s1).
    { transitivity (Heaps s5); [reflexivity|]. rewrite HH5. reflexivity. }
    assert (HP7 : sPageMap s7 = sPageMap s1).
    { transitivity (sPageMap s5); [reflexivity|]. rewrite HP5. reflexivity. }
    assert (HO7 : forall q, q ∈ pageOracle s7 -> q ∈ pageOracle s1).
    { intros q Hq. apply (HO5 q). exact Hq. }
    assert (Hok7 : oracle_ok cfg (pageOracle s7)).
    { apply Hok5. apply (iw_oracle _ _ _ _ HI1). }
    assert (Hdom7 : is_Some (descs s7 !! d)).
    { unfold s7, put_anchor, upd_desc. simpl. rewrite lookup_insert_eq.
      eexists. reflexivity. }
    assert (Hcnt7 : heap (desc_at s7 d) <> None ->
              0 <= count (get_anchor d s7) <= maxcount (desc_at s7 d) - 1 /\
              maxcount (desc_at s7 d) <= 2 ^ 25).
    { intros Hne. rewrite Hdesc7 in Hne. destruct (Hne eq_refl). }
    assert (Hst7 : state (get_anchor d s7) <> SB_EMPTY).
    { unfold get_anchor. rewrite Hdesc7. discriminate. }
    destruct (Inv_new_desc cfg s1 s7 pool' pl d HI1 Hpriv Hwf Hbelow
                HA7 HH7 HP7 HO7 Hok7 Hother Hdom7 Hcnt7 Hst7) as [_ HI8].
    unfold Inv.
    assert (Hk8 : MallocInit (RegisterDesc cfg d s7) = true).
    { unfold RegisterDesc. rewrite UpdatePageMap_kept.
      transitivity (MallocInit s5); [reflexivity|]. rewrite Hk5.
      transitivity (MallocInit s1); [reflexivity|]. congruence. }
    rewrite Hk8. eauto.
Qed.

(** The anchor update of [lr_free]. *)
Lemma lr_free_push_spec d sb0 a ptr s :
  0 <= count a <= maxcount (desc_at s d) - 1 ->
  maxcount (desc_at s d) <= 2 ^ 25 ->
  let r := lr_free_push d sb0 a ptr s in
  (exists q v, snd r = store64 q v s) /\
  0 <= count (snd (fst r)) <= maxcount (desc_at s d) - 1 /\
  (count a = maxcount (desc_at s d) - 1 -> state (snd (fst r)) = SB_EMPTY) /\
  (count a <> maxcount (desc_at s d) - 1 ->
     count (snd (fst r)) = count a + 1 /\
     state (snd (fst r)) =
       if decide (state a = SB_FULL) then SB_PARTIAL else state a).
Proof.
  intros Hc Hm r. unfold r, lr_free_push. cbn [fst snd].
  change (desc_at (store64 ?q ?v s) d) with (desc_at s d).
  rewrite (u64_small (maxcount (desc_at s d) - 1)) by lia.
  split; [eexists _, _; reflexivity|].
  destruct (decide (count a = maxcount (desc_at s d) - 1)) as [Heq|Hne].
  - split; [|split; [reflexivity|contradiction]].
    destruct (decide (state a = SB_FULL)); cbn [count with_state with_avail]; lia.
  - assert (Hcnt : forall x : Anchor, count x = count a ->
              count (with_count (count x + 1) x) = count a + 1).
    { intros x Hx. cbn [count with_count]. rewrite Hx. apply bits25_small. lia. }
    destruct (decide (state a = SB_FULL)) as [Hf|Hnf].
    + rewrite Hcnt by reflexivity.
      split; [lia|]. split; [contradiction|]. intros _. split; reflexivity.
    + rewrite Hcnt by reflexivity.
      split; [lia|]. split; [contradiction|]. intros _. split; reflexivity.
Qed.

Lemma lr_free_kept fuel ptr s s' :
  lr_free cfg fuel ptr s = Some s' -> MallocInit s' = MallocInit s.
Proof.
  unfold lr_free. intros Hr.
  destruct (decide (ptr = 0)); [injection Hr as <-; reflexivity|].
  destruct (decide (GetDescriptorForPtr cfg ptr s = 0));
    [injection Hr as <-; reflexivity|].
  set (d := GetDescriptorForPtr cfg ptr s) in *.
  destruct (heap (desc_at s d)) as [h|].
  - destruct (cas_update fuel _ _ _ _ _ _) as [[[[u o] nw] s1]|] eqn:Hloop;
      [|discriminate].
    assert (Hk : MallocInit s1 = MallocInit s).
    { refine (cas_update_kept _ _ _ _ _ _ _ _ _ _ _ Hloop); reflexivity. }
    destruct (decide (state nw = SB_EMPTY)).
    + injection Hr as <-.
      exact (eq_trans
               (UpdatePageMap_kept cfg (Some h) (superblock (desc_at s d)) 0 s1) Hk).
    + destruct (decide (state o = SB_FULL)).
      * rewrite (HeapPushPartial_kept _ _ _ _ Hr). exact Hk.
      * injection Hr as <-. exact Hk.
  - unfold RemoveEmptyDesc, ListRemoveEmptyDesc in Hr.
    rewrite (DescRetire_kept _ _ _ _ Hr). unfold PageFree.
    cbn [MallocInit set_pages].
    destruct (decide (ptr <> superblock (desc_at s d))); unfold UnregisterDesc;
      rewrite !UpdatePageMap_kept; reflexivity.
Qed.

Lemma sPageMap_UpdatePageMap_ext hp ptr v s s' :
  sPageMap s' = sPageMap s -> Heaps s' = Heaps s ->
  sPageMap (UpdatePageMap cfg hp ptr v s') =
  sPageMap (UpdatePageMap cfg hp ptr v s).
Proof.
  intros HP HH. apply map_eq. intros k. rewrite !UpdatePageMap_lookup.
  rewrite HP.
  assert (Hk : map_keys cfg s' hp ptr = map_keys cfg s hp ptr).
  { unfold map_keys. destruct hp; [|reflexivity].
    unfold heap_at. rewrite HH. reflexivity. }
  rewrite Hk. reflexivity.
Qed.

(** [free] of a large allocation. *)
Lemma Inv_lr_free_large fuel ptr d s s' pool pl :
  Inv_with cfg s pool pl ->
  sPageMap s !! page_key cfg ptr = Some d -> d <> 0 ->
  heap (desc_at s d) = None ->
  (forall k, sPageMap s !! k = Some d ->
     k = page_key cfg (superblock (desc_at s d)) \/ k = page_key cfg ptr) ->
  DescRetire fuel d
    (PageFree (superblock (desc_at s d))
       (blockSize
          (desc_at
             (if decide (ptr <> superblock (desc_at s d))
              then UnregisterDesc cfg None ptr
                     (UnregisterDesc cfg None (superblock (desc_at s d)) s)
              else UnregisterDesc cfg None (superblock (desc_at s d)) s) d))
       (if decide (ptr <> superblock (desc_at s d))
        then UnregisterDesc cfg None ptr
               (UnregisterDesc cfg None (superblock (desc_at s d)) s)
        else UnregisterDesc cfg None (superblock (desc_at s d)) s)) = Some s' ->
  Inv_with cfg s' (d :: pool) pl.
Proof.
  intros HI Hentry Hd0 Hheap Hok Hr.
  destruct (iw_pagemap _ _ _ _ HI _ d Hentry Hd0) as (Hwf & Hdom & Hnp & _).
  set (sb := superblock (desc_at s d)) in *.
  set (s1 := UnregisterDesc cfg None sb s) in *.
  set (s2 := if decide (ptr <> sb) then UnregisterDesc cfg None ptr s1 else s1) in *.
  assert (H1 : Inv_with cfg s1 pool pl).
  { unfold s1, UnregisterDesc. apply Inv_UpdatePageMap; [exact HI|].
    intros Hz. destruct (Hz eq_refl). }
  assert (H2 : Inv_with cfg s2 pool pl /\ Heaps s2 = Heaps s /\
               descs s2 = descs s /\
               forall k, sPageMap s2 !! k <> Some d).
  { assert (Hl1 : forall k, sPageMap s1 !! k =
              if decide (k = page_key cfg sb) then Some 0 else sPageMap s !! k).
    { intros k. unfold s1, UnregisterDesc. rewrite UpdatePageMap_lookup.
      cbn [map_keys]. destruct (decide (k = page_key cfg sb)) as [->|Hne].
      - rewrite decide_True by (apply list_elem_of_singleton; reflexivity).
        reflexivity.
      - rewrite decide_False by (rewrite list_elem_of_singleton; exact Hne).
        reflexivity. }
    unfold s2. destruct (decide (ptr <> sb)) as [Hne|Heq].
    - split; [|split; [reflexivity|split; [reflexivity|]]].
      + unfold UnregisterDesc. apply Inv_UpdatePageMap; [exact H1|].
        intros Hz. destruct (Hz eq_refl).
      + intros k Hk. unfold UnregisterDesc in Hk.
        rewrite UpdatePageMap_lookup in Hk. cbn [map_keys] in Hk.
        destruct (decide (k ∈ [page_key cfg ptr])) as [Hin|Hnin]; [congruence|].
        rewrite Hl1 in Hk.
        destruct (decide (k = page_key cfg sb)) as [->|Hnk]; [congruence|].
        destruct (Hok k Hk) as [->| ->]; [contradiction|].
        apply Hnin, list_elem_of_singleton. reflexivity.
    - split; [exact H1|]. split; [reflexivity|]. split; [reflexivity|].
      assert (Hps : ptr = sb) by (destruct (decide (ptr = sb)); tauto).
      intros k Hk. rewrite Hl1 in Hk.
      destruct (decide (k = page_key cfg sb)) as [->|Hnk]; [congruence|].
      destruct (Hok k Hk) as [->| ->]; [contradiction|].
      rewrite Hps in Hnk. contradiction. }
  destruct H2 as (H2 & HH2 & HD2 & Hno).
  set (s3 := PageFree sb _ s2) in *.
  assert (H3 : Inv_with cfg s3 pool pl).
  { apply (step_frame cfg s2 s3 pool pl H2); try reflexivity.
    - intros q Hq. exact Hq.
    - apply (iw_oracle _ _ _ _ H2). }
  apply (Inv_DescRetire cfg fuel d s3 s' pool pl H3 Hwf); [| |exact Hr].
  - change (descs s3) with (descs s2). rewrite HD2. exact Hdom.
  - split; [exact Hnp|]. split; [|split; [|exact Hno]].
    + intros h' Hin.
      destruct (iw_member _ _ _ _ HI h' d Hin) as (_ & _ & _ & Hh' & _).
      congruence.
    + intros h' Hh' Heq.
      assert (Hga : get_active h' s3 = get_active h' s).
      { unfold get_active, heap_at. change (Heaps s3) with (Heaps s2).
        rewrite HH2. reflexivity. }
      unfold active_desc in Heq. rewrite Hga in Hh', Heq.
      destruct (iw_active _ _ _ _ HI h' Hh') as (_ & _ & _ & _ & Hh'' & _).
      unfold active_desc in Hh''. rewrite Heq in Hh''. congruence.
Qed.

(** [free] of a block of a size class. *)
Lemma Inv_lr_free_small fuel ptr d h s s' pool pl :
  Inv_with cfg s pool pl ->
  sPageMap s !! page_key cfg ptr = Some d -> d <> 0 ->
  heap (desc_at s d) = Some h ->
  match
    cas_update fuel (get_anchor d) (put_anchor d)
      (lr_free_push d (superblock (desc_at s d))) (get_anchor d s) ptr s
  with
  | None => None
  | Some (_, oldAnchor, newAnchor, s1) =>
      if decide (state newAnchor = SB_EMPTY)
      then
        let s2 := UnregisterDesc cfg (Some h) (superblock (desc_at s d)) s1 in
        let s3 :=
          PageFree (superblock (desc_at s d))
            (sc_sbSize (SizeClasses cfg (sizeclass (heap_at s2 h)))) s2 in
        Some (RemoveEmptyDesc (Some h) d s3)
      else if decide (state oldAnchor = SB_FULL)
      then HeapPushPartial fuel d s1
      else Some s1
  end = Some s' ->
  exists pl', Inv_with cfg s' pool pl'.
Proof.
  intros HI Hentry Hd0 Hheap Hr.
  destruct (iw_pagemap _ _ _ _ HI _ d Hentry Hd0) as (Hwf & Hdom & Hnp & Hpm).
  assert (Hsmall : heap (desc_at s d) <> None) by (rewrite Hheap; discriminate).
  destruct (Hpm Hsmall) as [Hne0 _].
  destruct (iw_count _ _ _ _ HI d Hsmall) as [Hc Hm].
  set (sb := superblock (desc_at s d)) in *.
  destruct (cas_update fuel _ _ _ _ _ _) as [[[[u o] nw] s1]|] eqn:Hloop;
    [|discriminate].
  apply cas_update_result in Hloop; [|reflexivity].
  destruct (lr_free_push_spec d sb (get_anchor d s) ptr s Hc Hm)
    as ((q & v & HsA) & Hcn & HE & HNE).
  set (r := lr_free_push d sb (get_anchor d s) ptr s) in *.
  assert (Ho : o = get_anchor d s) by congruence.
  assert (Hnw : nw = snd (fst r)) by congruence.
  assert (Hs1 : s1 = put_anchor d (snd (fst r)) (snd r)) by congruence.
  clear Hloop. rewrite HsA in Hs1.
  set (sA := store64 q v s) in *.
  set (newA := snd (fst r)) in *.
  assert (HA : Inv_with cfg sA pool pl).
  { apply (step_frame cfg s sA pool pl HI); try reflexivity.
    - intros x Hx. exact Hx.
    - apply (iw_oracle _ _ _ _ HI). }
  assert (Hmember : forall h', d ∈ pl h' ->
            state (get_anchor d s) = SB_PARTIAL /\ 1 <= count (get_anchor d s)).
  { intros h' Hin.
    destruct (iw_member _ _ _ _ HI h' d Hin) as (_ & _ & _ & _ & Hst & Hcnt).
    destruct Hst as [Hst|Hst]; [|contradiction]. auto. }
  assert (Hactive : forall h', get_active h' s <> 0 -> active_desc s h' = d ->
            state (get_anchor d s) <> SB_FULL).
  { intros h' Hh' Heq.
    destruct (iw_active _ _ _ _ HI h' Hh') as (_ & _ & _ & _ & _ & Hst).
    rewrite Heq in Hst. exact Hst. }
  subst o nw s1.
  destruct (decide (state newA = SB_EMPTY)) as [Hempty|Hnonempty].
  - (* the superblock is given back *)
    injection Hr as <-. unfold RemoveEmptyDesc, ListRemoveEmptyDesc.
    destruct (Inv_unregister cfg sA pool pl d
                (sc_sbSize (SizeClasses cfg (sizeclass (heap_at sA h)))) HA Hd0)
      as (HT1 & HAT & HHT & HDT & Hno & _).
    { intros k Hk. apply (iw_pagemap _ _ _ _ HA k d Hk Hd0). exact Hsmall. }
    change (superblock (desc_at sA d)) with sb in *.
    change (heap (desc_at sA d)) with (heap (desc_at s d)) in *.
    rewrite Hheap in *.
    set (T1 := PageFree sb _ (UnregisterDesc cfg (Some h) sb sA)) in *.
    assert (HT2 : Inv_with cfg (put_anchor d newA T1) pool pl).
    { apply step_put_anchor; [exact HT1|rewrite HDT; exact Hdom|..].
      - intros h' _. rewrite Hempty. split; [right; reflexivity|discriminate].
      - intros h' _ _. rewrite Hempty. discriminate.
      - intros _. unfold desc_at. rewrite HDT. exact Hcn.
      - intros k Hk. destruct (Hno k Hk). }
    set (F := UnregisterDesc cfg (Some h) sb (put_anchor d newA sA)).
    assert (HF : same_but_pagemap (put_anchor d newA sA) F)
      by apply UpdatePageMap_frame.
    destruct HF as (HAF & _ & HHF & HDF & _ & HOF & _).
    assert (Hfinal : forall X, Inv_with cfg (PageFree sb X F) pool pl).
    { intros X. apply (step_frame cfg _ _ pool pl HT2).
      - transitivity (AvailDesc F); [reflexivity|]. rewrite HAF.
        symmetry. exact HAT.
      - transitivity (Heaps F); [reflexivity|]. rewrite HHF.
        symmetry. exact HHT.
      - transitivity (descs F); [reflexivity|]. rewrite HDF.
        unfold put_anchor, upd_desc. cbn [descs set_descs].
        rewrite HDT. unfold desc_at. rewrite HDT. reflexivity.
      - transitivity (sPageMap F); [reflexivity|].
        transitivity (sPageMap (UnregisterDesc cfg (Some h) sb sA));
          [|reflexivity].
        apply sPageMap_UpdatePageMap_ext; reflexivity.
      - intros x Hx. assert (Hx' : x ∈ pageOracle F) by exact Hx.
        rewrite HOF in Hx'.
        assert (HT : same_but_pagemap sA (UnregisterDesc cfg (Some h) sb sA))
          by apply UpdatePageMap_frame.
        destruct HT as (_ & _ & _ & _ & _ & HO' & _).
        assert (Hgoal : x ∈ pageOracle (UnregisterDesc cfg (Some h) sb sA));
          [rewrite HO'; exact Hx'|exact Hgoal].
      - assert (Hgoal : oracle_ok cfg (pageOracle F));
          [rewrite HOF; apply (iw_oracle _ _ _ _ HI)|exact Hgoal]. }
    exists pl. exact (Hfinal _).
  - (* a block is added to the free list *)
    assert (Hnemp : count (get_anchor d s) <> maxcount (desc_at s d) - 1).
    { intros Heq. apply Hnonempty, HE, Heq. }
    destruct (HNE Hnemp) as [Hcount Hstate].
    assert (H1 : Inv_with cfg (put_anchor d newA sA) pool pl).
    { apply step_put_anchor; [exact HA|exact Hdom|..].
      - intros h' Hin. destruct (Hmember h' Hin) as [Hst Hcnt].
        rewrite Hstate, Hst, decide_False by discriminate.
        split; [left; reflexivity|]. intros _. rewrite Hcount. lia.
      - intros h' Hh' Heq. rewrite Hstate.
        pose proof (Hactive h' Hh' Heq) as Hnf.
        rewrite decide_False by exact Hnf. exact Hnf.
      - intros _. exact Hcn.
      - intros _ _ _ _. exact Hnonempty. }
    destruct (decide (state (get_anchor d s) = SB_FULL)) as [Hfull|Hnfull].
    + eexists.
      apply (Inv_HeapPushPartial cfg fuel h d _ s' pool pl H1 Hwf); try exact Hr.
      * unfold put_anchor, upd_desc. simpl. rewrite lookup_insert_eq.
        eexists. reflexivity.
      * exact Hnp.
      * intros h' Hin. destruct (Hmember h' Hin) as [Hst _]. congruence.
      * intros Hh' Heq. apply (Hactive h Hh' Heq). exact Hfull.
      * unfold put_anchor. rewrite desc_at_upd_desc_eq. exact Hheap.
      * rewrite get_anchor_put_anchor. left. exact Hstate.
      * rewrite get_anchor_put_anchor. intros _. rewrite Hcount. lia.
    + injection Hr as <-. exists pl. exact H1.
Qed.

Lemma Inv_lr_free fuel ptr s s' :
  Inv cfg s -> free_ok cfg s ptr -> lr_free cfg fuel ptr s = Some s' ->
  Inv cfg s'.
Proof.
  intros HI Hok Hr. pose proof (lr_free_kept _ _ _ _ Hr) as Hk.
  unfold Inv in *. rewrite Hk. unfold lr_free in Hr.
  destruct (decide (ptr = 0)); [injection Hr as <-; exact HI|].
  set (d := GetDescriptorForPtr cfg ptr s) in *.
  destruct (decide (d = 0)) as [|Hd0]; [injection Hr as <-; exact HI|].
  assert (Hentry : sPageMap s !! page_key cfg ptr = Some d).
  { unfold d, GetDescriptorForPtr, GetPageInfo in Hd0 |- *.
    destruct (sPageMap s !! page_key cfg ptr) as [x|]; [reflexivity|].
    destruct (Hd0 eq_refl). }
  destruct (MallocInit s).
  - destruct HI as (pool & pl & HI).
    destruct (heap (desc_at s d)) as [h|] eqn:Hheap.
    + destruct (Inv_lr_free_small fuel ptr d h s s' pool pl HI Hentry Hd0 Hheap Hr)
        as (pl' & HI').
      eauto.
    + unfold RemoveEmptyDesc, ListRemoveEmptyDesc in Hr.
      exists (d :: pool), pl.
      apply (Inv_lr_free_large fuel ptr d s s' pool pl HI Hentry Hd0 Hheap);
        [|exact Hr].
      apply Hok. exact Hheap.
  - destruct HI as (_ & _ & HP & _). rewrite HP, lookup_empty in Hentry.
    discriminate.
Qed.

(** Writes to user memory. *)
Lemma Inv_set_mem m s : Inv cfg s -> Inv cfg (set_mem m s).
Proof.
  unfold Inv. change (MallocInit (set_mem m s)) with (MallocInit s).
  destruct (MallocInit s).
  - intros (pool & pl & HI). exists pool, pl.
    apply (step_frame cfg s _ pool pl HI); try reflexivity.
    + intros x Hx. exact Hx.
    + apply (iw_oracle _ _ _ _ HI).
  - intros H. exact H.
Qed.

Lemma Inv_lr_calloc fuel n size s p s' :
  Inv cfg s -> lr_calloc cfg fuel n size s = Some (p, s') -> Inv cfg s'.
Proof.
  intros HI Hr. unfold lr_calloc in Hr.
  destruct (decide _) in Hr; [injection Hr as _ <-; exact HI|].
  destruct (lr_malloc cfg fuel _ s) as [[q s1]|] eqn:Hm; [|discriminate].
  pose proof (Inv_lr_malloc _ _ _ _ _ HI Hm) as H1.
  destruct (decide (q <> 0)); injection Hr as _ <-;
    [apply Inv_set_mem|]; exact H1.
Qed.

Lemma Inv_lr_realloc fuel ptr size s p s' :
  Inv cfg s ->
  (forall r s1, lr_malloc cfg fuel size s = Some (r, s1) -> free_ok cfg s1 ptr) ->
  lr_realloc cfg fuel ptr size s = Some (p, s') -> Inv cfg s'.
Proof.
  intros HI Hok Hr. unfold lr_realloc in Hr.
  destruct (lr_malloc cfg fuel size s) as [[q s1]|] eqn:Hm; [|discriminate].
  pose proof (Inv_lr_malloc _ _ _ _ _ HI Hm) as H1.
  specialize (Hok q s1 eq_refl).
  destruct (decide (ptr <> 0 /\ q <> 0)).
  - destruct (decide (GetDescriptorForPtr cfg ptr s1 = 0)); [discriminate|].
    destruct (lr_free cfg fuel ptr _) as [s3|] eqn:Hf; [|discriminate].
    injection Hr as _ <-.
    apply (Inv_lr_free _ _ _ _ (Inv_set_mem _ _ H1) Hok Hf).
  - destruct (lr_free cfg fuel ptr s1) as [s3|] eqn:Hf; [|discriminate].
    injection Hr as _ <-. apply (Inv_lr_free _ _ _ _ H1 Hok Hf).
Qed.

Lemma Inv_lr_posix_memalign fuel memptr alignment size s r p s' :
  Inv cfg s ->
  lr_posix_memalign cfg fuel memptr alignment size s = Some (r, p, s') ->
  Inv cfg s'.
Proof.
  intros HI Hr. unfold lr_posix_memalign in Hr.
  destruct (lr_malloc cfg fuel _ s) as [[q s1]|] eqn:Hm; [|discriminate].
  pose proof (Inv_lr_malloc _ _ _ _ _ HI Hm) as H1.
  destruct (decide (q = 0)); [injection Hr as _ _ <-; exact H1|].
  set (d := GetDescriptorForPtr cfg q s1) in *.
  destruct (decide (d = 0)) as [|Hd0]; [discriminate|].
  assert (Hs' : s' = match heap (desc_at s1 d) with
                     | None => UpdatePageMap cfg None (ALIGN_ADDR cfg q alignment) d s1
                     | Some _ => s1
                     end) by congruence.
  clear Hr. subst s'.
  destruct (heap (desc_at s1 d)) as [h|] eqn:Hheap; [exact H1|].
  assert (Hentry : sPageMap s1 !! page_key cfg q = Some d).
  { unfold d, GetDescriptorForPtr, GetPageInfo in Hd0 |- *.
    destruct (sPageMap s1 !! page_key cfg q) as [x|]; [reflexivity|].
    destruct (Hd0 eq_refl). }
  unfold Inv in *. rewrite UpdatePageMap_kept.
  destruct (MallocInit s1).
  - destruct H1 as (pool & pl & H1). exists pool, pl.
    destruct (iw_pagemap _ _ _ _ H1 _ d Hentry Hd0) as (Hwf & Hdom & Hnp & _).
    apply Inv_UpdatePageMap; [exact H1|]. intros _.
    split; [exact Hwf|]. split; [exact Hdom|]. split; [exact Hnp|].
    intros Hne. rewrite Hheap in Hne. destruct (Hne eq_refl).
  - destruct H1 as (_ & _ & HP & _). rewrite HP, lookup_empty in Hentry.
    discriminate.
Qed.

Lemma Inv_lr_aligned_alloc fuel alignment size s p s' :
  Inv cfg s -> lr_aligned_alloc cfg fuel alignment size s = Some (p, s') ->
  Inv cfg s'.
Proof.
  intros HI Hr. unfold lr_aligned_alloc in Hr.
  destruct (lr_posix_memalign cfg fuel 0 alignment size s) as [[[r q] s1]|]
    eqn:Hm; [|discriminate].
  pose proof (Inv_lr_posix_memalign _ _ _ _ _ _ _ _ HI Hm) as H1.
  destruct (decide (r <> 0)); injection Hr as _ <-; exact H1.
Qed.

(** Every state one thread reaches satisfies the invariant. *)
Lemma reachable_Inv s0 s : Inv cfg s0 -> reachable cfg s0 s -> Inv cfg s.
Proof.
  intros H0 Hreach.
  induction Hreach as
    [ | s m _ IH | s fuel n p s' _ IH Hr | s fuel p s' _ IH Hok Hr
      | s fuel n sz p s' _ IH Hr | s fuel p n q s' _ IH Hok Hr
      | s fuel m a n r p s' _ IH Hr | s fuel a n p s' _ IH Hr
      | s fuel n p s' _ IH Hr | s fuel a n p s' _ IH Hr
      | s fuel n p s' _ IH Hr ].
  - exact H0.
  - apply Inv_set_mem, IH.
  - apply (Inv_lr_malloc _ _ _ _ _ IH Hr).
  - apply (Inv_lr_free _ _ _ _ IH Hok Hr).
  - apply (Inv_lr_calloc _ _ _ _ _ _ IH Hr).
  - apply (Inv_lr_realloc _ _ _ _ _ _ IH Hok Hr).
  - apply (Inv_lr_posix_memalign _ _ _ _ _ _ _ _ IH Hr).
  - apply (Inv_lr_aligned_alloc _ _ _ _ _ _ IH Hr).
  - apply (Inv_lr_aligned_alloc _ _ _ _ _ _ IH Hr).
  - apply (Inv_lr_aligned_alloc _ _ _ _ _ _ IH Hr).
  - apply (Inv_lr_aligned_alloc _ _ _ _ _ _ IH Hr).
Qed.

Lemma Inv_init_state oracle : oracle_ok cfg oracle -> Inv cfg (init_state oracle).
Proof. intros Hok. unfold Inv, pristine. simpl. auto. Qed.

End Interface.

(** *** The test configuration meets the assumptions *)

Lemma test_cfg_ok : cfg_ok test_cfg.
Proof.
  constructor.
  - reflexivity.
  - reflexivity.
  - intros x Hx. cbn [ALIGN_ADDR CACHELINE test_cfg].
    change (64 - 1) with (Z.ones 6).
    rewrite <- Z.ldiff_land, Z.ldiff_ones_r by lia.
    rewrite Z.shiftr_div_pow2, Z.shiftl_mul_pow2 by lia.
    change (2 ^ 6) with 64. split.
    + pose proof (Z.div_mod (x + 64 - 1) 64 ltac:(lia)) as Hdm.
      pose proof (Z.mod_pos_bound (x + 64 - 1) 64 ltac:(lia)) as Hb. lia.
    + apply Z.mod_mul. lia.
  - intros n Hn. cbn [GetSizeClass SizeClasses MAX_SZ_IDX test_cfg] in *.
    unfold test_GetSizeClass in *.
    destruct (decide (n <= 16)); [vm_compute; intuition discriminate|].
    destruct (decide (n <= 1024)); [vm_compute; intuition discriminate|].
    destruct (decide (n <= 2048)); [vm_compute; intuition discriminate|].
    destruct (Hn eq_refl).
Qed.

Lemma test_oracle_ok : oracle_ok test_cfg test_oracle.
Proof.
  unfold test_oracle. cbn [oracle_ok].
  change (DESCRIPTOR_BLOCK_SZ test_cfg) with 65536.
  repeat match goal with
         | |- _ /\ _ => split
         | |- forall q, q ∈ _ -> _ =>
             let Hq := fresh "Hq" in
             intros q Hq;
             repeat (apply elem_of_cons in Hq as [->|Hq]; [lia|]);
             apply elem_of_nil in Hq; destruct Hq
         | |- True => exact I
         | |- _ => first [reflexivity | lia]
         end.
Qed.


Lemma counted_state_reachable :
  reachable test_cfg (init_state test_oracle) counted_state.
Proof.
  apply (reach_free test_cfg _ counted_alloc 1024 2097152).
  - apply (reach_malloc test_cfg _ (init_state test_oracle) 1024 24 2097152).
    + apply reach_start.
    + run_eq.
  - unfold free_ok. intros Hnone. exfalso. vm_compute in Hnone. discriminate.
  - apply final_result. vm_compute. reflexivity.
Qed.


(** * Further properties of the allocator *)

(** ** Active words *)

(** X1: an active word made by [MakeActive] from a descriptor address
    whose six low bits are clear and from fewer than [CREDITS_MAX] credits
    (the two assertions of [MakeActive]) is taken apart by [GetActive]
    into the same descriptor and credits. *)
Theorem GetActive_after_MakeActive (d c : Z) :
  0 <= d < 2 ^ 64 -> Z.land d CREDITS_MASK = 0 -> 0 <= c < CREDITS_MAX ->
  GetActive (MakeActive d c) = (d, c).
Proof.
  intros Hd Hmask Hc. change CREDITS_MAX with 64 in Hc.
  apply GetActive_MakeActive; [exact Hd| |exact Hc].
  change CREDITS_MASK with (Z.ones 6) in Hmask.
  rewrite Z.land_ones in Hmask by lia. exact Hmask.
Qed.

Lemma GetActive_after_MakeActive_witness :
  GetActive (MakeActive 1048576 2) = (1048576, 2).
Proof.
  apply GetActive_after_MakeActive;
    [lia|reflexivity|change CREDITS_MAX with 64; lia].
Defined.

(** X2: every 64-bit active word is the descriptor and the credits
    [GetActive] reads from it, put together again by [MakeActive]; the
    descriptor has its six low bits clear and the credits are below
    [CREDITS_MAX]. *)
Theorem MakeActive_after_GetActive (w : Z) :
  0 <= w < 2 ^ 64 ->
  MakeActive (fst (GetActive w)) (snd (GetActive w)) = w /\
  Z.land (fst (GetActive w)) CREDITS_MASK = 0 /\
  0 <= snd (GetActive w) < CREDITS_MAX.
Proof.
  intros Hw.
  destruct (GetActive_fst_wf w) as [Hr Hal].
  pose proof (GetActive_snd_range w) as Hc.
  split; [|split].
  - rewrite MakeActive_add by assumption.
    unfold GetActive. cbn [fst snd]. rewrite land_desc_mask.
    change CREDITS_MASK with (Z.ones 6). rewrite Z.land_ones by lia.
    rewrite (Z.mod_small w) by lia. change (2 ^ 6) with 64.
    pose proof (Z.div_mod w 64 ltac:(lia)). lia.
  - change CREDITS_MASK with (Z.ones 6). rewrite Z.land_ones by lia.
    exact Hal.
  - change CREDITS_MAX with 64. exact Hc.
Qed.

Lemma MakeActive_after_GetActive_witness :
  MakeActive (fst (GetActive 1048578)) (snd (GetActive 1048578)) = 1048578 /\
  Z.land (fst (GetActive 1048578)) CREDITS_MASK = 0 /\
  0 <= snd (GetActive 1048578) < CREDITS_MAX.
Proof. apply MakeActive_after_GetActive. lia. Defined.

(** ** The page map *)

Section PageMapRegion.

Variable cfg : Config.
Hypothesis HPAGE : 0 < PAGE cfg.

(** The page of an address inside a page-aligned region. *)
Lemma page_key_inside (sb a : Z) :
  0 <= sb -> sb mod PAGE cfg = 0 -> sb <= a ->
  page_key cfg a = sb / PAGE cfg + (a - sb) / PAGE cfg.
Proof.
  intros H0 Hal Ha. unfold page_key.
  assert (Hsb : sb = PAGE cfg * (sb / PAGE cfg)) by (apply Z.div_exact; lia).
  replace a with ((a - sb) + (sb / PAGE cfg) * PAGE cfg) at 1 by lia.
  rewrite Z.div_add by lia. lia.
Qed.

Lemma loop_keys_inv (ptr bound : Z) (n : nat) : forall (idx k : Z),
  0 <= idx ->
  k ∈ loop_keys cfg n idx bound ptr ->
  exists off, idx <= off < bound /\ k = page_key cfg (ptr_add ptr off).
Proof.
  induction n as [|n IH]; intros idx k Hidx Hin; cbn [loop_keys] in Hin.
  - apply elem_of_nil in Hin. destruct Hin.
  - destruct (decide (idx < bound)) as [Hlt|Hge];
      [|apply elem_of_nil in Hin; destruct Hin].
    apply elem_of_cons in Hin as [->|Hin].
    + exists idx. split; [lia|reflexivity].
    + destruct (IH (idx + PAGE cfg) k ltac:(lia) Hin) as (off & Hoff & Hk).
      exists off. split; [lia|exact Hk].
Qed.

Lemma region_resolves (h sb v a : Z) (s : State) :
  let sbSize := sc_sbSize (SizeClasses cfg (sizeclass (heap_at s h))) in
  0 <= sb -> sb mod PAGE cfg = 0 -> sb + sbSize <= 2 ^ 64 ->
  sb <= a < sb + sbSize ->
  GetPageInfo cfg a (UpdatePageMap cfg (Some h) sb v s) = v.
Proof.
  intros sbSize H0 Hal Hmax Ha.
  set (k := (a - sb) / PAGE cfg).
  assert (Hk0 : 0 <= k) by (apply Z.div_pos; lia).
  assert (Hkle : k * PAGE cfg <= a - sb)
    by (rewrite Z.mul_comm; apply Z.mul_div_le; lia).
  rewrite <- (UpdatePageMap_small_sets cfg h sb v s k HPAGE Hk0) at 2
    by (fold sbSize; lia).
  unfold GetPageInfo. do 2 f_equal.
  rewrite (page_key_inside sb a) by lia.
  unfold ptr_add. rewrite u64_small by lia.
  rewrite (page_key_inside sb (sb + k * PAGE cfg)) by lia.
  replace (sb + k * PAGE cfg - sb) with (k * PAGE cfg) by lia.
  rewrite Z.div_mul by lia. reflexivity.
Qed.

Lemma region_frame (h sb v a : Z) (s : State) :
  let sbSize := sc_sbSize (SizeClasses cfg (sizeclass (heap_at s h))) in
  0 <= sb -> sb mod PAGE cfg = 0 -> sb + sbSize <= 2 ^ 64 ->
  sbSize mod PAGE cfg = 0 ->
  0 <= a -> a < sb \/ sb + sbSize <= a ->
  GetPageInfo cfg a (UpdatePageMap cfg (Some h) sb v s) = GetPageInfo cfg a s.
Proof.
  intros sbSize H0 Hal Hmax Hmul Ha0 Hout.
  unfold GetPageInfo. rewrite UpdatePageMap_lookup.
  rewrite decide_False; [reflexivity|].
  intros Hin. cbn [map_keys] in Hin. fold sbSize in Hin.
  apply loop_keys_inv in Hin as (off & Hoff & Hk); [|lia].
  unfold ptr_add in Hk. rewrite u64_small in Hk by lia.
  rewrite (page_key_inside sb (sb + off)) in Hk by lia.
  replace (sb + off - sb) with off in Hk by lia.
  assert (Hsz : sbSize = PAGE cfg * (sbSize / PAGE cfg))
    by (apply Z.div_exact; lia).
  assert (Hsb : sb = PAGE cfg * (sb / PAGE cfg)) by (apply Z.div_exact; lia).
  assert (Hoq : off / PAGE cfg < sbSize / PAGE cfg).
  { apply Z.div_lt_upper_bound; lia. }
  unfold page_key in Hk.
  pose proof (Z.div_mod a (PAGE cfg) ltac:(lia)) as Hdm.
  pose proof (Z.mod_pos_bound a (PAGE cfg) HPAGE) as Hmb.
  assert (Hoff0 : 0 <= off / PAGE cfg) by (apply Z.div_pos; lia).
  destruct Hout as [Hlow|Hhigh]; nia.
Qed.

(** X3: after [RegisterDesc] of a descriptor of a size class, whose
    superblock is page aligned, [GetDescriptorForPtr] finds the descriptor
    for every address of the superblock, not only for its first page. *)
Theorem RegisterDesc_resolves_superblock (s : State) (d h a : Z) :
  heap (desc_at s d) = Some h ->
  0 <= superblock (desc_at s d) ->
  superblock (desc_at s d) mod PAGE cfg = 0 ->
  superblock (desc_at s d)
    + sc_sbSize (SizeClasses cfg (sizeclass (heap_at s h))) <= 2 ^ 64 ->
  superblock (desc_at s d) <= a
    < superblock (desc_at s d)
      + sc_sbSize (SizeClasses cfg (sizeclass (heap_at s h))) ->
  GetDescriptorForPtr cfg a (RegisterDesc cfg d s) = d.
Proof.
  intros Hheap H0 Hal Hmax Ha. unfold GetDescriptorForPtr, RegisterDesc.
  rewrite Hheap. apply region_resolves; assumption.
Qed.

(** X4: [UnregisterDesc] of a superblock of a size class (page aligned,
    its size a multiple of the page size, as [UpdatePageMap] asserts)
    makes every address of the superblock resolve to the null descriptor,
    and changes what no address outside the superblock resolves to. *)
Theorem UnregisterDesc_clears_superblock (s : State) (h sb a : Z) :
  0 <= sb -> sb mod PAGE cfg = 0 ->
  sb + sc_sbSize (SizeClasses cfg (sizeclass (heap_at s h))) <= 2 ^ 64 ->
  sc_sbSize (SizeClasses cfg (sizeclass (heap_at s h))) mod PAGE cfg = 0 ->
  0 <= a ->
  GetDescriptorForPtr cfg a (UnregisterDesc cfg (Some h) sb s) =
    if decide (sb <= a
               < sb + sc_sbSize (SizeClasses cfg (sizeclass (heap_at s h))))
    then 0 else GetDescriptorForPtr cfg a s.
Proof.
  intros H0 Hal Hmax Hmul Ha. unfold GetDescriptorForPtr, UnregisterDesc.
  destruct (decide _) as [Hin|Hout].
  - apply region_resolves; assumption.
  - apply region_frame; try assumption. lia.
Qed.

End PageMapRegion.

(** Evaluation of a closed side condition on a concrete run. *)
Ltac by_run :=
  vm_compute;
  repeat match goal with |- _ /\ _ => split end;
  first [reflexivity | discriminate | (let H := fresh in intros H; discriminate H)].

Lemma RegisterDesc_resolves_superblock_witness :
  GetDescriptorForPtr test_cfg 2102152
    (RegisterDesc test_cfg 1048576 drain_state) = 1048576.
Proof.
  apply (RegisterDesc_resolves_superblock test_cfg ltac:(reflexivity)
           drain_state 1048576 3); by_run.
Defined.

Lemma UnregisterDesc_clears_superblock_witness :
  GetDescriptorForPtr test_cfg 2102152
    (UnregisterDesc test_cfg (Some 3) 2097152 drain_state) =
  if decide (2097152 <= 2102152
             < 2097152
               + sc_sbSize (SizeClasses test_cfg (sizeclass (heap_at drain_state 3))))
  then 0 else GetDescriptorForPtr test_cfg 2102152 drain_state.
Proof.
  apply (UnregisterDesc_clears_superblock test_cfg ltac:(reflexivity)
           drain_state 3 2097152 2102152); by_run.
Defined.

(** ** The recycle list of descriptors *)

(** X5: a descriptor given to [DescRetire] is the one the next
    [DescAlloc] returns; the recycle list then starts where it started
    before the two calls, with its counter advanced by one, and neither
    call asks the page provider for memory or touches a heap or the page
    map. *)
Theorem DescAlloc_after_DescRetire (cfg : Config) (fuel fuel' : nat)
        (d : Z) (s : State) :
  d <> 0 ->
  exists s1 s2,
    DescRetire (S fuel) d s = Some s1 /\
    DescAlloc cfg (S fuel') s1 = Some (d, s2) /\
    desc (AvailDesc s2) = desc (AvailDesc s) /\
    counter (AvailDesc s2) = u64 (counter (AvailDesc s) + 1) /\
    pageLog s2 = pageLog s /\ sPageMap s2 = sPageMap s /\
    Heaps s2 = Heaps s /\
    forall x, x <> d -> desc_at s2 x = desc_at s x.
Proof.
  intros Hd. rewrite DescRetire_pushes.
  set (s1 := set_AvailDesc _ _).
  assert (Hhead : AvailDesc s1 = mkNode d (u64 (counter (AvailDesc s) + 1)))
    by reflexivity.
  assert (Hnext : nextFree (desc_at s1 d) = AvailDesc s).
  { unfold s1. change (desc_at (set_AvailDesc ?n ?s0) d) with (desc_at s0 d).
    rewrite desc_at_upd_desc_eq. reflexivity. }
  exists s1, (set_AvailDesc
                (mkNode (desc (AvailDesc s)) (u64 (counter (AvailDesc s) + 1))) s1).
  split; [reflexivity|]. split.
  - unfold DescAlloc. cbn [DescAlloc_loop]. rewrite Hhead. cbn [desc counter].
    rewrite decide_False by exact Hd. rewrite decide_True by reflexivity.
    rewrite Hnext. reflexivity.
  - repeat (split; [reflexivity|]).
    intros x Hx.
    change (desc_at (upd_desc d (with_nextFree (AvailDesc s)) s) x = desc_at s x).
    apply desc_at_upd_desc_ne. congruence.
Qed.

Lemma DescAlloc_after_DescRetire_witness :
  exists s1 s2,
    DescRetire 1 1048576 counted_state = Some s1 /\
    DescAlloc test_cfg 1 s1 = Some (1048576, s2) /\
    desc (AvailDesc s2) = desc (AvailDesc counted_state) /\
    counter (AvailDesc s2) = u64 (counter (AvailDesc counted_state) + 1) /\
    pageLog s2 = pageLog counted_state /\ sPageMap s2 = sPageMap counted_state /\
    Heaps s2 = Heaps counted_state /\
    forall x, x <> 1048576 -> desc_at s2 x = desc_at counted_state x.
Proof. apply (DescAlloc_after_DescRetire test_cfg 0 0 1048576). lia. Defined.

(** ** The partial lists *)

(** X6: a descriptor pushed by [HeapPushPartial] on the partial list of
    its heap is the one the next [HeapPopPartial] on that heap returns;
    the list then starts where it started before, with its counter
    advanced by one, and the active words are what they were. *)
Theorem HeapPopPartial_after_HeapPushPartial (fuel fuel' : nat) (d h : Z)
        (s : State) :
  d <> 0 -> heap (desc_at s d) = Some h ->
  exists s1 s2,
    HeapPushPartial (S fuel) d s = Some s1 /\
    HeapPopPartial (S fuel') h s1 = Some (d, s2) /\
    desc (get_partialList h s2) = desc (get_partialList h s) /\
    counter (get_partialList h s2) = u64 (counter (get_partialList h s) + 1) /\
    (forall h', get_active h' s2 = get_active h' s) /\
    AvailDesc s2 = AvailDesc s /\ sPageMap s2 = sPageMap s.
Proof.
  intros Hd Hheap.
  set (old := get_partialList h s).
  set (new := mkNode d (u64 (counter old + 1))).
  set (s1 := put_partialList h new (upd_desc d (with_nextPartial old) s)).
  set (s2 := put_partialList h (mkNode (desc old) (counter new)) s1).
  exists s1, s2.
  assert (Hhead1 : get_partialList h s1 = new).
  { unfold get_partialList, s1, put_partialList.
    rewrite heap_at_upd_heap_eq. reflexivity. }
  assert (Hnext1 : nextPartial (desc_at s1 d) = old).
  { unfold s1. change (desc_at (put_partialList ?a ?b ?s0) d) with (desc_at s0 d).
    rewrite desc_at_upd_desc_eq. reflexivity. }
  split; [|split; [|split; [|split; [|split; [|split]]]]].
  - unfold HeapPushPartial, ListPushPartial. rewrite Hheap.
    rewrite (cas_update_once (get_partialList h) (put_partialList h)
               _ fuel old tt s tt new
               (upd_desc d (with_nextPartial old) s));
      reflexivity.
  - unfold HeapPopPartial, ListPopPartial. rewrite Hhead1.
    rewrite (cas_loop_next (get_partialList h) (put_partialList h)
               _ fuel' new tt s1 tt (mkNode (desc old) (counter new)) s1).
    + reflexivity.
    + cbn [desc counter new]. rewrite decide_False by exact Hd.
      rewrite Hnext1. reflexivity.
    + exact Hhead1.
  - unfold get_partialList, s2, put_partialList.
    rewrite heap_at_upd_heap_eq. reflexivity.
  - unfold get_partialList at 1, s2, put_partialList.
    rewrite heap_at_upd_heap_eq. reflexivity.
  - intros h'. unfold s2, s1. rewrite !get_active_put_partialList. reflexivity.
  - reflexivity.
  - reflexivity.
Qed.

Lemma HeapPopPartial_after_HeapPushPartial_witness :
  exists s1 s2,
    HeapPushPartial 1 1048576 counted_state = Some s1 /\
    HeapPopPartial 1 2 s1 = Some (1048576, s2) /\
    desc (get_partialList 2 s2) = desc (get_partialList 2 counted_state) /\
    counter (get_partialList 2 s2) =
      u64 (counter (get_partialList 2 counted_state) + 1) /\
    (forall h', get_active h' s2 = get_active h' counted_state) /\
    AvailDesc s2 = AvailDesc counted_state /\
    sPageMap s2 = sPageMap counted_state.
Proof.
  apply (HeapPopPartial_after_HeapPushPartial 0 0 1048576 2); by_run.
Defined.

(** X7: with no active superblock [MallocFromActive] returns null, and
    with an empty partial list [MallocFromPartial] returns null; neither
    changes the state.  The loop of [malloc] then returns whatever block
    [MallocFromNewSB] gives. *)
Theorem malloc_paths_on_empty_heap (cfg : Config) (fuel : nat) (h : Z)
        (s : State) :
  get_active h s = 0 -> desc (get_partialList h s) = 0 ->
  MallocFromActive (S fuel) h s = Some (0, s) /\
  MallocFromPartial cfg (S fuel) h s = Some (0, s) /\
  forall p s', MallocFromNewSB cfg (S fuel) h s = Some (p, s') -> p <> 0 ->
               lr_malloc_loop cfg (S fuel) h s = Some (p, s').
Proof.
  intros Ha Hp.
  assert (Hact : MallocFromActive (S fuel) h s = Some (0, s)).
  { unfold MallocFromActive, MallocFromActive_take.
    rewrite (cas_loop_exit (get_active h) (put_active h) _ fuel _ 0 s 0 s)
      by (rewrite decide_True by exact Ha; reflexivity).
    rewrite decide_False by lia. reflexivity. }
  assert (Hpart : MallocFromPartial cfg (S fuel) h s = Some (0, s)).
  { cbn [MallocFromPartial]. unfold HeapPopPartial, ListPopPartial.
    rewrite (cas_loop_exit (get_partialList h) (put_partialList h) _ fuel
               _ tt s 0 s)
      by (rewrite decide_True by exact Hp; reflexivity).
    rewrite decide_True by reflexivity. reflexivity. }
  split; [exact Hact|]. split; [exact Hpart|].
  intros p s' Hnew Hne. cbn [lr_malloc_loop].
  rewrite Hact. rewrite decide_False by lia.
  rewrite Hpart. rewrite decide_False by lia.
  rewrite Hnew. rewrite decide_True by exact Hne. reflexivity.
Qed.

Lemma malloc_paths_on_empty_heap_witness :
  MallocFromActive 1024 2 fresh_heap_state = Some (0, fresh_heap_state) /\
  MallocFromPartial test_cfg 1024 2 fresh_heap_state = Some (0, fresh_heap_state) /\
  forall p s', MallocFromNewSB test_cfg 1024 2 fresh_heap_state = Some (p, s') ->
               p <> 0 ->
               lr_malloc_loop test_cfg 1024 2 fresh_heap_state = Some (p, s').
Proof. apply (malloc_paths_on_empty_heap test_cfg 1023 2); by_run. Defined.

(** ** [calloc] and [realloc] *)

Lemma memset0_bytes (p k : Z) (s : State) (a : Z) :
  byte_at (memset0 p k s) a =
    if decide (p <= a < p + k) then 0 else byte_at s a.
Proof.
  unfold memset0, byte_at at 1. simpl.
  destruct (decide (k <= 0)) as [Hk|Hk].
  { rewrite decide_False by lia.
    replace (seqZ 0 k) with (@nil Z); [reflexivity|].
    symmetry. apply seqZ_nil. lia. }
  assert (Hgen : forall (len : nat) (from : Z),
    default 0 (foldr (fun i m => <[p + i := 0]> m)
                     (mem s) (seqZ from (Z.of_nat len)) !! a) =
    if decide (p + from <= a < p + from + Z.of_nat len)
    then 0 else byte_at s a).
  { induction len as [|len IH]; intros from.
    - simpl. rewrite decide_False by lia. reflexivity.
    - rewrite Nat2Z.inj_succ, seqZ_cons by lia. simpl.
      replace (Z.pred (Z.succ (Z.of_nat len))) with (Z.of_nat len) by lia.
      destruct (decide (p + from = a)) as [<-|Hne].
      + rewrite lookup_insert_eq. simpl. rewrite decide_True by lia.
        reflexivity.
      + rewrite lookup_insert_ne by exact Hne. rewrite IH.
        destruct (decide (p + Z.succ from <= a < p + Z.succ from + Z.of_nat len));
          [rewrite decide_True by lia | rewrite decide_False by lia]; reflexivity. }
  specialize (Hgen (Z.to_nat k) 0). rewrite Z2Nat.id in Hgen by lia.
  rewrite Hgen. replace (p + 0) with p by lia. reflexivity.
Qed.

Section Calloc.

Variable cfg : Config.

(** X8: the division test of [calloc] catches every overflow: whenever
    the product [n * size] of two sizes does not fit 64 bits, [calloc]
    returns null and changes nothing (it allocates nothing). *)
Theorem lr_calloc_detects_overflow (fuel : nat) (n sz : Z) (s : State) :
  0 < n -> 0 <= sz -> 2 ^ 64 <= n * sz ->
  lr_calloc cfg fuel n sz s = Some (0, s).
Proof.
  intros Hn Hsz Hov. apply lr_calloc_overflow.
  assert (Hu : 0 <= u64 (n * sz) < 2 ^ 64) by (apply Z.mod_pos_bound; lia).
  assert (Hlt : u64 (n * sz) / n < sz)
    by (apply Z.div_lt_upper_bound; lia).
  lia.
Qed.

(** X9: when the product fits 64 bits, [calloc(n, size)] is
    [malloc(n * size)] followed by zeroing: it returns the block of the
    [malloc], every byte of the block reads zero, and no byte outside the
    block and nothing of the allocator's own state differs from what the
    [malloc] left. *)
Theorem lr_calloc_zero_fills (fuel : nat) (n sz p : Z) (s s1 : State) :
  0 < n -> 0 <= sz -> n * sz < 2 ^ 64 ->
  lr_malloc cfg fuel (n * sz) s = Some (p, s1) -> p <> 0 ->
  exists s',
    lr_calloc cfg fuel n sz s = Some (p, s') /\
    (forall a, p <= a < p + n * sz -> byte_at s' a = 0) /\
    (forall a, ~ (p <= a < p + n * sz) -> byte_at s' a = byte_at s1 a) /\
    descs s' = descs s1 /\ Heaps s' = Heaps s1 /\
    sPageMap s' = sPageMap s1 /\ AvailDesc s' = AvailDesc s1.
Proof.
  intros Hn Hsz Hfit Hm Hp.
  assert (Hu : u64 (n * sz) = n * sz) by (apply u64_small; nia).
  exists (memset0 p (n * sz) s1). split; [|split; [|split]].
  - unfold lr_calloc. rewrite Hu.
    rewrite decide_False.
    + rewrite Hm. rewrite decide_True by exact Hp. reflexivity.
    + intros [H0|Hdiv]; [lia|]. apply Hdiv.
      rewrite Z.mul_comm. apply Z.div_mul. lia.
  - intros a Ha. rewrite memset0_bytes. rewrite decide_True by exact Ha.
    reflexivity.
  - intros a Ha. rewrite memset0_bytes. rewrite decide_False by exact Ha.
    reflexivity.
  - repeat split.
Qed.

(** X10: [realloc(NULL, n)] is [malloc(n)]: the same result and the same
    final state, whether the [malloc] gives a block or null. *)
Theorem lr_realloc_of_null_is_malloc (fuel : nat) (n : Z) (s : State) :
  lr_realloc cfg fuel 0 n s = lr_malloc cfg fuel n s.
Proof.
  unfold lr_realloc.
  destruct (lr_malloc cfg fuel n s) as [[newPtr s1]|]; [|reflexivity].
  rewrite decide_False by (intros [H0 _]; apply H0; reflexivity).
  rewrite lr_free_null. reflexivity.
Qed.

End Calloc.

Lemma lr_calloc_detects_overflow_witness :
  lr_calloc test_cfg 8 (2 ^ 33) (2 ^ 33) (init_state test_oracle) =
    Some (0, init_state test_oracle).
Proof. apply lr_calloc_detects_overflow; by_run. Defined.

Lemma lr_calloc_zero_fills_witness :
  exists s',
    lr_calloc test_cfg 1024 3 8 (init_state test_oracle) = Some (2097152, s') /\
    (forall a, 2097152 <= a < 2097152 + 3 * 8 -> byte_at s' a = 0) /\
    (forall a, ~ (2097152 <= a < 2097152 + 3 * 8) ->
               byte_at s' a = byte_at counted_alloc a) /\
    descs s' = descs counted_alloc /\ Heaps s' = Heaps counted_alloc /\
    sPageMap s' = sPageMap counted_alloc /\
    AvailDesc s' = AvailDesc counted_alloc.
Proof.
  apply (lr_calloc_zero_fills test_cfg 1024 3 8 2097152
           (init_state test_oracle) counted_alloc); try lia.
  change (3 * 8) with 24. run_eq.
Defined.

(** ** The active word *)

(** X11: when the exchange of [UpdateActive] fails, because the active
    word is no longer the one that was loaded, the credits go back to the
    anchor's count, the anchor becomes [SB_PARTIAL], the descriptor is
    pushed on the partial list of its own heap, and the active word of
    the heap is left as the other thread set it. *)
Theorem UpdateActive_exchange_failure (fuel : nat) (h d credits oldActive : Z)
        (s : State) (hd : Z) :
  get_active h s <> oldActive ->
  heap (desc_at s d) = Some hd ->
  exists s',
    UpdateActive_exchange (S fuel) h d credits oldActive s = Some s' /\
    get_active h s' = get_active h s /\
    state (get_anchor d s') = SB_PARTIAL /\
    count (get_anchor d s') = bits25 (count (get_anchor d s) + credits) /\
    avail (get_anchor d s') = avail (get_anchor d s) /\
    desc (get_partialList hd s') = d /\
    nextPartial (desc_at s' d) = get_partialList hd s.
Proof.
  intros Hne Hheap.
  destruct (UpdateActive_exchange_gives_back fuel h d credits oldActive s hd
              Hne Hheap) as (s' & Hr & Hact & Hanchor & Hlist & Hnext).
  exists s'. split; [exact Hr|]. split; [exact Hact|].
  rewrite Hanchor, Hlist. repeat split. exact Hnext.
Qed.

Lemma UpdateActive_exchange_failure_witness :
  exists s',
    UpdateActive_exchange 8 2 1048576 2 0 late_state = Some s' /\
    get_active 2 s' = get_active 2 late_state /\
    state (get_anchor 1048576 s') = SB_PARTIAL /\
    count (get_anchor 1048576 s') =
      bits25 (count (get_anchor 1048576 late_state) + 2) /\
    avail (get_anchor 1048576 s') = avail (get_anchor 1048576 late_state) /\
    desc (get_partialList 2 s') = 1048576 /\
    nextPartial (desc_at s' 1048576) = get_partialList 2 late_state.
Proof.
  apply (UpdateActive_exchange_failure 7 2 1048576 2 0 late_state 2); by_run.
Defined.

Section Credits.

Variables (h : Z) (s : State) (d c : Z).

Hypothesis Hd : 0 <= d < 2 ^ 64.
Hypothesis Hal : d mod 64 = 0.
Hypothesis Hc : 0 < c < 64.
Hypothesis Hactive : get_active h s = MakeActive d c.

Let a : Anchor := get_anchor d s.
Let ptr : Z :=
  ptr_add (superblock (desc_at s d)) (u64 (avail a * blockSize (desc_at s d))).

(** [MallocFromActive] while the active word has credits. *)
Lemma MallocFromActive_credits_run (fuel : nat) :
  MallocFromActive (S fuel) h s =
    Some (ptr,
          put_anchor d (with_tag (tag a + 1) (with_avail (load64 ptr s) a))
            (put_active h (MakeActive d (c - 1)) s)).
Proof.
  assert (Hword : MakeActive d c <> 0).
  { rewrite MakeActive_add by (try assumption; lia). lia. }
  assert (Hget : GetActive (MakeActive d c) = (d, c))
    by (apply GetActive_MakeActive; try assumption; lia).
  unfold MallocFromActive, MallocFromActive_take. rewrite Hactive.
  rewrite (cas_loop_next (get_active h) (put_active h) _ fuel
             (MakeActive d c) 0 s c (MakeActive d (c - 1)) s).
  2:{ rewrite decide_False by exact Hword. rewrite Hget.
      rewrite decide_True by lia. reflexivity. }
  2:{ exact Hactive. }
  assert (Hdesc : Z.land (MakeActive d c) (u64 (Z.lnot CREDITS_MASK)) = d).
  { unfold GetActive in Hget. congruence. }
  rewrite Hdesc.
  set (s1 := put_active h (MakeActive d (c - 1)) s).
  assert (Hpop : MallocFromActive_pop d c (get_anchor d s1) (0, 0) s1 =
            ((ptr, 0), with_tag (tag a + 1) (with_avail (load64 ptr s) a), s1)).
  { unfold MallocFromActive_pop. rewrite decide_False by lia. reflexivity. }
  rewrite (cas_update_once (get_anchor d) (put_anchor d) _ fuel _ _ _ _ _ _
             Hpop eq_refl).
  rewrite decide_False by lia. reflexivity.
Qed.

(** X12: while the active word of a heap holds credits, [MallocFromActive]
    returns the block at index [anchor.avail] of the active superblock,
    takes one credit off the active word, moves [anchor.avail] to the index
    stored in the block and advances the tag; the count and the state of
    the anchor, the page map, the lists and the page provider are not
    touched. *)
Theorem MallocFromActive_with_credits (fuel : nat) :
  exists s',
    MallocFromActive (S fuel) h s = Some (ptr, s') /\
    get_active h s' = MakeActive d (c - 1) /\
    avail (get_anchor d s') = bits25 (load64 ptr s) /\
    tag (get_anchor d s') = bits12 (tag a + 1) /\
    count (get_anchor d s') = count a /\
    state (get_anchor d s') = state a /\
    sPageMap s' = sPageMap s /\ pageLog s' = pageLog s /\
    AvailDesc s' = AvailDesc s /\ mem s' = mem s /\
    (forall h', get_partialList h' s' = get_partialList h' s).
Proof.
  rewrite MallocFromActive_credits_run. eexists. split; [reflexivity|].
  rewrite get_active_put_anchor, get_active_put_active.
  rewrite get_anchor_put_anchor.
  repeat (split; [reflexivity|]).
  intros h'. unfold get_partialList.
  change (heap_at (put_anchor ?x ?y ?s0) h') with (heap_at s0 h').
  unfold put_active. destruct (decide (h = h')) as [->|Hne].
  - rewrite heap_at_upd_heap_eq. reflexivity.
  - rewrite heap_at_upd_heap_ne by exact Hne. reflexivity.
Qed.

End Credits.

Lemma MallocFromActive_with_credits_witness :
  exists s',
    MallocFromActive 8 2 counted_alloc =
      Some (ptr_add (superblock (desc_at counted_alloc 1048576))
              (u64 (avail (get_anchor 1048576 counted_alloc)
                    * blockSize (desc_at counted_alloc 1048576))), s') /\
    get_active 2 s' = MakeActive 1048576 (2 - 1) /\
    avail (get_anchor 1048576 s') =
      bits25 (load64
                (ptr_add (superblock (desc_at counted_alloc 1048576))
                   (u64 (avail (get_anchor 1048576 counted_alloc)
                         * blockSize (desc_at counted_alloc 1048576))))
                counted_alloc) /\
    tag (get_anchor 1048576 s') =
      bits12 (tag (get_anchor 1048576 counted_alloc) + 1) /\
    count (get_anchor 1048576 s') = count (get_anchor 1048576 counted_alloc) /\
    state (get_anchor 1048576 s') = state (get_anchor 1048576 counted_alloc) /\
    sPageMap s' = sPageMap counted_alloc /\ pageLog s' = pageLog counted_alloc /\
    AvailDesc s' = AvailDesc counted_alloc /\ mem s' = mem counted_alloc /\
    (forall h', get_partialList h' s' = get_partialList h' counted_alloc).
Proof.
  apply (MallocFromActive_with_credits 2 counted_alloc 1048576 2); by_run.
Defined.

(** ** [free] of a block of a size class *)

Section FreeSmall.

Variable cfg : Config.
Variables (p : Z) (s : State) (d h : Z).

Hypothesis Hp : p <> 0.
Hypothesis Hdesc : GetDescriptorForPtr cfg p s = d.
Hypothesis Hd0 : d <> 0.
Hypothesis Hheap : heap (desc_at s d) = Some h.
Hypothesis Hstate : state (get_anchor d s) <> SB_EMPTY.
Hypothesis Hcount :
  count (get_anchor d s) <> u64 (maxcount (desc_at s d) - 1).

Let a : Anchor := get_anchor d s.
Let sb : Z := superblock (desc_at s d).
Let bs : Z := blockSize (desc_at s d).
Let idx : Z := u64 (p - sb) / bs.
Let q : Z := ptr_add sb (u64 (idx * bs)).
Let newA : Anchor :=
  with_count (count a + 1)
    (if decide (state a = SB_FULL)
     then with_state SB_PARTIAL (with_avail idx a) else with_avail idx a).
Let s2 : State := put_anchor d newA (store64 q (avail a) s).

Lemma lr_free_push_run :
  lr_free_push d sb a p s = (q, newA, store64 q (avail a) s).
Proof.
  unfold lr_free_push. fold bs. fold idx. fold q.
  change (desc_at (store64 q (avail a) s) d) with (desc_at s d).
  rewrite decide_False by exact Hcount.
  unfold newA. destruct (decide (state a = SB_FULL)); reflexivity.
Qed.

Lemma newA_state :
  state newA = if decide (state a = SB_FULL) then SB_PARTIAL else state a.
Proof. unfold newA. destruct (decide (state a = SB_FULL)); reflexivity. Qed.

(** [lr_free] when the superblock does not become empty. *)
Lemma lr_free_small_run (fuel : nat) :
  lr_free cfg (S fuel) p s =
    if decide (state a = SB_FULL) then HeapPushPartial (S fuel) d s2
    else Some s2.
Proof.
  unfold lr_free. rewrite decide_False by exact Hp.
  rewrite Hdesc. rewrite decide_False by exact Hd0.
  rewrite Hheap. fold sb. fold a.
  rewrite (cas_update_once (get_anchor d) (put_anchor d) _ fuel _ _ _ _ _ _
             lr_free_push_run eq_refl).
  rewrite decide_False; [reflexivity|].
  rewrite newA_state. destruct (decide (state a = SB_FULL)); [discriminate|].
  exact Hstate.
Qed.

(** X13: [free] of a block of a full superblock (no block was free, and
    the freed block is not the last one in use) makes the superblock
    [SB_PARTIAL] with one free block more, makes the freed block the head
    of its free list, the block storing the previous head, and pushes the
    descriptor on the partial list of its heap.  The active words, the
    page map and the page provider are not involved. *)
Theorem lr_free_full_superblock (fuel : nat) :
  state (get_anchor d s) = SB_FULL ->
  exists s',
    lr_free cfg (S fuel) p s = Some s' /\
    state (get_anchor d s') = SB_PARTIAL /\
    count (get_anchor d s') = bits25 (count (get_anchor d s) + 1) /\
    avail (get_anchor d s') = bits25 idx /\
    load64 q s' = u64 (avail (get_anchor d s)) /\
    desc (get_partialList h s') = d /\
    nextPartial (desc_at s' d) = get_partialList h s /\
    (forall h', get_active h' s' = get_active h' s) /\
    sPageMap s' = sPageMap s /\ pageLog s' = pageLog s /\
    AvailDesc s' = AvailDesc s.
Proof.
  intros Hfull. rewrite lr_free_small_run.
  fold a in Hfull. rewrite decide_True by exact Hfull.
  set (old := get_partialList h s).
  set (s3 := put_partialList h (mkNode d (u64 (counter old + 1)))
               (upd_desc d (with_nextPartial old) s2)).
  exists s3.
  assert (Hh2 : heap (desc_at s2 d) = Some h).
  { unfold s2, put_anchor. rewrite desc_at_upd_desc_eq. exact Hheap. }
  assert (Hd3 : desc_at s3 d = with_nextPartial old (desc_at s2 d)).
  { unfold s3. change (desc_at (put_partialList ?x ?y ?s0) d) with (desc_at s0 d).
    apply desc_at_upd_desc_eq. }
  assert (Hd2 : desc_at s2 d = with_anchor newA (desc_at s d)).
  { unfold s2, put_anchor. rewrite desc_at_upd_desc_eq. reflexivity. }
  assert (Ha3 : get_anchor d s3 = newA).
  { unfold get_anchor. rewrite Hd3, Hd2. reflexivity. }
  split; [|split; [|split; [|split; [|split; [|split; [|split; [|split]]]]]]].
  - unfold HeapPushPartial, ListPushPartial. rewrite Hh2.
    rewrite (cas_update_once (get_partialList h) (put_partialList h)
               _ fuel old tt s2 tt (mkNode d (u64 (counter old + 1)))
               (upd_desc d (with_nextPartial old) s2));
      reflexivity.
  - rewrite Ha3, newA_state. rewrite decide_True by exact Hfull. reflexivity.
  - rewrite Ha3. unfold newA. rewrite decide_True by exact Hfull. reflexivity.
  - rewrite Ha3. unfold newA. rewrite decide_True by exact Hfull. reflexivity.
  - change (load64 q s3) with (load64 q (store64 q (avail a) s)).
    apply load64_store64_eq.
  - unfold get_partialList, s3, put_partialList.
    rewrite heap_at_upd_heap_eq. reflexivity.
  - rewrite Hd3. reflexivity.
  - intros h'. unfold s3. rewrite get_active_put_partialList. reflexivity.
  - repeat split.
Qed.

End FreeSmall.

Lemma lr_free_full_superblock_witness :
  exists s',
    lr_free test_cfg 8 2097152 full_state = Some s' /\
    state (get_anchor 1048576 s') = SB_PARTIAL /\
    count (get_anchor 1048576 s') =
      bits25 (count (get_anchor 1048576 full_state) + 1) /\
    avail (get_anchor 1048576 s') =
      bits25 (u64 (2097152 - superblock (desc_at full_state 1048576))
              / blockSize (desc_at full_state 1048576)) /\
    load64
      (ptr_add (superblock (desc_at full_state 1048576))
         (u64 (u64 (2097152 - superblock (desc_at full_state 1048576))
               / blockSize (desc_at full_state 1048576)
               * blockSize (desc_at full_state 1048576)))) s' =
      u64 (avail (get_anchor 1048576 full_state)) /\
    desc (get_partialList 3 s') = 1048576 /\
    nextPartial (desc_at s' 1048576) = get_partialList 3 full_state /\
    (forall h', get_active h' s' = get_active h' full_state) /\
    sPageMap s' = sPageMap full_state /\ pageLog s' = pageLog full_state /\
    AvailDesc s' = AvailDesc full_state.
Proof.
  apply (lr_free_full_superblock test_cfg 2097152 full_state 1048576 3);
    by_run.
Defined.

(** ** [free] followed by [malloc] *)

Section MallocAfterFree.

Variable cfg : Config.
Variables (p size : Z) (s : State) (d h c i : Z).

Hypothesis Hp : p <> 0.
Hypothesis Hinit : MallocInit s = true.
Hypothesis Hclass : GetSizeClass cfg size = h.
Hypothesis Hh : h <> 0.
Hypothesis Hdesc : GetDescriptorForPtr cfg p s = d.
Hypothesis Hd : 0 < d < 2 ^ 64.
Hypothesis Hal : d mod 64 = 0.
Hypothesis Hheap : heap (desc_at s d) = Some h.
Hypothesis Hactive : get_active h s = MakeActive d c.
Hypothesis Hc : 0 < c < 64.
Hypothesis Hstate : state (get_anchor d s) = SB_ACTIVE.
Hypothesis Hcount :
  count (get_anchor d s) <> u64 (maxcount (desc_at s d) - 1).
Hypothesis Havail : 0 <= avail (get_anchor d s) < 2 ^ 25.
Hypothesis Hbs : 0 < blockSize (desc_at s d).
Hypothesis Hsb : 0 <= superblock (desc_at s d).
Hypothesis Hi : 0 <= i < 2 ^ 25.
Hypothesis Hblock : p = superblock (desc_at s d) + i * blockSize (desc_at s d).
Hypothesis Hmax : p < 2 ^ 64.

(** X14: a block of the active superblock of a heap that is freed while
    the active word holds credits is the block the next [malloc] of that
    size class returns: the free list of a superblock is last in, first
    out.  After the two calls the head of the free list is what it was,
    one credit has become one counted free block. *)
Theorem malloc_after_free_returns_block (fuel fuel' : nat) :
  exists s1 s2,
    lr_free cfg (S fuel) p s = Some s1 /\
    lr_malloc cfg (S fuel') size s1 = Some (p, s2) /\
    avail (get_anchor d s2) = avail (get_anchor d s) /\
    count (get_anchor d s2) = bits25 (count (get_anchor d s) + 1) /\
    state (get_anchor d s2) = SB_ACTIVE /\
    get_active h s2 = MakeActive d (c - 1).
Proof.
  assert (Hd0 : d <> 0) by lia.
  assert (Hne : state (get_anchor d s) <> SB_EMPTY)
    by (rewrite Hstate; discriminate).
  assert (Hnf : state (get_anchor d s) <> SB_FULL)
    by (rewrite Hstate; discriminate).
  pose proof (lr_free_small_run cfg p s d h Hp Hdesc Hd0 Hheap Hne Hcount fuel)
    as Hfree.
  rewrite decide_False in Hfree by exact Hnf.
  set (a := get_anchor d s) in *.
  set (sb := superblock (desc_at s d)) in *.
  set (bs := blockSize (desc_at s d)) in *.
  assert (Hidx : u64 (p - sb) / bs = i).
  { rewrite Hblock. replace (sb + i * bs - sb) with (i * bs) by lia.
    rewrite u64_small by nia. apply Z.div_mul. lia. }
  rewrite Hidx in Hfree.
  assert (Hq : ptr_add sb (u64 (i * bs)) = p).
  { unfold ptr_add. rewrite (u64_small (i * bs)) by nia.
    rewrite u64_small by lia. lia. }
  rewrite Hq in Hfree.
  rewrite decide_False in Hfree by exact Hnf.
  set (newA := with_count (count a + 1) (with_avail i a)) in *.
  set (s1 := put_anchor d newA (store64 p (avail a) s)) in *.
  assert (Hact1 : get_active h s1 = MakeActive d c) by exact Hactive.
  pose proof (MallocFromActive_credits_run h s1 d c ltac:(lia) Hal Hc Hact1 fuel')
    as Hmalloc.
  assert (Ha1 : get_anchor d s1 = newA) by apply get_anchor_put_anchor.
  assert (Hd1 : desc_at s1 d = with_anchor newA (desc_at s d)).
  { unfold s1, put_anchor. rewrite desc_at_upd_desc_eq. reflexivity. }
  rewrite Ha1, Hd1 in Hmalloc.
  cbn [superblock blockSize with_anchor] in Hmalloc.
  fold sb in Hmalloc. fold bs in Hmalloc.
  assert (Hav : avail newA = i).
  { unfold newA. cbn [avail with_count with_avail]. apply bits25_small, Hi. }
  rewrite Hav, Hq in Hmalloc.
  assert (Hload : load64 p s1 = avail a).
  { change (load64 p s1) with (load64 p (store64 p (avail a) s)).
    rewrite load64_store64_eq. apply u64_small. lia. }
  rewrite Hload in Hmalloc.
  eexists s1, _. split; [exact Hfree|]. split.
  - unfold lr_malloc, GetProcHeap.
    change (MallocInit s1) with (MallocInit s). rewrite Hinit, Hclass.
    rewrite decide_True by exact Hh.
    cbn [lr_malloc_loop]. rewrite Hmalloc.
    rewrite decide_True by exact Hp. reflexivity.
  - rewrite get_anchor_put_anchor, get_active_put_anchor,
      get_active_put_active.
    cbn [avail count state with_tag with_avail newA with_count].
    split; [apply bits25_small, Havail|]. split; [reflexivity|].
    split; [exact Hstate|reflexivity].
Qed.

End MallocAfterFree.

Lemma malloc_after_free_returns_block_witness :
  exists s1 s2,
    lr_free test_cfg 8 2097152 counted_alloc = Some s1 /\
    lr_malloc test_cfg 8 24 s1 = Some (2097152, s2) /\
    avail (get_anchor 1048576 s2) = avail (get_anchor 1048576 counted_alloc) /\
    count (get_anchor 1048576 s2) =
      bits25 (count (get_anchor 1048576 counted_alloc) + 1) /\
    state (get_anchor 1048576 s2) = SB_ACTIVE /\
    get_active 2 s2 = MakeActive 1048576 (2 - 1).
Proof.
  apply (malloc_after_free_returns_block test_cfg 2097152 24 counted_alloc
           1048576 2 2 0); by_run.
Defined.

(** ** Large allocations *)

Section Large.

Variable cfg : Config.

Lemma GetPageInfo_large_same_page (ptr v a : Z) (s : State) :
  page_key cfg a = page_key cfg ptr ->
  GetPageInfo cfg a (UpdatePageMap cfg None ptr v s) = v.
Proof.
  intros Hk. unfold GetPageInfo, UpdatePageMap, SetPageInfo, set_sPageMap.
  cbn [sPageMap]. rewrite Hk, lookup_insert_eq. reflexivity.
Qed.

Lemma GetPageInfo_large_other_page (ptr v a : Z) (s : State) :
  page_key cfg a <> page_key cfg ptr ->
  GetPageInfo cfg a (UpdatePageMap cfg None ptr v s) = GetPageInfo cfg a s.
Proof.
  intros Hk. unfold GetPageInfo, UpdatePageMap, SetPageInfo, set_sPageMap.
  cbn [sPageMap]. rewrite lookup_insert_ne by congruence. reflexivity.
Qed.

(** X15: [malloc] of a size that has no size class takes a descriptor
    from [DescAlloc] and a region of [PAGE_CEILING(size)] bytes from the
    page provider, and returns the start of the region.  The descriptor
    has no heap, one block of [PAGE_CEILING(size)] bytes and an anchor
    [{avail = 0, count = 0, state = SB_FULL, tag = 0}]; the page of the
    returned pointer resolves to it, so that [malloc_usable_size] of the
    pointer is [PAGE_CEILING(size)]. *)
Theorem lr_malloc_large (fuel : nat) (size : Z) (s s1 : State)
        (d sb : Z) (rest : list Z) :
  GetSizeClass cfg size = 0 ->
  DescAlloc cfg fuel (snd (GetProcHeap cfg size s)) = Some (d, s1) ->
  d <> 0 ->
  pageOracle s1 = sb :: rest ->
  sb <> 0 ->
  exists s',
    lr_malloc cfg fuel size s = Some (sb, s') /\
    GetDescriptorForPtr cfg sb s' = d /\
    heap (desc_at s' d) = None /\
    superblock (desc_at s' d) = sb /\
    blockSize (desc_at s' d) = PAGE_CEILING cfg size /\
    maxcount (desc_at s' d) = 1 /\
    get_anchor d s' = mkAnchor SB_FULL 0 0 0 /\
    pageLog s' = pageLog s1 ++ [EvPageAlloc (PAGE_CEILING cfg size) sb] /\
    pageOracle s' = rest /\
    lr_malloc_usable_size cfg sb s' = Some (PAGE_CEILING cfg size).
Proof.
  intros Hclass Halloc Hd Hpage Hsb.
  unfold lr_malloc.
  destruct (GetProcHeap cfg size s) as [hp s0] eqn:Hgp.
  assert (Hhp : hp = None).
  { unfold GetProcHeap in Hgp. rewrite Hclass in Hgp.
    rewrite decide_False in Hgp by (intros H; apply H; reflexivity).
    congruence. }
  subst hp. cbn [snd] in Halloc. rewrite Halloc.
  rewrite decide_False by exact Hd.
  unfold PageAlloc.
  change (pageOracle (upd_desc d ?f ?s0)) with (pageOracle s0).
  change (pageOracle (upd_desc d ?f ?s0)) with (pageOracle s0).
  change (pageOracle (upd_desc d ?f ?s0)) with (pageOracle s0).
  rewrite Hpage.
  set (pages := PAGE_CEILING cfg size).
  set (s5 := set_pages rest _ _).
  set (anchor0 := with_tag 0 (with_state SB_FULL
                    (with_count 0 (with_avail 0 zeroAnchor)))).
  set (s7 := put_anchor d anchor0 (upd_desc d (with_superblock sb) s5)).
  assert (Hd7 : desc_at s7 d =
            with_anchor anchor0
              (with_superblock sb
                 (with_maxcount 1
                    (with_blockSize pages (with_heap None (desc_at s1 d)))))).
  { unfold s7, put_anchor. rewrite !desc_at_upd_desc_eq. do 2 f_equal.
    unfold s5. change (desc_at (set_pages ?o ?l ?s0) d) with (desc_at s0 d).
    rewrite !desc_at_upd_desc_eq. reflexivity. }
  set (s8 := RegisterDesc cfg d s7).
  assert (Hs8 : s8 = UpdatePageMap cfg None sb d s7).
  { unfold s8, RegisterDesc. rewrite Hd7. reflexivity. }
  assert (Hd8 : desc_at s8 d = desc_at s7 d).
  { rewrite Hs8. reflexivity. }
  assert (Hres : GetDescriptorForPtr cfg sb s8 = d).
  { unfold GetDescriptorForPtr. rewrite Hs8.
    apply GetPageInfo_large_same_page. reflexivity. }
  exists s8. rewrite Hd8, Hd7.
  split; [reflexivity|]. split; [exact Hres|].
  repeat (split; [reflexivity|]).
  split; [unfold get_anchor; rewrite Hd8, Hd7; reflexivity|].
  split; [rewrite Hs8; reflexivity|]. split; [rewrite Hs8; reflexivity|].
  unfold lr_malloc_usable_size. rewrite decide_False by exact Hsb.
  rewrite Hres. rewrite decide_False by exact Hd.
  rewrite Hd8, Hd7. reflexivity.
Qed.

(** X16: [free] of a large allocation, through the start of the region
    or through an aligned pointer into it, clears the page-map entries of
    both, gives the region back to the page provider from its start and
    with the size recorded at [malloc], and puts the descriptor on top of
    the recycle list.  No other page-map entry changes, and a second
    [free] of the same pointer does nothing. *)
Theorem lr_free_large (fuel fuel' : nat) (p : Z) (s : State) (d : Z) :
  p <> 0 ->
  GetDescriptorForPtr cfg p s = d -> d <> 0 ->
  heap (desc_at s d) = None ->
  exists s',
    lr_free cfg (S fuel) p s = Some s' /\
    GetDescriptorForPtr cfg p s' = 0 /\
    GetDescriptorForPtr cfg (superblock (desc_at s d)) s' = 0 /\
    (forall a, page_key cfg a <> page_key cfg p ->
               page_key cfg a <> page_key cfg (superblock (desc_at s d)) ->
               GetDescriptorForPtr cfg a s' = GetDescriptorForPtr cfg a s) /\
    pageLog s' =
      pageLog s ++ [EvPageFree (superblock (desc_at s d))
                               (blockSize (desc_at s d))] /\
    AvailDesc s' = mkNode d (u64 (counter (AvailDesc s) + 1)) /\
    nextFree (desc_at s' d) = AvailDesc s /\
    lr_free cfg fuel' p s' = Some s'.
Proof.
  intros Hp Hdesc Hd Hheap.
  set (sb := superblock (desc_at s d)).
  set (s1 := UnregisterDesc cfg None sb s).
  set (s2 := if decide (p <> sb) then UnregisterDesc cfg None p s1 else s1).
  assert (Hframe : descs s2 = descs s /\ AvailDesc s2 = AvailDesc s /\
                   pageLog s2 = pageLog s).
  { unfold s2. destruct (decide (p <> sb)); repeat split. }
  destruct Hframe as (HD2 & HA2 & HL2).
  assert (Hp2 : GetPageInfo cfg p s2 = 0).
  { unfold s2. destruct (decide (p <> sb)) as [Hne|Heq].
    - apply GetPageInfo_large_same_page. reflexivity.
    - assert (p = sb) by (destruct (decide (p = sb)); tauto). subst p.
      apply GetPageInfo_large_same_page. reflexivity. }
  assert (Hsb2 : GetPageInfo cfg sb s2 = 0).
  { unfold s2. destruct (decide (p <> sb)) as [Hne|Heq].
    - destruct (decide (page_key cfg sb = page_key cfg p)) as [Hk|Hk].
      + apply GetPageInfo_large_same_page. exact Hk.
      + unfold UnregisterDesc.
        rewrite GetPageInfo_large_other_page by exact Hk.
        apply GetPageInfo_large_same_page. reflexivity.
    - apply GetPageInfo_large_same_page. reflexivity. }
  assert (Hother : forall a, page_key cfg a <> page_key cfg p ->
                     page_key cfg a <> page_key cfg sb ->
                     GetPageInfo cfg a s2 = GetPageInfo cfg a s).
  { intros a Hap Has. unfold s2, s1, UnregisterDesc.
    destruct (decide (p <> sb)).
    - rewrite !GetPageInfo_large_other_page by assumption. reflexivity.
    - rewrite GetPageInfo_large_other_page by assumption. reflexivity. }
  set (s3 := PageFree sb (blockSize (desc_at s2 d)) s2).
  set (s' := set_AvailDesc (mkNode d (u64 (counter (AvailDesc s3) + 1)))
               (upd_desc d (with_nextFree (AvailDesc s3)) s3)).
  assert (Hfree : lr_free cfg (S fuel) p s = Some s').
  { unfold lr_free. rewrite decide_False by exact Hp.
    rewrite Hdesc. rewrite decide_False by exact Hd.
    rewrite Hheap. unfold RemoveEmptyDesc, ListRemoveEmptyDesc.
    fold sb. fold s1. fold s2. fold s3.
    apply DescRetire_pushes. }
  assert (Hbs : blockSize (desc_at s2 d) = blockSize (desc_at s d))
    by (unfold desc_at; rewrite HD2; reflexivity).
  exists s'. split; [exact Hfree|].
  split; [exact Hp2|]. split; [exact Hsb2|]. split; [exact Hother|].
  split.
  { change (pageLog s') with (pageLog s2 ++ [EvPageFree sb (blockSize (desc_at s2 d))]).
    rewrite HL2, Hbs. reflexivity. }
  split.
  { change (AvailDesc s') with (mkNode d (u64 (counter (AvailDesc s2) + 1))).
    rewrite HA2. reflexivity. }
  split.
  { unfold s'. change (desc_at (set_AvailDesc ?n ?s0) d) with (desc_at s0 d).
    rewrite desc_at_upd_desc_eq. cbn [nextFree with_nextFree].
    change (AvailDesc s3) with (AvailDesc s2). exact HA2. }
  unfold lr_free. rewrite decide_False by exact Hp.
  change (GetDescriptorForPtr cfg p s') with (GetPageInfo cfg p s2).
  rewrite Hp2. rewrite decide_True by reflexivity. reflexivity.
Qed.

(** X17: when the internal [malloc] of [posix_memalign] took the large
    path, the page of the aligned pointer it returns resolves to the
    descriptor of the allocation, as the page of the start of the region
    still does: [free] and [realloc] find the allocation through the
    pointer the caller is given. *)
Theorem lr_posix_memalign_large_registers (fuel : nat)
        (memptr alignment size : Z) (s s1 : State) (q d : Z) :
  lr_malloc cfg fuel (u64 (Z.max alignment size * 2)) s = Some (q, s1) ->
  q <> 0 ->
  GetDescriptorForPtr cfg q s1 = d -> d <> 0 ->
  heap (desc_at s1 d) = None ->
  exists s',
    lr_posix_memalign cfg fuel memptr alignment size s =
      Some (0, ALIGN_ADDR cfg q alignment, s') /\
    GetDescriptorForPtr cfg (ALIGN_ADDR cfg q alignment) s' = d /\
    GetDescriptorForPtr cfg q s' = d /\
    descs s' = descs s1 /\ pageLog s' = pageLog s1.
Proof.
  intros Hm Hq Hdesc Hd Hheap.
  exists (UpdatePageMap cfg None (ALIGN_ADDR cfg q alignment) d s1).
  split; [|split; [|split]].
  - unfold lr_posix_memalign. rewrite Hm.
    rewrite decide_False by exact Hq. rewrite Hdesc.
    rewrite decide_False by exact Hd. rewrite Hheap. reflexivity.
  - apply GetPageInfo_large_same_page. reflexivity.
  - unfold GetDescriptorForPtr.
    destruct (decide (page_key cfg q = page_key cfg (ALIGN_ADDR cfg q alignment)))
      as [Hk|Hk].
    + apply GetPageInfo_large_same_page. exact Hk.
    + rewrite GetPageInfo_large_other_page by exact Hk. exact Hdesc.
  - split; reflexivity.
Qed.

End Large.

Lemma lr_malloc_large_witness :
  exists s',
    lr_malloc test_cfg 1024 5000 (init_state test_oracle) = Some (2097152, s') /\
    GetDescriptorForPtr test_cfg 2097152 s' = 1048576 /\
    heap (desc_at s' 1048576) = None /\
    superblock (desc_at s' 1048576) = 2097152 /\
    blockSize (desc_at s' 1048576) = PAGE_CEILING test_cfg 5000 /\
    maxcount (desc_at s' 1048576) = 1 /\
    get_anchor 1048576 s' = mkAnchor SB_FULL 0 0 0 /\
    pageLog s' =
      pageLog large_pool_state
        ++ [EvPageAlloc (PAGE_CEILING test_cfg 5000) 2097152] /\
    pageOracle s' = [3145728; 4194304] /\
    lr_malloc_usable_size test_cfg 2097152 s' =
      Some (PAGE_CEILING test_cfg 5000).
Proof.
  apply (lr_malloc_large test_cfg 1024 5000 (init_state test_oracle)
           large_pool_state 1048576 2097152 [3145728; 4194304]).
  - reflexivity.
  - run_eq.
  - lia.
  - vm_compute. reflexivity.
  - lia.
Defined.

Lemma lr_free_large_witness :
  exists s',
    lr_free test_cfg 8 2097152 large_state = Some s' /\
    GetDescriptorForPtr test_cfg 2097152 s' = 0 /\
    GetDescriptorForPtr test_cfg (superblock (desc_at large_state 1048576)) s' = 0 /\
    (forall a, page_key test_cfg a <> page_key test_cfg 2097152 ->
               page_key test_cfg a
                 <> page_key test_cfg (superblock (desc_at large_state 1048576)) ->
               GetDescriptorForPtr test_cfg a s' =
                 GetDescriptorForPtr test_cfg a large_state) /\
    pageLog s' =
      pageLog large_state
        ++ [EvPageFree (superblock (desc_at large_state 1048576))
                       (blockSize (desc_at large_state 1048576))] /\
    AvailDesc s' = mkNode 1048576 (u64 (counter (AvailDesc large_state) + 1)) /\
    nextFree (desc_at s' 1048576) = AvailDesc large_state /\
    lr_free test_cfg 8 2097152 s' = Some s'.
Proof.
  apply (lr_free_large test_cfg 7 8 2097152 large_state 1048576); by_run.
Defined.

Lemma lr_posix_memalign_large_registers_witness :
  exists s',
    lr_posix_memalign test_cfg 1024 0 4194304 4096 (init_state test_oracle) =
      Some (0, ALIGN_ADDR test_cfg 2097152 4194304, s') /\
    GetDescriptorForPtr test_cfg (ALIGN_ADDR test_cfg 2097152 4194304) s'
      = 1048576 /\
    GetDescriptorForPtr test_cfg 2097152 s' = 1048576 /\
    descs s' = descs aligned_inner_state /\
    pageLog s' = pageLog aligned_inner_state.
Proof.
  apply (lr_posix_memalign_large_registers test_cfg 1024 0 4194304 4096
           (init_state test_oracle) aligned_inner_state 2097152 1048576).
  - run_eq.
  - lia.
  - vm_compute. reflexivity.
  - lia.
  - vm_compute. reflexivity.
Defined.

(** ** Initialisation *)

(** X18: the first [GetProcHeap] initialises the allocator, once: it
    sets [MallocInit], and gives every heap of the table a null active
    word, an empty partial list and its own size class; a state that is
    already initialised is returned as it is, so that a later
    [GetProcHeap] resets nothing. *)
Theorem GetProcHeap_initialises_once (cfg : Config) (n m : Z) (s : State) :
  MallocInit (snd (GetProcHeap cfg n s)) = true /\
  snd (GetProcHeap cfg m (snd (GetProcHeap cfg n s))) = snd (GetProcHeap cfg n s) /\
  (MallocInit s = true -> snd (GetProcHeap cfg n s) = s) /\
  (MallocInit s = false ->
   forall i, 0 <= i < MAX_SZ_IDX cfg ->
     heap_at (snd (GetProcHeap cfg n s)) i = mkProcHeap 0 (mkNode 0 0) i) /\
  fst (GetProcHeap cfg n s) =
    (if decide (GetSizeClass cfg n <> 0) then Some (GetSizeClass cfg n) else None).
Proof.
  assert (Hsnd : forall k t,
            snd (GetProcHeap cfg k t) =
            if MallocInit t then t else InitMalloc cfg t).
  { intros k t. unfold GetProcHeap.
    destruct (decide (GetSizeClass cfg k <> 0)); reflexivity. }
  destruct (InitMalloc_loop (MAX_SZ_IDX cfg) (Z.to_nat (MAX_SZ_IDX cfg)) 0
              (set_MallocInit true s)) as (_ & _ & _ & _ & Hinit & Hheaps).
  fold (InitMalloc cfg s) in Hinit, Hheaps.
  assert (H1 : MallocInit (snd (GetProcHeap cfg n s)) = true).
  { rewrite Hsnd. destruct (MallocInit s) eqn:Hm; [exact Hm|exact Hinit]. }
  split; [exact H1|]. split; [|split; [|split]].
  - rewrite (Hsnd m). rewrite H1. reflexivity.
  - intros Hm. rewrite Hsnd, Hm. reflexivity.
  - intros Hm i Hi. rewrite Hsnd, Hm. rewrite Hheaps.
    rewrite decide_True by lia. reflexivity.
  - unfold GetProcHeap.
    destruct (decide (GetSizeClass cfg n <> 0)); reflexivity.
Qed.

(** ** What holds in every state one thread reaches *)

Section Reachable.

Variable cfg : Config.
Variable oracle : list Z.
Variable s : State.

Hypothesis Hcfg : cfg_ok cfg.
Hypothesis Horacle : oracle_ok cfg oracle.
Hypothesis Hreach : reachable cfg (init_state oracle) s.

Lemma reachable_cases :
  (MallocInit s = true /\ exists pool pl, Inv_with cfg s pool pl) \/
  (MallocInit s = false /\ pristine cfg s).
Proof.
  pose proof (reachable_Inv cfg Hcfg _ _ (Inv_init_state cfg oracle Horacle)
                Hreach) as HI.
  unfold Inv in HI. destruct (MallocInit s); [left|right]; auto.
Qed.

Lemma resolved_entry (a : Z) :
  GetDescriptorForPtr cfg a s <> 0 ->
  sPageMap s !! page_key cfg a = Some (GetDescriptorForPtr cfg a s).
Proof.
  unfold GetDescriptorForPtr, GetPageInfo.
  destruct (sPageMap s !! page_key cfg a) as [x|]; [reflexivity|].
  intros H. destruct (H eq_refl).
Qed.






End Reachable.

Lemma partial_list_state_reachable :
  reachable test_cfg (init_state test_oracle) partial_list_state.
Proof.
  apply (reach_free test_cfg _ filling_4 1024 2097152).
  - apply (reach_malloc test_cfg _ filling_3 1024 2000 2103296).
    + apply (reach_malloc test_cfg _ filling_2 1024 2000 2101248).
      * apply (reach_malloc test_cfg _ filling_1 1024 2000 2099200).
        -- apply (reach_malloc test_cfg _ (init_state test_oracle) 1024 2000
                    2097152); [apply reach_start|run_eq].
        -- run_eq.
      * run_eq.
    + run_eq.
  - unfold free_ok. intros Hnone. exfalso. vm_compute in Hnone. discriminate.
  - apply final_result. vm_compute. reflexivity.
Qed.






(** ** [MallocFromPartial] *)

Section Partial.

Variable cfg : Config.
Variables (h : Z) (s : State) (d c0 : Z).

Hypothesis Hhead : get_partialList h s = mkNode d c0.
Hypothesis Hd : d <> 0.

Let a : Anchor := get_anchor d s.
Let s1 : State := put_partialList h (mkNode (nextP s d) c0) s.

Lemma HeapPopPartial_head (fuel : nat) :
  HeapPopPartial (S fuel) h s = Some (d, s1).
Proof.
  unfold HeapPopPartial, ListPopPartial. rewrite Hhead.
  rewrite (cas_loop_next (get_partialList h) (put_partialList h) _ fuel
             (mkNode d c0) tt s tt (mkNode (nextP s d) c0) s).
  - reflexivity.
  - cbn [desc counter]. rewrite decide_False by exact Hd. reflexivity.
  - exact Hhead.
Qed.

Lemma sizeclass_put_partialList (x : Z) (n : DescriptorNode) (t : State) (y : Z) :
  sizeclass (heap_at (put_partialList x n t) y) = sizeclass (heap_at t y).
Proof.
  unfold put_partialList. destruct (decide (x = y)) as [->|Hne].
  - rewrite heap_at_upd_heap_eq. reflexivity.
  - rewrite heap_at_upd_heap_ne by exact Hne. reflexivity.
Qed.

(** X24: [MallocFromPartial] retires lazily.  When the descriptor at the
    head of the partial list is [SB_EMPTY] (its superblock was given back
    by [free]) and nothing follows it, [MallocFromPartial] returns null,
    having taken the descriptor off the partial list and put it on top of
    the recycle list. *)
Theorem MallocFromPartial_retires_empty_head (fuel : nat) :
  state (get_anchor d s) = SB_EMPTY ->
  nextP s d = 0 ->
  exists s',
    MallocFromPartial cfg (S (S fuel)) h s = Some (0, s') /\
    desc (get_partialList h s') = 0 /\
    AvailDesc s' = mkNode d (u64 (counter (AvailDesc s) + 1)) /\
    nextFree (desc_at s' d) = AvailDesc s /\
    get_anchor d s' = get_anchor d s /\
    sPageMap s' = sPageMap s /\ pageLog s' = pageLog s /\
    (forall h', get_active h' s' = get_active h' s).
Proof.
  intros Hempty Hnext.
  rewrite (MallocFromPartial_retires_empty cfg (S fuel) h s d c0 Hhead Hd Hempty).
  fold (nextP s d). fold s1.
  set (s3 := set_AvailDesc _ _).
  assert (Hlist : desc (get_partialList h s3) = 0).
  { change (get_partialList h s3) with (get_partialList h s1).
    unfold get_partialList, s1, put_partialList.
    rewrite heap_at_upd_heap_eq. exact Hnext. }
  exists s3. split; [|split; [exact Hlist|]].
  - cbn [MallocFromPartial]. unfold HeapPopPartial, ListPopPartial.
    rewrite (cas_loop_exit (get_partialList h) (put_partialList h) _ fuel
               _ tt s3 0 s3)
      by (rewrite decide_True by exact Hlist; reflexivity).
    rewrite decide_True by reflexivity. reflexivity.
  - split; [reflexivity|]. split.
    { unfold s3. change (desc_at (set_AvailDesc ?n ?s0) d) with (desc_at s0 d).
      rewrite desc_at_upd_desc_eq. reflexivity. }
    split.
    { unfold get_anchor, s3.
      change (desc_at (set_AvailDesc ?n ?s0) d) with (desc_at s0 d).
      rewrite desc_at_upd_desc_eq. reflexivity. }
    split; [reflexivity|]. split; [reflexivity|].
    intros h'. change (get_active h' s3) with (get_active h' s1).
    apply get_active_put_partialList.
Qed.

Hypothesis Hstate : state (get_anchor d s) <> SB_EMPTY.
Hypothesis Hcount : 1 <= count (get_anchor d s) < 2 ^ 25.

Variable hd : Z.
Hypothesis Hheap : heap (desc_at s d) = Some hd.

Let credits : Z := Z.min (count a - 1) CREDITS_MAX.
Let ptr : Z :=
  ptr_add (superblock (desc_at s d))
    (u64 (avail a * sc_blockSize (SizeClasses cfg (sizeclass (heap_at s hd))))).

(** X25: [MallocFromPartial] on a partial list whose head is not empty
    takes the head off the list, returns the block at [anchor.avail],
    reserves [min(count - 1, CREDITS_MAX)] further blocks as credits and
    leaves [count - 1 - credits] counted.  With credits the superblock
    becomes [SB_ACTIVE] and the heap's active word holds the descriptor
    with [credits - 1]; without, the superblock becomes [SB_FULL] and the
    active word is not written. *)
Theorem MallocFromPartial_takes_head (fuel : nat) :
  exists s',
    MallocFromPartial cfg (S fuel) h s = Some (ptr, s') /\
    get_partialList h s' = mkNode (nextP s d) c0 /\
    count (get_anchor d s') = count a - 1 - credits /\
    state (get_anchor d s') =
      (if decide (credits > 0) then SB_ACTIVE else SB_FULL) /\
    avail (get_anchor d s') = bits25 (load64 ptr s) /\
    get_active h s' =
      (if decide (credits > 0) then MakeActive d (credits - 1)
       else get_active h s) /\
    sPageMap s' = sPageMap s /\ pageLog s' = pageLog s /\
    AvailDesc s' = AvailDesc s.
Proof.
  assert (Hca : 1 <= count a < 2 ^ 25) by exact Hcount.
  assert (Hcr : 0 <= credits <= 64)
    by (unfold credits; change CREDITS_MAX with 64; lia).
  assert (Hcr' : credits <= count a - 1) by (unfold credits; lia).
  set (newA1 := with_state (if decide (credits > 0) then SB_ACTIVE else SB_FULL)
                  (with_count (count a - 1 - credits) a)).
  assert (Hres : MallocFromPartial_reserve a 0 s1 = (Next credits newA1, s1)).
  { unfold MallocFromPartial_reserve. rewrite decide_False by exact Hstate.
    rewrite (u64_small (count a - 1)) by lia.
    fold credits. cbn [count with_count].
    rewrite (bits25_small (count a - 1)) by lia.
    reflexivity. }
  set (s2 := put_anchor d newA1 s1).
  set (newA2 := with_tag (tag newA1 + 1) (with_avail (load64 ptr s) newA1)).
  assert (Hd2 : desc_at s2 d = with_anchor newA1 (desc_at s d)).
  { unfold s2, put_anchor. rewrite desc_at_upd_desc_eq. reflexivity. }
  assert (Hpop : MallocFromPartial_pop cfg d newA1 0 s2 = (Next ptr newA2, s2)).
  { unfold MallocFromPartial_pop. rewrite Hd2.
    cbn [heap superblock with_anchor]. rewrite Hheap.
    change (heap_at s2 hd) with (heap_at s1 hd).
    unfold s1 at 1 2. rewrite sizeclass_put_partialList.
    cbn [avail newA1 with_state with_count]. fold ptr. reflexivity. }
  set (s3 := put_anchor d newA2 s2).
  set (s' := if decide (credits > 0)
             then put_active h (MakeActive d (u64 (credits - 1))) s3 else s3).
  assert (Hrun : MallocFromPartial cfg (S fuel) h s = Some (ptr, s')).
  { cbn [MallocFromPartial]. rewrite HeapPopPartial_head.
    rewrite decide_False by exact Hd.
    change (get_anchor d s1) with a.
    rewrite (cas_loop_next (get_anchor d) (put_anchor d) _ fuel a 0 s1
               credits newA1 s1 Hres eq_refl).
    fold s2.
    assert (Ha2 : get_anchor d s2 = newA1) by apply get_anchor_put_anchor.
    rewrite Ha2.
    rewrite (cas_loop_next (get_anchor d) (put_anchor d) _ fuel newA1 0 s2
               ptr newA2 s2 Hpop Ha2).
    fold s3. unfold s'. destruct (decide (credits > 0)); [|reflexivity].
    rewrite UpdateActive_installs. reflexivity. }
  assert (Ha' : get_anchor d s' = newA2).
  { unfold s'. destruct (decide (credits > 0));
      [rewrite get_anchor_put_active|]; apply get_anchor_put_anchor. }
  assert (Hl1 : get_partialList h s1 = mkNode (nextP s d) c0).
  { unfold get_partialList, s1, put_partialList.
    rewrite heap_at_upd_heap_eq. reflexivity. }
  exists s'. split; [exact Hrun|]. split; [|split; [|split; [|split; [|split]]]].
  - unfold s'. destruct (decide (credits > 0)).
    + unfold get_partialList, put_active. rewrite heap_at_upd_heap_eq.
      exact Hl1.
    + exact Hl1.
  - rewrite Ha'. cbn [count newA2 newA1 with_tag with_avail with_state with_count].
    apply bits25_small. lia.
  - rewrite Ha'. reflexivity.
  - rewrite Ha'. reflexivity.
  - unfold s'. destruct (decide (credits > 0)) as [Hpos|Hzero].
    + rewrite get_active_put_active. rewrite u64_small by lia. reflexivity.
    + change (get_active h s3) with (get_active h s1).
      apply get_active_put_partialList.
  - unfold s'. destruct (decide (credits > 0)); repeat split.
Qed.

End Partial.

Lemma MallocFromPartial_retires_empty_head_witness :
  exists s',
    MallocFromPartial test_cfg 8 3 emptied_state = Some (0, s') /\
    desc (get_partialList 3 s') = 0 /\
    AvailDesc s' = mkNode 1048576 (u64 (counter (AvailDesc emptied_state) + 1)) /\
    nextFree (desc_at s' 1048576) = AvailDesc emptied_state /\
    get_anchor 1048576 s' = get_anchor 1048576 emptied_state /\
    sPageMap s' = sPageMap emptied_state /\
    pageLog s' = pageLog emptied_state /\
    (forall h', get_active h' s' = get_active h' emptied_state).
Proof.
  apply (MallocFromPartial_retires_empty_head test_cfg 3 emptied_state
           1048576 1); by_run.
Defined.

Lemma MallocFromPartial_takes_head_witness :
  exists s',
    MallocFromPartial test_cfg 8 3 partial_list_state = Some (2097152, s') /\
    get_partialList 3 s' = mkNode 0 1 /\
    count (get_anchor 1048576 s') = 0 /\
    state (get_anchor 1048576 s') = SB_FULL.
Proof.
  assert (H1 : get_partialList 3 partial_list_state = mkNode 1048576 1)
    by (vm_compute; reflexivity).
  assert (H2 : 1048576 <> 0) by lia.
  assert (H3 : state (get_anchor 1048576 partial_list_state) <> SB_EMPTY)
    by (vm_compute; discriminate).
  assert (H4 : 1 <= count (get_anchor 1048576 partial_list_state) < 2 ^ 25)
    by by_run.
  assert (H5 : heap (desc_at partial_list_state 1048576) = Some 3)
    by (vm_compute; reflexivity).
  destruct (MallocFromPartial_takes_head test_cfg 3 partial_list_state
              1048576 1 H1 H2 H3 H4 3 H5 7)
    as (s' & Hr & Hl & Hc & Hst & _).
  exists s'.
  match type of Hr with
  | _ = Some (?p, _) =>
      assert (Hp : p = 2097152) by (vm_compute; reflexivity);
      rewrite Hp in Hr
  end.
  match type of Hl with
  | _ = ?v =>
      assert (Hv : v = mkNode 0 1) by (vm_compute; reflexivity);
      rewrite Hv in Hl
  end.
  match type of Hc with
  | _ = ?v =>
      assert (Hv' : v = 0) by (vm_compute; reflexivity); rewrite Hv' in Hc
  end.
  match type of Hst with
  | _ = ?v =>
      assert (Hv'' : v = SB_FULL) by (vm_compute; reflexivity);
      rewrite Hv'' in Hst
  end.
  split; [exact Hr|]. split; [exact Hl|]. split; [exact Hc|exact Hst].
Defined.

(** ** [free] after the superblock was given back *)

(** X26: once [free] has given a superblock back (the freed block was the
    last one in use), every address of the superblock, page start or not,
    resolves to the null descriptor, and a [free] of any such address,
    the pointer just freed included, returns without changing anything. *)
Theorem lr_free_after_release (cfg : Config) (fuel fuel' : nat) (ptr : Z)
        (s : State) (d h : Z) :
  ptr <> 0 ->
  GetDescriptorForPtr cfg ptr s = d -> d <> 0 ->
  heap (desc_at s d) = Some h ->
  count (get_anchor d s) = u64 (maxcount (desc_at s d) - 1) ->
  0 < PAGE cfg ->
  0 <= superblock (desc_at s d) ->
  superblock (desc_at s d) mod PAGE cfg = 0 ->
  superblock (desc_at s d)
    + sc_sbSize (SizeClasses cfg (sizeclass (heap_at s h))) <= 2 ^ 64 ->
  exists s',
    lr_free cfg (S fuel) ptr s = Some s' /\
    forall a,
      superblock (desc_at s d) <= a
        < superblock (desc_at s d)
          + sc_sbSize (SizeClasses cfg (sizeclass (heap_at s h))) ->
      GetDescriptorForPtr cfg a s' = 0 /\
      lr_free cfg fuel' a s' = Some s'.
Proof.
  intros Hptr Hd Hd0 Hh Hcount Hpage Hsb0 Hal Hmax.
  set (sb := superblock (desc_at s d)) in *.
  set (a0 := get_anchor d s) in *.
  set (idx := u64 (ptr - sb) / blockSize (desc_at s d)).
  set (p' := ptr_add sb (u64 (idx * blockSize (desc_at s d)))).
  set (s1 := store64 p' (avail a0) s).
  set (newA := with_state SB_EMPTY
                 (if decide (state a0 = SB_FULL)
                  then with_state SB_PARTIAL (with_avail idx a0)
                  else with_avail idx a0)).
  set (s2 := put_anchor d newA s1).
  set (s3 := UnregisterDesc cfg (Some h) sb s2).
  set (s' := PageFree sb (sc_sbSize (SizeClasses cfg (sizeclass (heap_at s3 h)))) s3).
  assert (Hpush : lr_free_push d sb a0 ptr s = (p', newA, s1)).
  { unfold lr_free_push. fold idx. fold p'. fold s1.
    change (maxcount (desc_at s1 d)) with (maxcount (desc_at s d)).
    rewrite decide_True by exact Hcount. reflexivity. }
  assert (Hrun : lr_free cfg (S fuel) ptr s = Some s').
  { unfold lr_free. rewrite decide_False by exact Hptr.
    rewrite Hd. rewrite decide_False by exact Hd0. rewrite Hh. fold sb.
    rewrite (cas_update_once (get_anchor d) (put_anchor d) _ fuel _ _ _ _ _ _
               Hpush eq_refl).
    rewrite decide_True by reflexivity. reflexivity. }
  exists s'. split; [exact Hrun|].
  intros a Ha.
  assert (Hnull : GetDescriptorForPtr cfg a s' = 0).
  { unfold GetDescriptorForPtr.
    change (GetPageInfo cfg a s') with (GetPageInfo cfg a s3).
    unfold s3, UnregisterDesc.
    apply (region_resolves cfg Hpage h sb 0 a s2); assumption. }
  split; [exact Hnull|].
  unfold lr_free. destruct (decide (a = 0)); [reflexivity|].
  rewrite Hnull. rewrite decide_True by reflexivity. reflexivity.
Qed.

Lemma lr_free_after_release_witness :
  exists s',
    lr_free test_cfg 8 2103296 drain_state = Some s' /\
    forall a,
      superblock (desc_at drain_state 1048576) <= a
        < superblock (desc_at drain_state 1048576)
          + sc_sbSize (SizeClasses test_cfg (sizeclass (heap_at drain_state 3))) ->
      GetDescriptorForPtr test_cfg a s' = 0 /\
      lr_free test_cfg 8 a s' = Some s'.
Proof.
  apply (lr_free_after_release test_cfg 7 8 2103296 drain_state 1048576 3);
    by_run.
Defined.

(** ** A fresh block of descriptors *)

Section FreshBlock.

Variable cfg : Config.
Hypothesis Hcfg : cfg_ok cfg.
Variable ptr : Z.

(** The inner loop of [DescAlloc]: with fuel for every descriptor of the
    block it returns, having linked the descriptors in order. *)
Lemma DescAlloc_carve_links (fuel : nat) : forall (cur prev : Z) (s : State),
  0 < cur -> (prev <> 0 -> prev < cur) ->
  (Z.to_nat (ptr + DESCRIPTOR_BLOCK_SZ cfg - cur) < fuel)%nat ->
  exists s2,
    DescAlloc_carve cfg fuel ptr cur prev s =
      Some (default prev (last (carve_list cfg fuel ptr cur)), s2) /\
    (AvailDesc s2 = AvailDesc s /\ Heaps s2 = Heaps s /\
     sPageMap s2 = sPageMap s /\ pageOracle s2 = pageOracle s /\
     pageLog s2 = pageLog s /\ mem s2 = mem s) /\
    (forall x, x <> prev -> x ∉ carve_list cfg fuel ptr cur ->
               desc_at s2 x = desc_at s x) /\
    (prev <> 0 -> forall y L', carve_list cfg fuel ptr cur = y :: L' ->
                  nextF s2 prev = y) /\
    (forall i x y, carve_list cfg fuel ptr cur !! i = Some x ->
                   carve_list cfg fuel ptr cur !! S i = Some y ->
                   nextF s2 x = y).
Proof.
  pose proof (ok_sizeof cfg Hcfg) as Hsz.
  induction fuel as [|fuel IH]; intros cur prev s Hcur Hprev Hfuel; [lia|].
  cbn [DescAlloc_carve carve_list].
  destruct (decide (cur + sizeof_Descriptor cfg < ptr + DESCRIPTOR_BLOCK_SZ cfg))
    as [Hlt|Hge].
  - set (cur' := ALIGN_ADDR cfg (cur + sizeof_Descriptor cfg) (CACHELINE cfg)).
    destruct (ok_align cfg Hcfg (cur + sizeof_Descriptor cfg) ltac:(lia))
      as [Hle _]. fold cur' in Hle.
    set (s1 := if decide (prev = 0) then s
               else upd_desc prev (with_nextFree (mkNode cur 0)) s).
    destruct (IH cur' cur s1 ltac:(lia) ltac:(lia) ltac:(lia))
      as (s2 & Hrun & (HA & HH & HP & HO & HL & HM) & Hframe & Hhead & Hlinks).
    set (L1 := carve_list cfg fuel ptr cur') in *.
    assert (Hbound : forall x, x ∈ L1 -> cur' <= x).
    { intros x Hx. apply (carve_list_bounds cfg Hcfg ptr fuel cur' x); [lia|exact Hx]. }
    assert (Hs1 : AvailDesc s1 = AvailDesc s /\ Heaps s1 = Heaps s /\
                  sPageMap s1 = sPageMap s /\ pageOracle s1 = pageOracle s /\
                  pageLog s1 = pageLog s /\ mem s1 = mem s).
    { unfold s1. destruct (decide (prev = 0)); repeat split. }
    destruct Hs1 as (HA1 & HH1 & HP1 & HO1 & HL1 & HM1).
    exists s2. split; [|split; [|split; [|split]]].
    + rewrite Hrun. f_equal. f_equal.
      rewrite last_cons. destruct (last L1); reflexivity.
    + repeat split; congruence.
    + intros x Hx Hnin.
      assert (x <> cur /\ x ∉ L1) as [Hxc HxL].
      { split; intros H; apply Hnin; [subst x; apply elem_of_cons; left
                                     |apply elem_of_cons; right]; auto. }
      rewrite (Hframe x Hxc HxL). unfold s1.
      destruct (decide (prev = 0)); [reflexivity|].
      apply desc_at_upd_desc_ne. congruence.
    + intros Hp0 y L' Heq. injection Heq as <- <-.
      assert (HpL : prev ∉ L1).
      { intros Hin. specialize (Hbound prev Hin). specialize (Hprev Hp0). lia. }
      unfold nextF. rewrite (Hframe prev ltac:(specialize (Hprev Hp0); lia) HpL).
      unfold s1. rewrite decide_False by exact Hp0.
      rewrite desc_at_upd_desc_eq. reflexivity.
    + intros i x y Hx Hy. destruct i as [|i].
      * cbn in Hx. injection Hx as <-. cbn in Hy.
        destruct L1 as [|y' L'] eqn:HL1e; [discriminate|].
        cbn in Hy. injection Hy as <-.
        apply (Hhead ltac:(lia) y' L' eq_refl).
      * cbn in Hx, Hy. apply (Hlinks i x y Hx Hy).
  - exists s. split; [reflexivity|]. split; [repeat split|].
    split; [reflexivity|]. split.
    + intros _ y L' Heq. discriminate.
    + intros i x y Hx. rewrite lookup_nil in Hx. discriminate.
Qed.


End FreshBlock.


(** ** [free] and the page provider *)

Lemma cas_update_same {A L V : Type} `{EqDecision V} (f : State -> A)
      (get : State -> V) (put : V -> State -> State)
      (body : V -> L -> State -> L * V * State) :
  (forall o l s, f (snd (body o l s)) = f s) ->
  (forall v s, f (put v s) = f s) ->
  forall fuel old l s r s',
    cas_update fuel get put body old l s = Some (r, s') -> f s' = f s.
Proof.
  intros Hb Hp. induction fuel as [|fuel IH]; intros old l s r s' Hr;
    [discriminate|].
  cbn [cas_update] in Hr. specialize (Hb old l s).
  destruct (body old l s) as [[l1 new] s1]; cbn [snd] in Hb.
  destruct (decide (get s1 = old)).
  - injection Hr as _ <-. rewrite Hp. exact Hb.
  - rewrite (IH _ _ _ _ _ Hr). exact Hb.
Qed.

(** X28: [free] never asks the page provider for memory, and gives back
    at most one region: a [free] that returns leaves the provider's
    pending regions as they were and adds to the log of page calls either
    nothing or a single [PageFree]. *)
Theorem lr_free_page_calls (cfg : Config) (fuel : nat) (p : Z)
        (s s' : State) :
  lr_free cfg fuel p s = Some s' ->
  pageOracle s' = pageOracle s /\
  (pageLog s' = pageLog s \/
   exists q n, pageLog s' = pageLog s ++ [EvPageFree q n]).
Proof.
  set (f := fun t : State => (pageOracle t, pageLog t)).
  assert (Hf : forall t t', f t' = f t ->
                 pageOracle t' = pageOracle t /\ pageLog t' = pageLog t).
  { intros t t' H. unfold f in H. split; congruence. }
  assert (Hupm : forall hp q v t, f (UpdatePageMap cfg hp q v t) = f t).
  { intros hp q v t.
    destruct (UpdatePageMap_frame cfg hp q v t) as (_ & _ & _ & _ & _ & HO & HL).
    unfold f. rewrite HO, HL. reflexivity. }
  intros Hr. unfold lr_free in Hr.
  destruct (decide (p = 0)); [injection Hr as <-; auto|].
  set (d := GetDescriptorForPtr cfg p s) in *.
  destruct (decide (d = 0)); [injection Hr as <-; auto|].
  destruct (heap (desc_at s d)) as [h|].
  - destruct (cas_update fuel _ _ _ _ _ _) as [[[[u o] nw] s1]|] eqn:Hloop;
      [|discriminate].
    assert (H1 : f s1 = f s).
    { refine (cas_update_same f _ _ _ _ _ _ _ _ _ _ _ Hloop); reflexivity. }
    apply Hf in H1 as [HO1 HL1].
    destruct (decide (state nw = SB_EMPTY)).
    + unfold RemoveEmptyDesc, ListRemoveEmptyDesc in Hr.
      set (s2 := UnregisterDesc cfg (Some h) (superblock (desc_at s d)) s1) in Hr.
      set (s3 := PageFree (superblock (desc_at s d)) _ s2) in Hr.
      assert (Hs' : s' = s3) by congruence. rewrite Hs'.
      assert (H2 : f s2 = f s1) by apply Hupm.
      apply Hf in H2 as [HO2 HL2].
      split.
      * transitivity (pageOracle s2); [reflexivity|]. congruence.
      * right. eexists _, _. unfold s3. rewrite pageLog_PageFree.
        rewrite HL2, HL1. reflexivity.
    + destruct (decide (state o = SB_FULL)).
      * unfold HeapPushPartial, ListPushPartial in Hr.
        destruct (heap (desc_at s1 d)) as [hd|]; [|discriminate].
        destruct (cas_update fuel _ _ _ _ _ _) as [[[[u2 o2] nw2] s2]|]
          eqn:Hpush in Hr; [|discriminate].
        assert (Hs' : s' = s2) by congruence. rewrite Hs'.
        assert (H2 : f s2 = f s1).
        { refine (cas_update_same f _ _ _ _ _ _ _ _ _ _ _ Hpush); reflexivity. }
        apply Hf in H2 as [HO2 HL2].
        split; [congruence|left; congruence].
      * injection Hr as <-. auto.
  - unfold RemoveEmptyDesc, ListRemoveEmptyDesc in Hr.
    set (sb := superblock (desc_at s d)) in *.
    set (s2 := if decide (p <> sb)
               then UnregisterDesc cfg None p (UnregisterDesc cfg None sb s)
               else UnregisterDesc cfg None sb s) in *.
    set (s3 := PageFree sb _ s2) in Hr.
    unfold DescRetire in Hr.
    destruct (cas_update fuel _ _ _ _ _ _) as [[[[u o] nw] s1]|] eqn:Hloop;
      [|discriminate].
    assert (Hs' : s' = s1) by congruence. rewrite Hs'.
    assert (H1 : f s1 = f s3).
    { refine (cas_update_same f _ _ _ _ _ _ _ _ _ _ _ Hloop); reflexivity. }
    apply Hf in H1 as [HO1 HL1].
    assert (H2 : f s2 = f s).
    { unfold s2, UnregisterDesc. destruct (decide (p <> sb));
        rewrite ?Hupm; reflexivity. }
    apply Hf in H2 as [HO2 HL2].
    split.
    + rewrite HO1. transitivity (pageOracle s2); [reflexivity|]. exact HO2.
    + right. eexists _, _. rewrite HL1. unfold s3.
      rewrite pageLog_PageFree, HL2. reflexivity.
Qed.

Lemma lr_free_page_calls_witness :
  pageOracle drained_state = pageOracle drain_state /\
  (pageLog drained_state = pageLog drain_state \/
   exists q n, pageLog drained_state = pageLog drain_state ++ [EvPageFree q n]).
Proof.
  apply (lr_free_page_calls test_cfg 8 2103296).
  apply final_result. vm_compute. reflexivity.
Defined.
